(** * i-SAS Interface: coordination barrier and batch-execution engine

    A shallow embedding of the service coordination code
    ([isas/service/socket.py], [isas/service/service.py]), of the lineage
    helpers ([isas/utils/dynamic_data_utils.py]) and of the execution loop
    ([isas/base/base.py], [isas/interface.py]), followed by the vocabulary
    of the properties, sample configurations, and the properties proved.

    Conventions.
    - A Python [str] is represented by its UTF-8 encoding, held in a Rocq
      [string] (a sequence of bytes); [bytes] values are Rocq [string]s as
      well.  UTF-8 is injective, so equality of [str] values is equality of
      the representing strings, [str.encode()] is the identity and
      [bytes.decode()] is the identity on well-formed input and raises
      [UnicodeDecodeError] otherwise.
    - A [dict] or [set] whose iteration order cannot influence a result is a
      [gmap] or [gset]; a [dict] that is iterated for its effects keeps its
      insertion order as an association list.
    - A [datetime] is its number of microseconds since 0001-01-01 00:00:00,
      an integer between [0] and [datetime_max]; arithmetic leaving that
      range raises [OverflowError] as in CPython.
    - Code that may raise returns a [result]; code that blocks or loops is
      run against an explicit description of its environment (the content of
      the inbound queue, the outcome of each connection attempt). *)

From Stdlib Require Import ZArith Lia Ascii String.
From stdpp Require Import gmap strings list fin_maps.

Local Open Scope string_scope.
Local Open Scope list_scope.

(** ** Python values shared by all modules *)

Abbreviation str := string.
Abbreviation bytes := string.

(** The exception classes the modelled code raises or lets through.
    [OSError] stands for [socket.error] (an alias of [OSError]) and all of
    its subclasses; [ModelError] for whatever a user-supplied model raises. *)
Inductive exn : Type :=
| ValueError
| OverflowError
| UnicodeDecodeError
| OSError
| TypeError
| KeyError
| ModelError.

Global Instance exn_eq_dec : EqDecision exn.
Proof. solve_decision. Defined.

Inductive result (A : Type) : Type :=
| Ok (a : A)
| Raise (e : exn).
Arguments Ok {A} a.
Arguments Raise {A} e.

Definition in_range (lo hi : N) (c : ascii) : bool :=
  ((lo <=? N_of_ascii c) && (N_of_ascii c <=? hi))%N.

(** Well-formed UTF-8 byte sequences (Unicode Standard, table 3-7), which
    is what the strict codec of [bytes.decode()] accepts. *)
Fixpoint utf8_valid (s : string) : bool :=
  match s with
  | EmptyString => true
  | String b0 s1 =>
    if in_range 0 127 b0 then utf8_valid s1
    else
      match s1 with
      | EmptyString => false
      | String b1 s2 =>
        if in_range 194 223 b0 then in_range 128 191 b1 && utf8_valid s2
        else
          match s2 with
          | EmptyString => false
          | String b2 s3 =>
            if in_range 224 239 b0 then
              (if in_range 224 224 b0 then in_range 160 191 b1
               else if in_range 237 237 b0 then in_range 128 159 b1
               else in_range 128 191 b1)
              && in_range 128 191 b2 && utf8_valid s3
            else
              match s3 with
              | EmptyString => false
              | String b3 s4 =>
                in_range 240 244 b0
                && (if in_range 240 240 b0 then in_range 144 191 b1
                    else if in_range 244 244 b0 then in_range 128 143 b1
                    else in_range 128 191 b1)
                && in_range 128 191 b2 && in_range 128 191 b3
                && utf8_valid s4
              end
          end
      end
  end.

(** [data.decode()] *)
Definition decode (data : bytes) : result str :=
  if utf8_valid data then Ok data else Raise UnicodeDecodeError.

(** [message.encode()] *)
Definition encode (message : str) : bytes := message.

(** ** isas/service/socket.py *)

Module socket.

(** What one pass through the body of the [try] in [SocketClient.send]
    does: [s.connect(self.address)] returns or raises, and when it
    returned [s.sendall(data)] returns or raises. *)
Inductive attempt : Type :=
| ConnectRaises (e : exn)
| SendallRaises (e : exn)
| Sent.

(** The network as the sender sees it: the outcome of the [n]-th attempt. *)
Definition network := nat → attempt.

Inductive event : Type :=
| EConnect (ok : bool)
| ESendall (data : bytes) (ok : bool)
| ESleep (seconds : Z).

Global Instance event_eq_dec : EqDecision event.
Proof. solve_decision. Defined.

(** The state of a run of [send]: it returned, an exception left it, or it
    is still inside its [while True] when the fuel ran out. *)
Inductive run : Type :=
| Returned (tr : list event)
| Raised (e : exn) (tr : list event)
| Retrying (tr : list event).

(** [except socket.error]: the handler catches [OSError] and nothing else. *)
Definition caught (e : exn) : bool := bool_decide (e = OSError).

(** The [while True] loop of [SocketClient.send], started at attempt [k]
    with the events [tr] behind it. *)
Fixpoint send_loop (fuel : nat) (net : network) (data : bytes)
    (k : nat) (tr : list event) : run :=
  match fuel with
  | O => Retrying tr
  | S fuel' =>
    match net k with
    | Sent => Returned (tr ++ [EConnect true; ESendall data true])
    | ConnectRaises e =>
      if caught e
      then send_loop fuel' net data (S k) (tr ++ [EConnect false; ESleep 1])
      else Raised e (tr ++ [EConnect false])
    | SendallRaises e =>
      if caught e
      then send_loop fuel' net data (S k)
             (tr ++ [EConnect true; ESendall data false; ESleep 1])
      else Raised e (tr ++ [EConnect true; ESendall data false])
    end
  end.

(** [SocketClient.send(data)].  [created] is what [socket.socket(...)] does
    at the head of the [with] statement, which the [try] does not cover. *)
Definition send (fuel : nat) (created : result unit) (net : network)
    (data : bytes) : run :=
  match created with
  | Raise e => Raised e []
  | Ok _ => send_loop fuel net data 0 []
  end.

End socket.

(** ** Dates and times *)

Abbreviation datetime := Z.

(** [datetime.max], 9999-12-31 23:59:59.999999, in microseconds since
    [datetime.min]: 3652059 days of 86400 seconds, less one microsecond. *)
Definition datetime_max : Z := 3652059 * 86400 * 1000000 - 1.

(** [timedelta(seconds=s)] for an integer [s], in microseconds.  A
    [timedelta] holds between -999999999 and 999999999 days. *)
Definition timedelta (seconds : Z) : result Z :=
  if bool_decide (-999999999 ≤ seconds `div` 86400 ≤ 999999999)%Z
  then Ok (seconds * 1000000)%Z
  else Raise OverflowError.

(** [d + td] on a [datetime] and a [timedelta] *)
Definition datetime_add (d : datetime) (td : Z) : result datetime :=
  if bool_decide (0 ≤ d + td ≤ datetime_max)%Z
  then Ok (d + td)%Z
  else Raise OverflowError.

(** [time.sleep(seconds)] for an integer [seconds].  CPython first holds the
    length in nanoseconds in 64 bits, which fails for more than 9223372036
    seconds either way, and then refuses a negative length. *)
Definition sleep_max : Z := 9223372036.

Definition time_sleep (seconds : Z) : result unit :=
  if bool_decide (- sleep_max ≤ seconds ≤ sleep_max)%Z
  then if bool_decide (seconds < 0)%Z then Raise ValueError else Ok ()
  else Raise OverflowError.

(** ** The data classes of [isas_base.data] the engine handles

    A [DataFrame] is known to the engine through its columns only: a
    column label gives the cells of that column, one per row.  The cells of
    the tag columns are strings.  A series without tags has the empty frame
    for its [tags]. *)

Abbreviation DataFrame := (gmap string (list string)).

Record TimeSeriesData : Type := {
  fields : DataFrame;
  tags : DataFrame;
}.

Record TimeSeriesBatchMetadata : Type := {
  md_service_name : str;
  md_batch_datetime : datetime;
  dependencies : gset string;
}.

Record DynamicData : Type := {
  time_series_data : gmap string TimeSeriesData;
  time_series_batch_metadata : gmap string TimeSeriesBatchMetadata;
}.

(** [DynamicData()] *)
Definition DynamicData_empty : DynamicData :=
  {| time_series_data := ∅; time_series_batch_metadata := ∅ |}.

(** The tag of a batch, the [dict] built by [generate_tag]. *)
Record Tag : Type := {
  batch_id : str;
  service_name : str;
  batch_datetime : datetime;
}.

(** What the engine calls and this repository does not define: the data
    store, the merge of two [DynamicData], the pandas calls of
    [arrange_result], the rendering of a [datetime] and the wall clock. *)
Record collaborators : Type := {
  (** [str(d)] for a [datetime] *)
  datetime_str : datetime → str;
  (** the [n]-th reading of [datetime.now()] *)
  wall_clock : nat → datetime;
  (** [DataManager.import_dynamic_data(data_name=, time_series_data_system=,
      first_datetime=, last_datetime=, import_metadata=)] *)
  import_dynamic_data :
    list str → str → option datetime → option datetime → bool → DynamicData;
  (** [self.update(other)] on a [DynamicData], as the value of [self]
      afterwards *)
  update : DynamicData → DynamicData → DynamicData;
  (** the three [set_axis]/[index.name] steps of [arrange_result] on one
      frame, given [ns] *)
  arrange_frame : datetime → DataFrame → DataFrame;
  (** [pd.DataFrame(tag, index=df.index).convert_dtypes()], where [tag] is
      the tag [dict] or the frame an earlier pass made of it; pandas raises
      when it cannot lay that frame on the index *)
  tag_frame : Tag + DataFrame → DataFrame → result DataFrame;
  (** [DataManager.export_dynamic_data(dynamic_data, data_name=,
      table_data_system=, time_series_data_system=)], which returns or
      raises *)
  export_dynamic_data : DynamicData → list str → str → str → result unit;
}.

(** ** isas/utils/dynamic_data_utils.py *)

Module dynamic_data_utils.

(** [generate_tag(service_name)], with [datetime.now()] read as [now]. *)
Definition generate_tag (env : collaborators) (service_name : str)
    (now : datetime) : Tag :=
  let batch_datetime := now in
  {| batch_id := service_name +:+ "_" +:+ datetime_str env batch_datetime;
     service_name := service_name;
     batch_datetime := batch_datetime |}.

(** One pass of the loop of [arrange_result]: the local [tag] and the
    [time_series_data] built so far, then the next item of [res]. *)
Definition arrange_item (env : collaborators) (ns : datetime)
    (acc : (Tag + DataFrame) * gmap string TimeSeriesData)
    (item : str * option DataFrame)
    : result ((Tag + DataFrame) * gmap string TimeSeriesData) :=
  let '(tag, time_series_data) := acc in
  let '(data_name, df) := item in
  match df with
  | None => Ok acc
  | Some df =>
    let df := arrange_frame env ns df in
    match tag_frame env tag df with
    | Raise e => Raise e
    | Ok tag =>
      Ok (inr tag,
          <[data_name := {| fields := df; tags := tag |}]> time_series_data)
    end
  end.

(** The loop [for data_name, df in res.items()] of [arrange_result]. *)
Fixpoint arrange_items (env : collaborators) (ns : datetime)
    (acc : (Tag + DataFrame) * gmap string TimeSeriesData)
    (res : list (str * option DataFrame))
    : result ((Tag + DataFrame) * gmap string TimeSeriesData) :=
  match res with
  | [] => Ok acc
  | item :: res' =>
    match arrange_item env ns acc item with
    | Raise e => Raise e
    | Ok acc' => arrange_items env ns acc' res'
    end
  end.

(** [arrange_result(res, tag)] for a [tag] that is not [None] (the engine
    always passes one), with [datetime.now()] read as [ns].  [res] is the
    model's result [dict] in its insertion order. *)
Definition arrange_result (env : collaborators)
    (res : list (str * option DataFrame)) (tag : Tag) (ns : datetime)
    : result DynamicData :=
  match arrange_items env ns (inl tag, ∅) res with
  | Raise e => Raise e
  | Ok acc =>
    Ok {| time_series_data := acc.2; time_series_batch_metadata := ∅ |}
  end.

(** [Series.drop_duplicates().tolist()]: the first occurrence of each value
    is kept, in order. *)
Fixpoint drop_duplicates (l : list str) : list str :=
  match l with
  | [] => []
  | x :: l' => x :: filter (λ y, y ≠ x) (drop_duplicates l')
  end.

(** One pass of the loop of [get_dependencies]. *)
Definition extend_dependent (dependent_batch_id : list str)
    (item : str * TimeSeriesData) : list str :=
  match tags item.2 !! "batch_id" with
  | None => dependent_batch_id
  | Some column => dependent_batch_id ++ drop_duplicates column
  end.

(** [get_dependencies(dynamic_data, tag)].  The source returns
    [list(set(...) - {...})], a list in no specified order; the model
    returns the set. *)
Definition get_dependencies (dynamic_data : DynamicData) (tag : Tag)
    : gset string :=
  let dependent_batch_id :=
    foldl extend_dependent [] (map_to_list (time_series_data dynamic_data)) in
  list_to_set dependent_batch_id ∖ {[ batch_id tag ]}.

(** [generate_time_series_batch_metadata(tag, dependent_batch_id)] *)
Definition generate_time_series_batch_metadata (tag : Tag)
    (dependent_batch_id : gset string) : DynamicData :=
  {| time_series_data := ∅;
     time_series_batch_metadata :=
       {[ batch_id tag :=
            {| md_service_name := service_name tag;
               md_batch_datetime := batch_datetime tag;
               dependencies := dependent_batch_id |} ]} |}.

End dynamic_data_utils.

(** ** isas/base/base.py and isas/interface.py *)

Module Interface.

(** A model instance as the engine uses it: its class attributes, the name
    lists it declares, and its call, which returns the result [dict] in
    insertion order or raises. *)
Record Model : Type := {
  TASK : str;
  MODEL_NAME : str;
  input_data_names : list str;
  output_data_names : list str;
  model_call : DynamicData → result (list (str * option DataFrame));
}.

(** [cfg['SERVICE']['SIMULATE_STREAM_PARAMS']].  The two dates are held as
    parsed by [datetime.fromisoformat]; [INTERVAL] and [SLEEP_TIME] are whole
    seconds. *)
Record simulate_stream_params : Type := {
  SLEEP_TIME : Z;
  LOOP : bool;
  FIRST_DATETIME : datetime;
  LAST_DATETIME : datetime;
  INTERVAL : Z;
}.

(** The configuration after [get_cfg] merged it over [DEFAULT_CFG]; the
    entries of [SUBPACKAGES] are held as the model instances that
    [_set_models] builds from them. *)
Record cfg_t : Type := {
  TABLE_DATA_SYSTEM : str;
  TIME_SERIES_DATA_SYSTEM : str;
  DATA_PROCESSING_METHOD : str;
  STREAM_EXPORT_QUEUE_MAXSIZE : Z;
  SIMULATE_STREAM_PARAMS : simulate_stream_params;
  SUBPACKAGES : list Model;
  EXPORT_DATA_NAMES : option (list str);
}.

(** The attributes of an [Interface] object. *)
Record t : Type := {
  self_service_name : str;
  cfg : cfg_t;
  streaming : bool;
  models : gmap string (list Model);
  import_data_names : gmap string (list str);
  export_data_names : list str;
  last_datetime : option datetime;
}.

Definition set_last_datetime (self : t) (d : option datetime) : t :=
  {| self_service_name := self_service_name self;
     cfg := cfg self;
     streaming := streaming self;
     models := models self;
     import_data_names := import_data_names self;
     export_data_names := export_data_names self;
     last_datetime := d |}.

(** The arguments of one call of [DataManager.import_dynamic_data]. *)
Record import_request : Type := {
  data_name : list str;
  time_series_data_system : str;
  first_datetime : option datetime;
  last_datetime_bound : option datetime;
  import_metadata : bool;
}.

(** What an iteration does to the world outside the working data. *)
Inductive event : Type :=
| Sleep (seconds : Z)
| Import (request : import_request)
| Export (names : list str) (table_data_system time_series_data_system : str)
| QueuePut (names : list str)
| ExporterJoin
| ModelExit (model_name : str).

(** The state an iteration runs in: the object, the events so far and the
    number of readings taken from the wall clock. *)
Record state : Type := {
  self : t;
  trace : list event;
  ticks : nat;
}.

(** State and exceptions: a raised exception keeps the state reached. *)
Definition M (A : Type) : Type := state → result A * state.

Global Instance M_ret : MRet M := λ A a s, (Ok a, s).

Global Instance M_bind : MBind M := λ A B f c s,
  match c s with
  | (Ok a, s') => f a s'
  | (Raise e, s') => (Raise e, s')
  end.

Definition raise {A : Type} (e : exn) : M A := λ s, (Raise e, s).

Definition lift {A : Type} (r : result A) : M A := λ s, (r, s).

Definition get_self : M t := λ s, (Ok (self s), s).

Definition put_self (obj : t) : M unit := λ s,
  (Ok (), {| self := obj; trace := trace s; ticks := ticks s |}).

Definition emit (ev : event) : M unit := λ s,
  (Ok (), {| self := self s; trace := trace s ++ [ev]; ticks := ticks s |}).

(** [datetime.now()] *)
Definition now (env : collaborators) : M datetime := λ s,
  (Ok (wall_clock env (ticks s)),
   {| self := self s; trace := trace s; ticks := S (ticks s) |}).

(** [for x in l: acc = body(acc, x)] *)
Fixpoint for_each {A B : Type} (l : list A) (body : B → A → M B) (acc : B)
    : M B :=
  match l with
  | [] => mret acc
  | x :: l' => acc' ← body acc x; for_each l' body acc'
  end.

(** The task categories, in the order every loop over them uses. *)
Definition tasks : list str := ["measurement"; "analysis"].

(** [Base._check_cfg] *)
Definition _check_cfg (cfg : cfg_t) : result unit :=
  let data_processing_method := DATA_PROCESSING_METHOD cfg in
  if bool_decide
       (data_processing_method ∉ ["batch"; "stream"; "simulate_stream"])
  then Raise ValueError
  else Ok ().

(** [Interface._init_models], and the attributes [Base.__init__] sets
    before [_set_models] runs. *)
Definition _init_models (service_name : str) (cfg : cfg_t) : t :=
  {| self_service_name := service_name;
     cfg := cfg;
     streaming :=
       bool_decide (DATA_PROCESSING_METHOD cfg ∈ ["stream"; "simulate_stream"]);
     models := ∅;
     import_data_names := ∅;
     export_data_names := [];
     last_datetime := None |}.

(** [models[model.TASK].append(model)] on a [defaultdict(list)] *)
Definition append_model (models : gmap string (list Model)) (model : Model)
    : gmap string (list Model) :=
  <[TASK model := default [] (models !! TASK model) ++ [model]]> models.

(** The body of the loop [for task in tasks] of [_set_models]. *)
Definition set_task (models : gmap string (list Model))
    (export_data_names : option (list str)) (self : t) (task : str) : t :=
  match models !! task with
  | None => self
  | Some task_models =>
    let input_data_names := concat (input_data_names <$> task_models) in
    let output_data_names := concat (output_data_names <$> task_models) in
    {| self_service_name := self_service_name self;
       cfg := cfg self;
       streaming := streaming self;
       models := <[task := task_models]> (Interface.models self);
       import_data_names :=
         <[task := elements ((list_to_set input_data_names : gset string)
                             ∖ list_to_set output_data_names)]>
           (import_data_names self);
       export_data_names :=
         match export_data_names with
         | None => Interface.export_data_names self
         | Some names =>
           Interface.export_data_names self ++
           elements ((list_to_set names : gset string)
                     ∩ list_to_set output_data_names)
         end;
       last_datetime := last_datetime self |}
  end.

(** [Interface._set_models] *)
Definition _set_models (self : t) (cfg : cfg_t) : result t :=
  let models := foldl append_model ∅ (SUBPACKAGES cfg) in
  if bool_decide (dom models ⊆ (list_to_set tasks : gset string))
  then Ok (foldl (set_task models (EXPORT_DATA_NAMES cfg)) self tasks)
  else Raise ValueError.

(** [Interface.__init__]: the configuration check of [Base._get_cfg], the
    attributes, and [_set_models].  This is the constructor when every call
    it makes outside this file returns: the data manager, the download and
    the preprocessing of [Base.__init__], the import and the construction
    of the model classes in [_set_models], and the start of the exporter
    thread.  Each of them can raise in its own way, so what is proved of
    the constructor is proved of the objects it returns and of the checks
    it makes itself. *)
Definition __init__ (service_name : str) (cfg : cfg_t) : result t :=
  match _check_cfg cfg with
  | Raise e => Raise e
  | Ok _ => _set_models (_init_models service_name cfg) cfg
  end.

(** [Interface._simulate_streaming].  A [time.sleep] that returns is
    recorded as an event; one that raises ends the call before the cursor
    is read.  The cursor [self.last_datetime] is assigned before the new
    bound is computed, so it keeps its value when the addition overflows. *)
Definition _simulate_streaming : M (datetime * datetime) :=
  self ← get_self;
  let cfg := SIMULATE_STREAM_PARAMS (cfg self) in
  _ ← lift (time_sleep (SLEEP_TIME cfg));
  _ ← emit (Sleep (SLEEP_TIME cfg));
  let loop :=
    match last_datetime self with
    | None => false
    | Some last => LOOP cfg && bool_decide (LAST_DATETIME cfg ≤ last)%Z
    end in
  let self :=
    if bool_decide (last_datetime self = None) || loop
    then set_last_datetime self (Some (FIRST_DATETIME cfg))
    else self in
  _ ← put_self self;
  match last_datetime self with
  | None => raise TypeError
  | Some fisrt_datetime =>
    delta ← lift (timedelta (INTERVAL cfg));
    last_datetime ← lift (datetime_add fisrt_datetime delta);
    _ ← put_self (set_last_datetime self (Some last_datetime));
    mret (fisrt_datetime, last_datetime)
  end.

(** The value of [data_system] in the pass for [task]. *)
Definition data_system_of (self : t) (task : str) : str :=
  let streaming :=
    if bool_decide (task = "measurement") then false else streaming self in
  if streaming then "streaming" else TIME_SERIES_DATA_SYSTEM (cfg self).

(** The value of [data_name] in the pass for [task]: the names kept for the
    task at setup, less the keys of the working data. *)
Definition data_name_of (self : t) (task : str) (dynamic_data : DynamicData)
    : list str :=
  elements ((list_to_set (default [] (import_data_names self !! task))
               : gset string)
            ∖ dom (time_series_data dynamic_data)).

(** The request the pass for [task] sends to the data store. *)
Definition import_request_of (self : t) (task : str)
    (dynamic_data : DynamicData) (first_datetime last_datetime : option datetime)
    : import_request :=
  {| data_name := data_name_of self task dynamic_data;
     time_series_data_system := data_system_of self task;
     first_datetime := first_datetime;
     last_datetime_bound := last_datetime;
     import_metadata := false |}.

(** The import step of one pass: the call of [import_dynamic_data] and
    [dynamic_data.update(_dynamic_data)]. *)
Definition import_step (env : collaborators)
    (first_datetime last_datetime : option datetime)
    (task : str) (dynamic_data : DynamicData) : M DynamicData :=
  self ← get_self;
  let request :=
    import_request_of self task dynamic_data first_datetime last_datetime in
  _ ← emit (Import request);
  let _dynamic_data :=
    import_dynamic_data env (data_name request)
      (time_series_data_system request) (Interface.first_datetime request)
      (last_datetime_bound request) (import_metadata request) in
  mret (update env dynamic_data _dynamic_data).

(** The body of the loop [for model in self.models.get(task, [])]. *)
Definition apply_model (env : collaborators) (tag : Tag)
    (dynamic_data : DynamicData) (model : Model) : M DynamicData :=
  res ← lift (model_call model dynamic_data);
  ns ← now env;
  arranged ← lift (dynamic_data_utils.arrange_result env res tag ns);
  mret (update env dynamic_data arranged).

(** The body of the loop [for task in tasks] of [__call__].  The variable
    [data_system] outlives the loop, so it is threaded with the working
    data. *)
Definition run_task (env : collaborators) (tag : Tag)
    (first_datetime last_datetime : option datetime)
    (acc : DynamicData * str) (task : str) : M (DynamicData * str) :=
  self ← get_self;
  let data_system := data_system_of self task in
  dynamic_data ← import_step env first_datetime last_datetime task acc.1;
  dynamic_data ←
    for_each (default [] (models self !! task)) (apply_model env tag)
      dynamic_data;
  mret (dynamic_data, data_system).

(** [Interface.__call__(dynamic_data, first_datetime, last_datetime)].
    [data_system] is unbound before the first pass of the loop; the pair is
    started with the empty string, which no pass reads. *)
Definition __call__ (env : collaborators) (dynamic_data : option DynamicData)
    (first_datetime last_datetime : option datetime) : M DynamicData :=
  self ← get_self;
  window ←
    (if bool_decide (DATA_PROCESSING_METHOD (cfg self) = "simulate_stream")
     then
       if bool_decide (first_datetime ≠ None ∨ last_datetime ≠ None)
       then raise ValueError
       else w ← _simulate_streaming; mret (Some w.1, Some w.2)
     else mret (first_datetime, last_datetime));
  let first_datetime := window.1 in
  let last_datetime := window.2 in
  batch_datetime ← now env;
  let tag :=
    dynamic_data_utils.generate_tag env (self_service_name self)
      batch_datetime in
  let dynamic_data := default DynamicData_empty dynamic_data in
  acc ← for_each tasks (run_task env tag first_datetime last_datetime)
          (dynamic_data, "");
  let dynamic_data := acc.1 in
  let data_system := acc.2 in
  let dependent_batch_id :=
    dynamic_data_utils.get_dependencies dynamic_data tag in
  let dynamic_data :=
    update env dynamic_data
      (dynamic_data_utils.generate_time_series_batch_metadata tag
         dependent_batch_id) in
  _ ← (if bool_decide (TIME_SERIES_DATA_SYSTEM (cfg self) ∈ ["influx"])
       then
         _ ← emit (Export (export_data_names self)
                     (TABLE_DATA_SYSTEM (cfg self)) data_system);
         _ ← lift (export_dynamic_data env dynamic_data
                     (export_data_names self) (TABLE_DATA_SYSTEM (cfg self))
                     data_system);
         if streaming self
         then emit (QueuePut (export_data_names self))
         else mret ()
       else mret ());
  mret dynamic_data.

(** [Interface.exit].  [self.models] holds the tasks in the order
    [_set_models] inserted them, the order of [tasks]. *)
Definition exit : M unit :=
  self ← get_self;
  _ ← (if streaming self then emit ExporterJoin else mret ());
  for_each (concat (omap (λ task, models self !! task) tasks))
    (λ _ model, emit (ModelExit (MODEL_NAME model))) ().

End Interface.

(** ** isas/service/service.py *)

Module Service.

(** The project configuration of one service: the entries the barrier
    reads, and the part handed to the workload. *)
Record cfg_t : Type := {
  SERVICE_TYPE : str;
  DEPENDENCIES : list str;
  SERVICE : Interface.cfg_t;
}.

(** The attributes of a [Service] object that do not change.
    [socket_clients] is a [dict] in insertion order: peer name and port. *)
Record t : Type := {
  service_name : str;
  cfg : cfg_t;
  socket_clients : list (str * Z);
}.

(** The calls the main thread makes on its queue, channels and threads. *)
Inductive event : Type :=
| Get (data : bytes)
| Send (peer : str) (data : bytes)
| InterfaceInit
| ThreadStart
| ThreadStop
| ThreadJoin
| DashboardInit
| DashboardCall
| ServerStop.

Global Instance event_eq_dec : EqDecision event.
Proof. solve_decision. Defined.

(** What the main thread works on: the messages the receiver thread has
    put or will put in [recv_queue], in order; whether the receiver thread
    is alive; the calls made so far. *)
Record state : Type := {
  recv_queue : list bytes;
  server_alive : bool;
  trace : list event;
}.

(** How a piece of the main thread ends: it returns, it raises, or it
    never comes back: it waits in [recv_queue.get()] on a queue that stays
    empty, retries a [send] for ever, or runs a dashboard that is never
    closed. *)
Inductive status : Type :=
| Returned
| Raised (e : exn)
| Blocked.

(** What a call of [SocketClient.send] does to its caller: it returns, an
    exception leaves it, or it retries for ever against a peer that never
    listens. *)
Inductive send_result : Type :=
| SendReturns
| SendRaises (e : exn)
| SendRetries.

(** What the main thread meets outside its queue.  [sends tr] is what the
    call of [send] does that is the last of the calls [tr].  Of the calls
    that [Interface(cfg)] makes outside this file, [interface_loaded] is
    what those do that come before the check of the tasks (the data
    manager, the download, the preprocessing, the import and the
    construction of the model classes), and [interface_started] what those
    do that come after it (the export of the static data, the start of the
    exporter thread).  [dashboard_built] is what the steps of
    [Dashboard(cfg)] do that follow the check of the configuration;
    [dashboard_called] is how [dashboard()] ends. *)
Record world : Type := {
  sends : list event → send_result;
  interface_loaded : result unit;
  interface_started : result unit;
  dashboard_built : result unit;
  dashboard_called : status;
}.

(** [Service._get_socket_clients(ports)] *)
Definition _get_socket_clients (service_name : str) (ports : list (str * Z))
    : list (str * Z) :=
  filter (λ p, p.1 ≠ service_name) ports.

(** [Service._get_socket_server(ports)], as the port the receiver thread
    listens on: [ports[self.service_name]]. *)
Definition _get_socket_server (service_name : str) (ports : list (str * Z))
    : result Z :=
  match list_find (λ p, p.1 = service_name) ports with
  | Some (_, (_, port)) => Ok port
  | None => Raise KeyError
  end.

(** [Service.__init__], for the [PORT] table already split into [ports], a
    [dict] in insertion order. *)
Definition __init__ (service_name : str) (cfg : cfg_t) (ports : list (str * Z))
    : result t :=
  match _get_socket_server service_name ports with
  | Raise e => Raise e
  | Ok _ =>
    Ok {| service_name := service_name;
          cfg := cfg;
          socket_clients := _get_socket_clients service_name ports |}
  end.

(** The [while True] loop of [_wait_dependencies]. *)
Fixpoint wait_loop (dependencies : list str) (finished_init : list str)
    (recv_queue : list bytes) (alive : bool) (tr : list event)
    : status * list str * state :=
  match recv_queue with
  | [] =>
    (Blocked, finished_init,
     {| recv_queue := []; server_alive := alive; trace := tr |})
  | data :: recv_queue' =>
    let tr := tr ++ [Get data] in
    match decode data with
    | Raise e =>
      (Raised e, finished_init,
       {| recv_queue := recv_queue'; server_alive := alive; trace := tr |})
    | Ok message =>
      let finished_init := finished_init ++ [message] in
      if bool_decide ((list_to_set dependencies : gset string)
                      ⊆ list_to_set finished_init)
      then
        (Returned, finished_init,
         {| recv_queue := recv_queue'; server_alive := alive; trace := tr |})
      else wait_loop dependencies finished_init recv_queue' alive tr
    end
  end.

(** [Service._wait_dependencies], with the final value of [finished_init]. *)
Definition _wait_dependencies (self : t) (s : state)
    : status * list str * state :=
  let finished_init := [] in
  if bool_decide (length (DEPENDENCIES (cfg self)) = 0)
  then (Returned, finished_init, s)
  else
    wait_loop (DEPENDENCIES (cfg self)) finished_init
      (recv_queue s) (server_alive s) (trace s).

(** The loop of [_send_message] over the clients that are left. *)
Fixpoint send_each (w : world) (data : bytes) (clients : list (str * Z))
    (tr : list event) : status * list event :=
  match clients with
  | [] => (Returned, tr)
  | client :: clients' =>
    let tr := tr ++ [Send client.1 data] in
    match sends w tr with
    | SendReturns => send_each w data clients' tr
    | SendRaises e => (Raised e, tr)
    | SendRetries => (Blocked, tr)
    end
  end.

(** [Service._send_message(message)]: one [send] per client, in the order
    of the [dict]; a [send] that does not return ends the loop. *)
Definition _send_message (w : world) (self : t) (message : str)
    (tr : list event) : status * list event :=
  send_each w (encode message) (socket_clients self) tr.

(** The [while True] loop of [_run_interface]. *)
Fixpoint run_interface_loop (recv_queue : list bytes) (alive : bool)
    (tr : list event) : status * state :=
  match recv_queue with
  | [] =>
    (Blocked, {| recv_queue := []; server_alive := alive; trace := tr |})
  | data :: recv_queue' =>
    let tr := tr ++ [Get data] in
    match decode data with
    | Raise e =>
      (Raised e,
       {| recv_queue := recv_queue'; server_alive := alive; trace := tr |})
    | Ok message =>
      if bool_decide (message = "exit")
      then
        (Returned,
         {| recv_queue := recv_queue'; server_alive := alive;
            trace := tr ++ [ThreadStop] |})
      else run_interface_loop recv_queue' alive tr
    end
  end.

(** The state of the main thread after calls that left the queue alone. *)
Definition with_trace (s : state) (tr : list event) : state :=
  {| recv_queue := recv_queue s; server_alive := server_alive s;
     trace := tr |}.

(** [Interface(cfg)] as the main thread meets it: the steps of
    [Interface.__init__] in their order, with the calls made outside this
    file between them. *)
Definition build_interface (w : world) (service_name : str)
    (cfg : Interface.cfg_t) : result Interface.t :=
  match Interface._check_cfg cfg with
  | Raise e => Raise e
  | Ok _ =>
    match interface_loaded w with
    | Raise e => Raise e
    | Ok _ =>
      match
        Interface._set_models (Interface._init_models service_name cfg) cfg
      with
      | Raise e => Raise e
      | Ok interface =>
        match interface_started w with
        | Raise e => Raise e
        | Ok _ => Ok interface
        end
      end
    end
  end.

(** [Service._run_interface] *)
Definition _run_interface (w : world) (self : t) (s : state)
    : status * state :=
  match build_interface w (service_name self) (SERVICE (cfg self)) with
  | Raise e => (Raised e, s)
  | Ok interface =>
    let tr := trace s ++ [InterfaceInit] in
    match _send_message w self (service_name self) tr with
    | (Returned, tr) =>
      let tr := tr ++ [ThreadStart] in
      run_interface_loop (recv_queue s) (server_alive s) tr
    | (stopped, tr) => (stopped, with_trace s tr)
    end
  end.

(** [Service._run_dashboard].  [Dashboard(cfg)] checks its configuration
    as the interface does, in [Base._get_cfg], before anything else. *)
Definition _run_dashboard (w : world) (self : t) (s : state)
    : status * state :=
  match Interface._check_cfg (SERVICE (cfg self)) with
  | Raise e => (Raised e, s)
  | Ok _ =>
    match dashboard_built w with
    | Raise e => (Raised e, s)
    | Ok _ =>
      let tr := trace s ++ [DashboardInit] in
      match _send_message w self (service_name self) tr with
      | (Returned, tr) =>
        let tr := tr ++ [DashboardCall] in
        match dashboard_called w with
        | Returned =>
          match _send_message w self "exit" tr with
          | (stopped, tr) => (stopped, with_trace s tr)
          end
        | stopped => (stopped, with_trace s tr)
        end
      | (stopped, tr) => (stopped, with_trace s tr)
      end
    end
  end.

(** [Service.exit] *)
Definition exit (s : state) : state :=
  if server_alive s
  then {| recv_queue := recv_queue s; server_alive := server_alive s;
          trace := trace s ++ [ServerStop] |}
  else s.

(** [Service.__call__] *)
Definition __call__ (w : world) (self : t) (s : state) : status * state :=
  match _wait_dependencies self s with
  | (Returned, _, s) =>
    let launched :=
      if bool_decide (SERVICE_TYPE (cfg self) = "Interface")
      then _run_interface w self s
      else if bool_decide (SERVICE_TYPE (cfg self) = "Dashboard")
      then _run_dashboard w self s
      else (Raised ValueError, s) in
    match launched with
    | (Returned, s) => (Returned, exit s)
    | stopped => stopped
    end
  | (stopped, _, s) => (stopped, s)
  end.

(** How a run of the loop thread stands after some passes. *)
Inductive thread_run : Type :=
| Finished (passes : nat) (s : Interface.state)
| Died (e : exn) (passes : nat) (s : Interface.state)
| Looping (passes : nat) (s : Interface.state).

(** [InterfaceThread.run].  [is_set k] is what [self.stop_event.is_set()]
    answers at the loop test that follows [k] passes. *)
Fixpoint InterfaceThread_run (env : collaborators) (is_set : nat → bool)
    (fuel passes : nat) (s : Interface.state) : thread_run :=
  match fuel with
  | O => Looping passes s
  | S fuel' =>
    if is_set passes
    then
      match Interface.exit s with
      | (Ok _, s') => Finished passes s'
      | (Raise e, s') => Died e passes s'
      end
    else
      match Interface.__call__ env None None None s with
      | (Ok _, s') => InterfaceThread_run env is_set fuel' (S passes) s'
      | (Raise e, s') => Died e passes s'
      end
  end.

End Service.

(** * Vocabulary of the properties *)

(** ** The message channel *)

(** A connection failure: the attempt ends in an [OSError], raised by
    [connect] or by [sendall]. *)
Definition connection_failure (a : socket.attempt) : Prop :=
  a = socket.ConnectRaises OSError ∨ a = socket.SendallRaises OSError.

(** The calls of an attempt that failed. *)
Definition failure_events (data : bytes) (a : socket.attempt)
    : list socket.event :=
  match a with
  | socket.ConnectRaises _ => [socket.EConnect false]
  | socket.SendallRaises _ =>
    [socket.EConnect true; socket.ESendall data false]
  | socket.Sent => []
  end.

(** [n] failed attempts from attempt [k] on, each followed by its sleep of
    one second. *)
Fixpoint retries (data : bytes) (net : socket.network) (k n : nat)
    : list socket.event :=
  match n with
  | O => []
  | S n' =>
    failure_events data (net k) ++ [socket.ESleep 1]
    ++ retries data net (S k) n'
  end.

(** ** The dependency barrier *)

(** The messages [finished_init] contain every declared dependency. *)
Definition covers (finished_init dependencies : list str) : Prop :=
  (list_to_set dependencies : gset string) ⊆ list_to_set finished_init.

(** The payloads [pulled] decode, one by one, to [messages]. *)
Definition decoded (pulled : list bytes) (messages : list str) : Prop :=
  Forall2 (λ data message, decode data = Ok message) pulled messages.

(** The same state with other messages in the inbound queue. *)
Definition with_queue (s : Service.state) (q : list bytes) : Service.state :=
  {| Service.recv_queue := q;
     Service.server_alive := Service.server_alive s;
     Service.trace := Service.trace s |}.

(** The wait operation returns. *)
Definition wait_returns (self : Service.t) (s : Service.state) : Prop :=
  ∃ finished_init s',
    Service._wait_dependencies self s = (Service.Returned, finished_init, s').

(** ** Lineage *)

(** The batch id [b] is found in the tags of a row of the working data:
    some time series has a [batch_id] tag column with [b] among its cells. *)
Definition batch_id_found (dynamic_data : DynamicData) (b : str) : Prop :=
  ∃ name series column,
    time_series_data dynamic_data !! name = Some series
    ∧ tags series !! "batch_id" = Some column
    ∧ b ∈ column.

(** ** The streaming clock *)

(** The clock's cursor. *)
Definition cursor (s : Interface.state) : option datetime :=
  Interface.last_datetime (Interface.self s).

Definition clock_params (s : Interface.state)
    : Interface.simulate_stream_params :=
  Interface.SIMULATE_STREAM_PARAMS (Interface.cfg (Interface.self s)).

(** The condition under which a call resets the cursor: it is unset, or
    [loop] is on and the cursor has reached or passed the last time. *)
Definition clock_resets (s : Interface.state) : Prop :=
  cursor s = None
  ∨ (Interface.LOOP (clock_params s) = true
     ∧ ∃ c, cursor s = Some c
            ∧ (Interface.LAST_DATETIME (clock_params s) ≤ c)%Z).

(** The state a call leaves when it returns: the cursor moved, one sleep. *)
Definition after_call (s : Interface.state) (c : datetime)
    : Interface.state :=
  {| Interface.self :=
       Interface.set_last_datetime (Interface.self s) (Some c);
     Interface.trace :=
       Interface.trace s
       ++ [Interface.Sleep (Interface.SLEEP_TIME (clock_params s))];
     Interface.ticks := Interface.ticks s |}.

(** The state after [n] calls of the clock in a row. *)
Fixpoint after_calls (n : nat) (s : Interface.state) : Interface.state :=
  match n with
  | O => s
  | S n' => (Interface._simulate_streaming (after_calls n' s)).2
  end.

(** ** The execution loop *)

(** The import requests among the events of an iteration, in order. *)
Definition imports (tr : list Interface.event)
    : list Interface.import_request :=
  omap (λ ev, match ev with Interface.Import r => Some r | _ => None end) tr.

(** The names kept at setup for the imports of [task]. *)
Definition required_names (self : Interface.t) (task : str) : gset string :=
  list_to_set (default [] (Interface.import_data_names self !! task)).

(** The configured models of category [task]. *)
Definition models_of (cfg : Interface.cfg_t) (task : str)
    : list Interface.Model :=
  filter (λ m, Interface.TASK m = task) (Interface.SUBPACKAGES cfg).

(** Two objects that differ at most in the clock's cursor. *)
Definition same_setup (a b : Interface.t) : Prop :=
  Interface.cfg a = Interface.cfg b
  ∧ Interface.streaming a = Interface.streaming b
  ∧ Interface.models a = Interface.models b
  ∧ Interface.import_data_names a = Interface.import_data_names b
  ∧ Interface.export_data_names a = Interface.export_data_names b.

(** The data systems of the import requests among the events [tr]. *)
Definition import_systems (tr : list Interface.event) : list str :=
  Interface.time_series_data_system <$> imports tr.

(** ** Shutdown of the interface service *)

(** The broadcast of [message]: one [send] per peer. *)
Definition broadcast (self : Service.t) (message : str) : list Service.event :=
  (λ client, Service.Send client.1 (encode message))
    <$> Service.socket_clients self.

(** The calls that [Interface(cfg)] makes outside this file return. *)
Definition interface_builds (w : Service.world) : Prop :=
  Service.interface_loaded w = Ok () ∧ Service.interface_started w = Ok ().

(** Every [send] of the broadcast of [message] that starts after the calls
    [tr] returns. *)
Definition broadcast_returns (w : Service.world) (self : Service.t)
    (message : str) (tr : list Service.event) : Prop :=
  ∀ k, k < length (Service.socket_clients self) →
    Service.sends w (tr ++ take (S k) (broadcast self message))
    = Service.SendReturns.

(** The calls that bring the interface workload up. *)
Definition launch_events (self : Service.t) : list Service.event :=
  [Service.InterfaceInit] ++ broadcast self (Service.service_name self)
  ++ [Service.ThreadStart].

(** The shutdown sequence with a join of the loop thread and a broadcast
    of [exit] before the receiver is stopped. *)
Definition exit_sequence_with_join_and_broadcast (self : Service.t)
    : list Service.event :=
  [Service.ThreadStop; Service.ThreadJoin] ++ broadcast self "exit"
  ++ [Service.ServerStop].

(** A payload that decodes to a message other than [exit]. *)
Definition other_message (data : bytes) : Prop :=
  ∃ message, decode data = Ok message ∧ message ≠ "exit".

(** ** Sample configurations *)

Module sample.

(** A tag frame of one row. *)
Definition tag_row (tag : Tag) : DataFrame :=
  {[ "batch_id" := [batch_id tag];
     "service_name" := [service_name tag] ]}.

(** A time series whose rows all carry the batch id [b]. *)
Definition series_tagged (b : str) : TimeSeriesData :=
  {| fields := ∅; tags := {[ "batch_id" := [b; b] ]} |}.

(** A time series without tags. *)
Definition series_untagged : TimeSeriesData := {| fields := ∅; tags := ∅ |}.

(** Collaborators of the simplest kind: the store returns one untagged
    series per name asked for and no metadata and takes every export, the
    merge is [dict.update] on both tables, frames are left as they are. *)
Definition env : collaborators :=
  {| datetime_str := λ _, "now";
     wall_clock := λ n, Z.of_nat n;
     import_dynamic_data := λ names _ _ _ _,
       {| time_series_data :=
            gset_to_gmap series_untagged (list_to_set names);
          time_series_batch_metadata := ∅ |};
     update := λ d o,
       {| time_series_data := time_series_data o ∪ time_series_data d;
          time_series_batch_metadata :=
            time_series_batch_metadata o ∪ time_series_batch_metadata d |};
     arrange_frame := λ _ df, df;
     tag_frame := λ tag _,
       Ok match tag with inl tag => tag_row tag | inr frame => frame end;
     export_dynamic_data := λ _ _ _ _, Ok () |}.

(** 2020-04-01 12:00:00 *)
Definition T0 : datetime := 63721339200000000.

Definition clock : Interface.simulate_stream_params :=
  {| Interface.SLEEP_TIME := 1;
     Interface.LOOP := false;
     Interface.FIRST_DATETIME := T0;
     Interface.LAST_DATETIME := T0;
     Interface.INTERVAL := 60 |}.

(** Two measurement models, the second reading what the first produces,
    and one analysis model. *)
Definition strain_gauge : Interface.Model :=
  {| Interface.TASK := "measurement";
     Interface.MODEL_NAME := "strain_gauge";
     Interface.input_data_names := ["raw"];
     Interface.output_data_names := ["strain"];
     Interface.model_call := λ _, Ok [("strain", Some ∅)] |}.

Definition rosette : Interface.Model :=
  {| Interface.TASK := "measurement";
     Interface.MODEL_NAME := "rosette";
     Interface.input_data_names := ["strain"; "angle"];
     Interface.output_data_names := ["measured"];
     Interface.model_call := λ _, Ok [("measured", Some ∅)] |}.

Definition solver : Interface.Model :=
  {| Interface.TASK := "analysis";
     Interface.MODEL_NAME := "solver";
     Interface.input_data_names := ["measured"];
     Interface.output_data_names := ["analyzed"];
     Interface.model_call := λ _, Ok [("analyzed", Some ∅)] |}.

Definition interface_cfg (method : str) : Interface.cfg_t :=
  {| Interface.TABLE_DATA_SYSTEM := "file";
     Interface.TIME_SERIES_DATA_SYSTEM := "file";
     Interface.DATA_PROCESSING_METHOD := method;
     Interface.STREAM_EXPORT_QUEUE_MAXSIZE := 100;
     Interface.SIMULATE_STREAM_PARAMS := clock;
     Interface.SUBPACKAGES := [strain_gauge; rosette; solver];
     Interface.EXPORT_DATA_NAMES := Some ["analyzed"] |}.

(** The interface object that setup builds in the given mode (the bare
    object when setup fails). *)
Definition interface (method : str) : Interface.t :=
  match Interface.__init__ "svc_b" (interface_cfg method) with
  | Ok self => self
  | Raise _ => Interface._init_models "svc_b" (interface_cfg method)
  end.

(** That object before its first call. *)
Definition start (method : str) : Interface.state :=
  {| Interface.self := interface method;
     Interface.trace := [];
     Interface.ticks := 0 |}.

Definition service_cfg (dependencies : list str) : Service.cfg_t :=
  {| Service.SERVICE_TYPE := "Interface";
     Service.DEPENDENCIES := dependencies;
     Service.SERVICE := interface_cfg "simulate_stream" |}.

(** The service [svc_b] with one peer, [svc_a] (without peers should its
    construction fail). *)
Definition service (dependencies : list str) : Service.t :=
  match
    Service.__init__ "svc_b" (service_cfg dependencies)
      [("svc_a", 50001%Z); ("svc_b", 50002%Z)]
  with
  | Ok self => self
  | Raise _ =>
    {| Service.service_name := "svc_b";
       Service.cfg := service_cfg dependencies;
       Service.socket_clients := [] |}
  end.

(** The main thread at start, with [q] the messages that will arrive. *)
Definition inbox (q : list bytes) : Service.state :=
  {| Service.recv_queue := q;
     Service.server_alive := true;
     Service.trace := [] |}.

(** A world in which every peer listens, the interface is built, and the
    dashboard is built, shown and closed. *)
Definition listening : Service.world :=
  {| Service.sends := λ _, Service.SendReturns;
     Service.interface_loaded := Ok ();
     Service.interface_started := Ok ();
     Service.dashboard_built := Ok ();
     Service.dashboard_called := Service.Returned |}.

(** A network on which the first two attempts are refused. *)
Definition refused_twice : socket.network :=
  λ k,
    if bool_decide (k < 2) then socket.ConnectRaises OSError else socket.Sent.

(** Working data with one series from batch [b1]. *)
Definition upstream : DynamicData :=
  {| time_series_data := {[ "res" := series_tagged "b1" ]};
     time_series_batch_metadata := ∅ |}.

(** The same after batch [b2] added a series of its own. *)
Definition downstream : DynamicData :=
  {| time_series_data :=
       {[ "res" := series_tagged "b1"; "res2" := series_tagged "b2" ]};
     time_series_batch_metadata := ∅ |}.

Definition tag_of (b : str) : Tag :=
  {| batch_id := b; service_name := "svc_b"; batch_datetime := T0 |}.

End sample.

(** * The rest of the cited files *)

(** ** isas/service/socket.py: the receiver thread *)

Module SocketServer.

(** What one call of [conn.recv(self.bufsize)] does.  A packet of no bytes
    is the peer having closed.  [RecvTimeout] is [socket.timeout];
    [RecvRaises] is any other exception. *)
Inductive recv_result : Type :=
| Packet (packet : bytes)
| RecvTimeout
| RecvRaises (e : exn).

(** What one call of [socket.accept()] does: a connection, given by what
    its successive [recv] calls do (after the last of them the peer has
    closed), [socket.timeout], or any other exception. *)
Inductive accept_result : Type :=
| Accepted (conn : list recv_result)
| AcceptTimeout
| AcceptRaises (e : exn).

(** How a call of [_recv] ends. *)
Inductive recv_status : Type :=
| Done
| TimedOut
| Raised (e : exn).

(** [b''.join(data)] *)
Definition join (data : list bytes) : bytes := foldr String.append "" data.

(** The [while True] loop of [_recv], with [data] the packets so far. *)
Fixpoint read_packets (conn : list recv_result) (data : list bytes)
    : recv_status * list bytes :=
  match conn with
  | [] => (Done, data)
  | Packet packet :: conn' =>
    if bool_decide (packet = "")
    then (Done, data)
    else read_packets conn' (data ++ [packet])
  | RecvTimeout :: _ => (TimedOut, data)
  | RecvRaises e :: _ => (Raised e, data)
  end.

(** [SocketServer._recv(socket)], on a queue given by its content. *)
Definition _recv (accepted : accept_result) (queue : list bytes)
    : recv_status * list bytes :=
  match accepted with
  | AcceptTimeout => (TimedOut, queue)
  | AcceptRaises e => (Raised e, queue)
  | Accepted conn =>
    match read_packets conn [] with
    | (Done, data) => (Done, queue ++ [join data])
    | (stopped, _) => (stopped, queue)
    end
  end.

(** How the receiver thread stands: its loop ended, an exception ended the
    thread, or it is still serving when the fuel ran out. *)
Inductive thread_run : Type :=
| Stopped (queue : list bytes)
| Crashed (e : exn) (queue : list bytes)
| Serving (queue : list bytes).

(** The [while not self.stop_event.is_set()] loop of [run].  [is_set k] is
    the answer of the flag at the test that follows [k] passes, and
    [accepts k] what [accept] does in pass [k]. *)
Fixpoint serve (fuel : nat) (is_set : nat → bool)
    (accepts : nat → accept_result) (k : nat) (queue : list bytes)
    : thread_run :=
  match fuel with
  | O => Serving queue
  | S fuel' =>
    if is_set k then Stopped queue
    else
      match _recv (accepts k) queue with
      | (Raised e, queue) => Crashed e queue
      | (_, queue) => serve fuel' is_set accepts (S k) queue
      end
  end.

(** [SocketServer.run].  [bound] is what [bind] and [listen] do before the
    loop. *)
Definition run (fuel : nat) (bound : result unit) (is_set : nat → bool)
    (accepts : nat → accept_result) (queue : list bytes) : thread_run :=
  match bound with
  | Raise e => Crashed e queue
  | Ok _ => serve fuel is_set accepts 0 queue
  end.

End SocketServer.

(** ** Vocabulary of the further properties *)

(** The message a pass of the receiver puts in the queue, if any. *)
Definition delivered (a : SocketServer.accept_result) : option bytes :=
  match SocketServer._recv a [] with
  | (SocketServer.Done, [message]) => Some message
  | _ => None
  end.

(** A pass of the receiver that ends in an exception other than a
    timeout. *)
Definition crashes (a : SocketServer.accept_result) (e : exn) : Prop :=
  (SocketServer._recv a []).1 = SocketServer.Raised e.

(** The outcomes of the first [n] passes. *)
Definition first_passes {A : Type} (f : nat → A) (n : nat) : list A :=
  f <$> seq 0 n.

(** [n] passes of the loop thread in a row, up to the first that raises. *)
Fixpoint passes (env : collaborators) (n : nat) (s : Interface.state)
    : result unit * Interface.state :=
  match n with
  | O => (Ok (), s)
  | S n' =>
    match Interface.__call__ env None None None s with
    | (Ok _, s') => passes env n' s'
    | (Raise e, s') => (Raise e, s')
    end
  end.

(** A call the main thread makes that is neither a join of the loop thread
    nor a stop of the receiver. *)
Definition plain_event (ev : Service.event) : Prop :=
  ev ≠ Service.ThreadJoin ∧ ev ≠ Service.ServerStop.

(** An event of an iteration that writes nothing: a sleep of the clock or
    a request to the store. *)
Definition reads_only (ev : Interface.event) : Prop :=
  match ev with
  | Interface.Sleep _ | Interface.Import _ => True
  | _ => False
  end.

(** The character [c] occurs in [s]. *)
Fixpoint occurs (c : ascii) (s : string) : Prop :=
  match s with
  | EmptyString => False
  | String c' s' => c = c' ∨ occurs c s'
  end.

(** Working data with the given time series and no metadata. *)
Definition series_only (series : gmap string TimeSeriesData) : DynamicData :=
  {| time_series_data := series; time_series_batch_metadata := ∅ |}.

(** ** The port table between isas/service/project_builder.py and
    isas/service/service.py

    The builder writes the table of ports into the [PORT] variable of each
    service; [Service.__init__] reads it back. *)

Module port_table.

(** The two built-ins the conversion rests on: [str(v)] and [int(s)] for
    an integer, the latter with [None] where Python raises [ValueError]. *)
Record builtins : Type := {
  str_of_int : Z → str;
  int_of_str : str → option Z;
}.

(** What reading the table can raise. *)
Inductive error : Type :=
| IndexError
| IntValueError.

(** [s.split(sep)] for a separator of one character. *)
Fixpoint split (sep : ascii) (s : str) : list str :=
  match s with
  | EmptyString => [""]
  | String c s' =>
    if decide (c = sep) then "" :: split sep s'
    else
      match split sep s' with
      | [] => [String c ""]
      | head :: tail => String c head :: tail
      end
  end.

(** [sep.join(items)] for a separator of one character. *)
Fixpoint join (sep : ascii) (items : list str) : str :=
  match items with
  | [] => ""
  | [item] => item
  | item :: items' => item +:+ String sep (join sep items')
  end.

(** [";".join([f"{k}:{v}" for k, v in ports.items()])], the value given to
    [PORT] in [ProjectBuilder._construct_service_compose]. *)
Definition format_ports (py : builtins) (ports : list (str * Z)) : str :=
  join ";" ((λ p, p.1 +:+ String ":" (str_of_int py p.2)) <$> ports).

(** [d[key] = value] on a [dict] in insertion order. *)
Fixpoint dict_set (d : list (str * Z)) (key : str) (value : Z)
    : list (str * Z) :=
  match d with
  | [] => [(key, value)]
  | (k, v) :: d' =>
    if decide (k = key) then (k, value) :: d'
    else (k, v) :: dict_set d' key value
  end.

(** One item of the comprehension of [Service.__init__]:
    [s.split(':')[0]: int(s.split(':')[1])]. *)
Definition parse_entry (py : builtins) (s : str) : error + (str * Z) :=
  match split ":" s with
  | key :: number :: _ =>
    match int_of_str py number with
    | Some port => inr (key, port)
    | None => inl IntValueError
    end
  | _ => inl IndexError
  end.

(** The comprehension over the items, with the [dict] built so far. *)
Fixpoint parse_entries (py : builtins) (items : list str)
    (ports : list (str * Z)) : error + list (str * Z) :=
  match items with
  | [] => inr ports
  | s :: items' =>
    match parse_entry py s with
    | inl e => inl e
    | inr (key, port) => parse_entries py items' (dict_set ports key port)
    end
  end.

(** [{... for s in os.environ['PORT'].split(';')}] *)
Definition parse_ports (py : builtins) (PORT : str) : error + list (str * Z) :=
  parse_entries py (split ";" PORT) [].

End port_table.

(** ** Further sample objects *)

Module scenario.

(** A stop flag that is set once [n] passes are done. *)
Definition set_after (n : nat) : nat → bool :=
  λ k, bool_decide (n ≤ k)%nat.

(** A listener that gets a message in two packets, then a timeout, then a
    message closed by an empty packet. *)
Definition arrivals : nat → SocketServer.accept_result :=
  λ k,
    match k with
    | 0 =>
      SocketServer.Accepted
        [SocketServer.Packet "sv"; SocketServer.Packet "c_a"]
    | 2 =>
      SocketServer.Accepted
        [SocketServer.Packet "exit"; SocketServer.Packet "";
         SocketServer.Packet "late"]
    | _ => SocketServer.AcceptTimeout
    end.

(** A listener whose second [accept] fails. *)
Definition broken_listener : nat → SocketServer.accept_result :=
  λ k,
    match k with
    | 0 => SocketServer.Accepted [SocketServer.Packet "svc_a"]
    | _ => SocketServer.AcceptRaises OSError
    end.

(** A network that refuses the first attempt and fails the second with an
    exception that is no [socket.error]. *)
Definition broken_network : socket.network :=
  λ k,
    match k with
    | 0 => socket.ConnectRaises OSError
    | _ => socket.SendallRaises TypeError
    end.

(** An analysis model whose call raises. *)
Definition faulty : Interface.Model :=
  {| Interface.TASK := "analysis";
     Interface.MODEL_NAME := "faulty";
     Interface.input_data_names := ["measured"];
     Interface.output_data_names := ["analyzed"];
     Interface.model_call := λ _, Raise ModelError |}.

(** A clock of three windows of one minute that starts over. *)
Definition looping_clock : Interface.simulate_stream_params :=
  {| Interface.SLEEP_TIME := 1;
     Interface.LOOP := true;
     Interface.FIRST_DATETIME := sample.T0;
     Interface.LAST_DATETIME := sample.T0 + 150000000;
     Interface.INTERVAL := 60 |}.

(** A clock that starts ten microseconds before the last [datetime]. *)
Definition late_clock : Interface.simulate_stream_params :=
  {| Interface.SLEEP_TIME := 1;
     Interface.LOOP := false;
     Interface.FIRST_DATETIME := datetime_max - 10;
     Interface.LAST_DATETIME := datetime_max;
     Interface.INTERVAL := 60 |}.

(** A clock with a negative sleep time. *)
Definition rushed_clock : Interface.simulate_stream_params :=
  {| Interface.SLEEP_TIME := -1;
     Interface.LOOP := false;
     Interface.FIRST_DATETIME := sample.T0;
     Interface.LAST_DATETIME := sample.T0;
     Interface.INTERVAL := 60 |}.

Definition interface_cfg (system method : str)
    (clock : Interface.simulate_stream_params)
    (subpackages : list Interface.Model) : Interface.cfg_t :=
  {| Interface.TABLE_DATA_SYSTEM := "file";
     Interface.TIME_SERIES_DATA_SYSTEM := system;
     Interface.DATA_PROCESSING_METHOD := method;
     Interface.STREAM_EXPORT_QUEUE_MAXSIZE := 100;
     Interface.SIMULATE_STREAM_PARAMS := clock;
     Interface.SUBPACKAGES := subpackages;
     Interface.EXPORT_DATA_NAMES := Some ["analyzed"; "raw"] |}.

(** The three sample models streaming to influx. *)
Definition streaming_cfg : Interface.cfg_t :=
  interface_cfg "influx" "stream" sample.clock
    [sample.strain_gauge; sample.rosette; sample.solver].

(** The sample measurement models followed by the model that raises. *)
Definition faulty_cfg : Interface.cfg_t :=
  interface_cfg "influx" "stream" sample.clock
    [sample.strain_gauge; sample.rosette; faulty].

(** The sample models under a simulated clock. *)
Definition clock_cfg (clock : Interface.simulate_stream_params)
    : Interface.cfg_t :=
  interface_cfg "file" "simulate_stream" clock
    [sample.solver; sample.strain_gauge; sample.rosette].

(** The interface object that setup builds from [cfg] before its first
    call (the bare object when setup fails). *)
Definition start (cfg : Interface.cfg_t) : Interface.state :=
  {| Interface.self :=
       match Interface.__init__ "svc_b" cfg with
       | Ok self => self
       | Raise _ => Interface._init_models "svc_b" cfg
       end;
     Interface.trace := [];
     Interface.ticks := 0 |}.

(** The table of ports of three services. *)
Definition ports : list (str * Z) :=
  [("svc_a", 50001%Z); ("svc_b", 50002%Z); ("board", 50003%Z)].

Definition dashboard_cfg : Service.cfg_t :=
  {| Service.SERVICE_TYPE := "Dashboard";
     Service.DEPENDENCIES := ["svc_a"];
     Service.SERVICE := sample.interface_cfg "batch" |}.

(** The service [board] among [ports] (without peers should its
    construction fail). *)
Definition dashboard : Service.t :=
  match Service.__init__ "board" dashboard_cfg ports with
  | Ok self => self
  | Raise _ =>
    {| Service.service_name := "board";
       Service.cfg := dashboard_cfg;
       Service.socket_clients := [] |}
  end.

(** A world in which no peer ever listens. *)
Definition peer_down : Service.world :=
  {| Service.sends := λ _, Service.SendRetries;
     Service.interface_loaded := Ok ();
     Service.interface_started := Ok ();
     Service.dashboard_built := Ok ();
     Service.dashboard_called := Service.Returned |}.

(** [str] and [int] as far as the ports of the table go. *)
Definition py : port_table.builtins :=
  {| port_table.str_of_int := λ v,
       if bool_decide (v = 50001%Z) then "50001"
       else if bool_decide (v = 50002%Z) then "50002"
       else "50003";
     port_table.int_of_str := λ s,
       if bool_decide (s = "50001") then Some 50001%Z
       else if bool_decide (s = "50002") then Some 50002%Z
       else if bool_decide (s = "50003") then Some 50003%Z
       else None |}.

(** Collaborators as in [sample.env], with a date written in two ways. *)
Definition env : collaborators :=
  {| datetime_str := λ d,
       if bool_decide (d = sample.T0) then "20200401120000" else "later";
     wall_clock := wall_clock sample.env;
     import_dynamic_data := import_dynamic_data sample.env;
     update := update sample.env;
     arrange_frame := arrange_frame sample.env;
     tag_frame := tag_frame sample.env;
     export_dynamic_data := export_dynamic_data sample.env |}.

(** Collaborators as in [sample.env], with a store that refuses every
    export. *)
Definition full_store : collaborators :=
  {| datetime_str := datetime_str sample.env;
     wall_clock := wall_clock sample.env;
     import_dynamic_data := import_dynamic_data sample.env;
     update := update sample.env;
     arrange_frame := arrange_frame sample.env;
     tag_frame := tag_frame sample.env;
     export_dynamic_data := λ _ _ _ _, Raise OSError |}.

(** What two models returned: a frame, a name without frame, a frame. *)
Definition returned : list (str * option DataFrame) :=
  [("strain", Some {[ "value" := ["1"] ]});
   ("skipped", None);
   ("measured", Some {[ "value" := ["2"] ]})].

End scenario.

(** * Properties *)

(** Unfolding of the state-and-exception monad of [Interface]. *)
Ltac run_M :=
  unfold mbind, Interface.M_bind, mret, Interface.M_ret, Interface.get_self,
    Interface.put_self, Interface.emit, Interface.lift, Interface.raise,
    Interface.now;
  simpl.

(** ** The message channel *)

Section send.
Import socket.

Lemma caught_iff e : caught e = true ↔ e = OSError.
Proof. unfold caught. by rewrite bool_decide_eq_true. Qed.

Lemma send_loop_not_OSError fuel net data k tr tr' :
  send_loop fuel net data k tr ≠ Raised OSError tr'.
Proof.
  revert k tr. induction fuel as [|fuel IH]; intros k tr; simpl; [done|].
  destruct (net k) as [e|e|]; [| |done];
    (destruct (caught e) eqn:Hc; [apply IH|]);
    intros [= -> _]; by rewrite (proj2 (caught_iff OSError)) in Hc.
Qed.

Lemma send_loop_failing fuel net data k tr :
  (∀ j, j < fuel → connection_failure (net (k + j))) →
  send_loop fuel net data k tr = Retrying (tr ++ retries data net k fuel).
Proof.
  revert k tr. induction fuel as [|fuel IH]; intros k tr Hfail; simpl.
  { by rewrite app_nil_r. }
  assert (Hk : connection_failure (net k)).
  { rewrite <- (Nat.add_0_r k). apply Hfail. lia. }
  assert (Hrest : ∀ j, j < fuel → connection_failure (net (S k + j))).
  { intros j Hj. replace (S k + j) with (k + S j) by lia. apply Hfail. lia. }
  destruct Hk as [-> | ->]; simpl; rewrite (IH _ _ Hrest);
    by rewrite <- !app_assoc.
Qed.

Lemma send_loop_succeeds fuel net data k tr n :
  (∀ j, j < n → connection_failure (net (k + j))) →
  net (k + n) = Sent →
  n < fuel →
  send_loop fuel net data k tr =
    Returned (tr ++ retries data net k n ++ [EConnect true; ESendall data true]).
Proof.
  revert k tr n. induction fuel as [|fuel IH]; intros k tr n Hfail Hsent Hlt;
    [lia|].
  destruct n as [|n]; simpl.
  { rewrite Nat.add_0_r in Hsent. by rewrite Hsent. }
  assert (Hk : connection_failure (net k)).
  { rewrite <- (Nat.add_0_r k). apply Hfail. lia. }
  assert (Hrest : ∀ j, j < n → connection_failure (net (S k + j))).
  { intros j Hj. replace (S k + j) with (k + S j) by lia. apply Hfail. lia. }
  assert (Hsent' : net (S k + n) = Sent).
  { by replace (S k + n) with (k + S n) by lia. }
  destruct Hk as [-> | ->]; simpl;
    rewrite (IH _ _ n Hrest Hsent') by lia; by rewrite <- !app_assoc.
Qed.

Lemma send_loop_returned fuel net data k tr tr' :
  send_loop fuel net data k tr = Returned tr' →
  ∃ n, n < fuel ∧ net (k + n) = Sent
       ∧ (∀ j, j < n → connection_failure (net (k + j)))
       ∧ tr' = tr ++ retries data net k n
                  ++ [EConnect true; ESendall data true].
Proof.
  revert k tr. induction fuel as [|fuel IH]; intros k tr; simpl; [done|].
  destruct (net k) as [e|e|] eqn:Hk.
  - destruct (caught e) eqn:Hc; [|done]. apply caught_iff in Hc as ->.
    intros (n & Hn & Hsent & Hfail & ->)%IH. exists (S n).
    split; [lia|]. split; [by replace (k + S n) with (S k + n) by lia|].
    split.
    + intros [|j] Hj; [rewrite Nat.add_0_r, Hk; by left|].
      replace (k + S j) with (S k + j) by lia. apply Hfail. lia.
    + simpl. rewrite Hk. simpl. by rewrite <- !app_assoc.
  - destruct (caught e) eqn:Hc; [|done]. apply caught_iff in Hc as ->.
    intros (n & Hn & Hsent & Hfail & ->)%IH. exists (S n).
    split; [lia|]. split; [by replace (k + S n) with (S k + n) by lia|].
    split.
    + intros [|j] Hj; [rewrite Nat.add_0_r, Hk; by right|].
      replace (k + S j) with (S k + j) by lia. apply Hfail. lia.
    + simpl. rewrite Hk. simpl. by rewrite <- !app_assoc.
  - intros [= <-]. exists 0. rewrite Nat.add_0_r. split; [lia|].
    split; [done|]. split; [intros j Hj; lia|]. done.
Qed.

(** C8.  Once its socket exists, [send] never lets a connection error
    reach its caller; it returns only after an attempt in which both
    [connect] and [sendall] succeeded, every earlier attempt having failed
    and been followed by a sleep of exactly one second; against a network
    on which every attempt fails it is still retrying after any number of
    attempts; and it does return once an attempt succeeds. *)
Theorem send_retries_and_never_raises (data : bytes) (net : network) :
  (∀ fuel tr, send fuel (Ok ()) net data ≠ Raised OSError tr)
  ∧ (∀ fuel tr, send fuel (Ok ()) net data = Returned tr →
       ∃ n, n < fuel ∧ net n = Sent
            ∧ (∀ j, j < n → connection_failure (net j))
            ∧ tr = retries data net 0 n
                     ++ [EConnect true; ESendall data true])
  ∧ ((∀ j, connection_failure (net j)) →
       ∀ fuel, send fuel (Ok ()) net data = Retrying (retries data net 0 fuel))
  ∧ (∀ n, (∀ j, j < n → connection_failure (net j)) → net n = Sent →
       ∀ fuel, n < fuel →
         send fuel (Ok ()) net data =
           Returned (retries data net 0 n
                       ++ [EConnect true; ESendall data true])).
Proof.
  unfold send. repeat split.
  - intros fuel tr. apply send_loop_not_OSError.
  - intros fuel tr H. apply send_loop_returned in H. exact H.
  - intros Hfail fuel. by rewrite send_loop_failing.
  - intros n Hfail Hsent fuel Hlt. by rewrite (send_loop_succeeds _ _ _ _ _ n).
Qed.

End send.

(** ** The dependency barrier *)

Section barrier.
Import Service.

Lemma decode_Ok data message : decode data = Ok message → message = data.
Proof. unfold decode. destruct (utf8_valid data); congruence. Qed.

Lemma decode_valid data : utf8_valid data = true → decode data = Ok data.
Proof. unfold decode. by intros ->. Qed.

Lemma decoded_valid q : Forall (λ d, utf8_valid d = true) q → decoded q q.
Proof.
  induction 1 as [|d q Hd _ IH]; constructor; [by apply decode_valid | done].
Qed.

Lemma decoded_eq pulled messages : decoded pulled messages → messages = pulled.
Proof.
  induction 1 as [|d m q ms Hd _ IH]; [done|].
  by rewrite (decode_Ok _ _ Hd), IH.
Qed.

Lemma wait_loop_returned deps q fi0 alive tr fi s' :
  wait_loop deps fi0 q alive tr = (Returned, fi, s') ↔
  ∃ pulled messages,
    q = pulled ++ recv_queue s' ∧ decoded pulled messages
    ∧ messages ≠ [] ∧ fi = fi0 ++ messages ∧ covers fi deps
    ∧ (∀ k, 0 < k < length messages → ¬ covers (fi0 ++ take k messages) deps)
    ∧ trace s' = tr ++ (Get <$> pulled) ∧ server_alive s' = alive.
Proof.
  revert fi0 tr. induction q as [|data q IH]; intros fi0 tr; simpl.
  { split; [done|]. intros (pulled & messages & Hq & Hdec & Hne & _).
    destruct pulled; [|done]. by inversion Hdec; subst. }
  destruct (decode data) as [m|e] eqn:Hdata.
  2:{ split; [done|]. intros (pulled & messages & Hq & Hdec & Hne & _).
      destruct Hdec as [|d m' p ms Hd Hrest]; [done|].
      simplify_eq/=. congruence. }
  case_bool_decide as Hcov.
  - split.
    + intros [= <- <-]. exists [data], [m]. simpl.
      split; [done|]. split; [by repeat constructor|]. split; [done|].
      split; [done|]. split; [done|]. split; [intros k Hk; lia|]. done.
    + intros (pulled & messages & Hq & Hdec & Hne & -> & Hc & Hmin & Htr & Hal).
      destruct Hdec as [|d m' p ms Hd Hrest]; [done|].
      simplify_eq/=. assert (m' = m) as -> by congruence.
      destruct ms as [|m2 ms].
      * inversion Hrest; subst. simpl in *. destruct s'; simpl in *.
        by subst.
      * exfalso. apply (Hmin 1); [simpl; lia|]. done.
  - rewrite IH. split.
    + intros (pulled & messages & -> & Hdec & Hne & -> & Hc & Hmin & Htr & Hal).
      exists (data :: pulled), (m :: messages).
      split; [done|]. split; [by constructor|]. split; [done|].
      split; [by rewrite <- app_assoc|].
      split; [done|].
      split; [|split; [|done]].
      * intros [|[|k]] Hk; [lia|done|]. simpl in *.
        rewrite (cons_middle m fi0), (assoc_L (++) fi0 [m]). apply Hmin.
        lia.
      * rewrite Htr. simpl. by rewrite <- app_assoc.
    + intros (pulled & messages & Hq & Hdec & Hne & -> & Hc & Hmin & Htr & Hal).
      destruct Hdec as [|d m' p ms Hd Hrest]; [done|].
      simplify_eq/=. assert (m' = m) as -> by congruence.
      assert (ms ≠ []) as Hms.
      { intros ->. by apply Hcov. }
      exists p, ms.
      split; [done|]. split; [done|]. split; [done|].
      split; [by rewrite <- app_assoc|].
      split; [done|].
      split; [|split; [|done]].
      * intros k Hk. rewrite <- app_assoc. apply (Hmin (S k)). simpl. lia.
      * rewrite Htr. by rewrite <- app_assoc.
Qed.

Lemma wait_loop_covered deps q fi0 alive tr :
  Forall (λ d, utf8_valid d = true) q →
  covers (fi0 ++ q) deps → ¬ covers fi0 deps →
  ∃ fi s', wait_loop deps fi0 q alive tr = (Returned, fi, s').
Proof.
  intros Hvalid. revert fi0 tr.
  induction Hvalid as [|data q Hd _ IH]; intros fi0 tr Hcov Hnot; simpl.
  { by rewrite app_nil_r in Hcov. }
  rewrite (decode_valid _ Hd). case_bool_decide as Hc; [by eauto|].
  apply IH; [|done]. by rewrite <- app_assoc.
Qed.

Lemma wait_returns_iff self s :
  Forall (λ d, utf8_valid d = true) (recv_queue s) →
  wait_returns self s ↔ covers (recv_queue s) (DEPENDENCIES (cfg self)).
Proof.
  intros Hvalid. unfold wait_returns, _wait_dependencies.
  case_bool_decide as Hlen.
  { apply nil_length_inv in Hlen. rewrite Hlen. split; [|by eauto].
    intros _. unfold covers. set_solver. }
  split.
  - intros (fi & s' & H). apply wait_loop_returned in H
      as (pulled & messages & Hq & Hdec & _ & Hfi & Hc & _).
    apply decoded_eq in Hdec. simpl in Hfi. subst.
    unfold covers in *. rewrite Hq. set_solver.
  - intros Hc. apply wait_loop_covered; [done|done|].
    unfold covers. destruct (DEPENDENCIES (cfg self)); [done|]. set_solver.
Qed.

(** C1.  With no declared dependency the wait returns at once and leaves
    the inbound queue as it was.  In general it returns, having pulled
    [pulled] and decoded it to [finished_init], exactly when that is the
    shortest prefix of the queue whose messages include every declared
    dependency.  Whether it returns does not depend on the order in which
    the messages arrive. *)
Theorem wait_dependencies_returns_iff_superset (self : t) (s : state) :
  (DEPENDENCIES (cfg self) = [] →
     _wait_dependencies self s = (Returned, [], s))
  ∧ (∀ finished_init s',
       _wait_dependencies self s = (Returned, finished_init, s') ↔
       ∃ pulled,
         recv_queue s = pulled ++ recv_queue s'
         ∧ decoded pulled finished_init
         ∧ covers finished_init (DEPENDENCIES (cfg self))
         ∧ (∀ k, k < length finished_init →
              ¬ covers (take k finished_init) (DEPENDENCIES (cfg self)))
         ∧ trace s' = trace s ++ (Get <$> pulled)
         ∧ server_alive s' = server_alive s)
  ∧ (∀ q, q ≡ₚ recv_queue s →
       Forall (λ d, utf8_valid d = true) (recv_queue s) →
       (wait_returns self s ↔ wait_returns self (with_queue s q))).
Proof.
  split; [|split].
  - intros Hd. unfold _wait_dependencies. by rewrite Hd.
  - intros fi s'. unfold _wait_dependencies. case_bool_decide as Hlen.
    + apply nil_length_inv in Hlen. rewrite Hlen. split.
      * intros [= <- <-]. exists []. simpl.
        split; [done|]. split; [constructor|].
        split; [unfold covers; set_solver|].
        split; [intros k Hk; simpl in Hk; lia|]. by rewrite app_nil_r.
      * intros (pulled & Hq & Hdec & Hc & Hmin & Htr & Hal).
        destruct fi as [|m fi].
        -- inversion Hdec; subst. simpl in *. rewrite app_nil_r in Htr.
           destruct s, s'; simpl in *. by subst.
        -- exfalso. apply (Hmin 0); [simpl; lia|]. unfold covers. set_solver.
    + assert (Hnot : ¬ covers [] (DEPENDENCIES (cfg self))).
      { unfold covers. destruct (DEPENDENCIES (cfg self)); [done|]. set_solver. }
      rewrite wait_loop_returned. split.
      * intros (pulled & messages & Hq & Hdec & Hne & -> & Hc & Hmin & Htr & Hal).
        exists pulled. simpl in *.
        split; [done|]. split; [done|]. split; [done|].
        split; [|done].
        intros [|k] Hk; [done|]. apply Hmin. lia.
      * intros (pulled & Hq & Hdec & Hc & Hmin & Htr & Hal).
        exists pulled, fi. simpl.
        split; [done|]. split; [done|].
        split; [by intros ->|].
        split; [done|]. split; [done|].
        split; [|done].
        intros k Hk. apply Hmin. lia.
  - intros q Hperm Hvalid.
    rewrite wait_returns_iff by done.
    rewrite wait_returns_iff by (simpl; by rewrite Hperm).
    unfold covers. simpl.
    by rewrite (list_to_set_perm_L (C:=gset string) _ _ Hperm).
Qed.

End barrier.

(** ** Lineage *)

Section lineage.
Import dynamic_data_utils.

Lemma elem_of_drop_duplicates x l : x ∈ drop_duplicates l ↔ x ∈ l.
Proof.
  induction l as [|y l IH]; simpl; [done|].
  rewrite !elem_of_cons, list_elem_of_filter, IH.
  destruct (decide (x = y)); tauto.
Qed.

Lemma NoDup_drop_duplicates l : NoDup (drop_duplicates l).
Proof.
  induction l as [|y l IH]; simpl; constructor.
  - rewrite list_elem_of_filter. by intros [? _].
  - by apply NoDup_filter.
Qed.

Lemma elem_of_extend_dependent b items acc :
  b ∈ foldl extend_dependent acc items ↔
  b ∈ acc ∨ ∃ item column,
    item ∈ items ∧ tags item.2 !! "batch_id" = Some column ∧ b ∈ column.
Proof.
  revert acc. induction items as [|item items IH]; intros acc; simpl.
  { split; [by left|]. intros [?|(? & ? & []%elem_of_nil & _)]. done. }
  rewrite IH. unfold extend_dependent.
  destruct (tags item.2 !! "batch_id") as [column|] eqn:Hcol.
  - rewrite elem_of_app, elem_of_drop_duplicates. split.
    + intros [[?|?]|(item' & column' & ? & ? & ?)]; [by left | |].
      * right. exists item, column. by rewrite elem_of_cons; auto.
      * right. exists item', column'. by rewrite elem_of_cons; auto.
    + intros [?|(item' & column' & [->|?]%elem_of_cons & Hc & ?)]; [by auto| |].
      * left. right. congruence.
      * right. by exists item', column'.
  - split.
    + intros [?|(item' & column' & ? & ? & ?)]; [by left|].
      right. exists item', column'. by rewrite elem_of_cons; auto.
    + intros [?|(item' & column' & [->|?]%elem_of_cons & Hc & ?)]; [by auto| |].
      * congruence.
      * right. by exists item', column'.
Qed.

Lemma elem_of_get_dependencies dynamic_data tag b :
  b ∈ get_dependencies dynamic_data tag ↔
  b ≠ batch_id tag ∧ batch_id_found dynamic_data b.
Proof.
  unfold get_dependencies, batch_id_found.
  rewrite elem_of_difference, elem_of_list_to_set, elem_of_extend_dependent,
    not_elem_of_singleton.
  split.
  - intros [[[]%elem_of_nil|([name series] & column & Hin & Hc & Hb)] Hne].
    split; [done|]. exists name, series, column.
    by apply elem_of_map_to_list in Hin.
  - intros [Hne (name & series & column & Hl & Hc & Hb)]. split; [|done].
    right. exists (name, series), column. by rewrite elem_of_map_to_list.
Qed.

(** C2.  The dependency set holds exactly the batch ids found in the tags
    of the rows of the working data, the batch's own id excepted.  So it is
    empty when no row carries a batch id, and it is [{b1}] when [b1] is
    found and is the only id found beside the batch's own. *)
Theorem get_dependencies_is_foreign_batch_ids
    (dynamic_data : DynamicData) (tag : Tag) :
  (∀ b, b ∈ get_dependencies dynamic_data tag ↔
        batch_id_found dynamic_data b ∧ b ≠ batch_id tag)
  ∧ ((∀ b, ¬ batch_id_found dynamic_data b) →
       get_dependencies dynamic_data tag = ∅)
  ∧ (∀ b1, batch_id_found dynamic_data b1 → b1 ≠ batch_id tag →
       (∀ b, batch_id_found dynamic_data b → b = b1 ∨ b = batch_id tag) →
       get_dependencies dynamic_data tag = {[ b1 ]}).
Proof.
  split; [|split].
  - intros b. rewrite elem_of_get_dependencies. tauto.
  - intros Hnone. apply set_eq. intros b.
    rewrite elem_of_get_dependencies, elem_of_empty.
    split; [intros [_ Hb]; by apply (Hnone b) | done].
  - intros b1 Hb1 Hne Honly. apply set_eq. intros b.
    rewrite elem_of_get_dependencies, elem_of_singleton. split.
    + intros [Hb Hfound]. by destruct (Honly b Hfound).
    + by intros ->.
Qed.

(** C7.  Two tags whose own batch ids are not found in the tags of the
    working data give the same dependency set. *)
Theorem get_dependencies_independent_of_tag
    (dynamic_data : DynamicData) (tag1 tag2 : Tag) :
  tag1 ≠ tag2 →
  ¬ batch_id_found dynamic_data (batch_id tag1) →
  ¬ batch_id_found dynamic_data (batch_id tag2) →
  get_dependencies dynamic_data tag1 = get_dependencies dynamic_data tag2.
Proof.
  intros _ H1 H2. apply set_eq. intros b.
  rewrite !elem_of_get_dependencies. split; intros [Hne Hfound];
    (split; [intros ->; contradiction | done]).
Qed.

End lineage.

(** ** The streaming clock *)

Section clock.
Import Interface.

Lemma time_sleep_Ok seconds :
  time_sleep seconds = Ok () ↔ (0 ≤ seconds ≤ sleep_max)%Z.
Proof.
  unfold time_sleep, sleep_max.
  repeat case_bool_decide; split; intros ?; try done; lia.
Qed.

Lemma simulate_streaming_step s δ start :
  (0 ≤ SLEEP_TIME (clock_params s) ≤ sleep_max)%Z →
  timedelta (INTERVAL (clock_params s)) = Ok δ →
  (clock_resets s ∧ start = FIRST_DATETIME (clock_params s))
  ∨ (¬ clock_resets s ∧ cursor s = Some start) →
  (0 ≤ start + δ ≤ datetime_max)%Z →
  _simulate_streaming s = (Ok (start, start + δ)%Z, after_call s (start + δ)%Z).
Proof.
  intros Hsleep%time_sleep_Ok Hδ Hstart Hrange.
  unfold clock_resets, cursor, clock_params in *.
  unfold _simulate_streaming, after_call, clock_params. run_M.
  rewrite Hsleep.
  destruct s as [obj tr n]; simpl in *.
  destruct (last_datetime obj) as [c|] eqn:Hc; simpl.
  - destruct (LOOP _) eqn:Hloop; simpl.
    + case_bool_decide as Hlast; simpl.
      * destruct Hstart as [[_ ->] | [Hno _]].
        2:{ exfalso. apply Hno. right. eauto. }
        rewrite Hδ. unfold datetime_add.
        by rewrite bool_decide_eq_true_2.
      * destruct Hstart as [[[?|(_ & c' & [= <-] & ?)] _] | [_ [= <-]]];
          [done|lia|].
        rewrite Hc, Hδ. unfold datetime_add.
        rewrite bool_decide_eq_true_2 by done. simpl.
        unfold set_last_datetime. by destruct obj.
    + destruct Hstart as [[[?|(? & _)] _] | [_ [= <-]]]; [done|done|].
      rewrite Hc, Hδ. unfold datetime_add.
      rewrite bool_decide_eq_true_2 by done. simpl.
      unfold set_last_datetime. by destruct obj.
  - destruct Hstart as [[_ ->] | [Hno _]].
    2:{ exfalso. apply Hno. by left. }
    rewrite Hδ. unfold datetime_add.
    by rewrite bool_decide_eq_true_2.
Qed.

Lemma after_calls_cursor s δ n :
  (0 ≤ SLEEP_TIME (clock_params s) ≤ sleep_max)%Z →
  LOOP (clock_params s) = false →
  cursor s = None →
  timedelta (INTERVAL (clock_params s)) = Ok δ →
  (∀ k : nat, (1 ≤ k ≤ n)%nat →
     (0 ≤ FIRST_DATETIME (clock_params s) + Z.of_nat k * δ ≤ datetime_max)%Z) →
  clock_params (after_calls n s) = clock_params s
  ∧ cursor (after_calls n s) =
      match n with
      | O => None
      | S _ => Some (FIRST_DATETIME (clock_params s) + Z.of_nat n * δ)%Z
      end.
Proof.
  intros Hsleep Hloop Hnone Hδ.
  induction n as [|n IH]; intros Hrange; [done|].
  destruct IH as [Hp Hc]; [intros k Hk; apply Hrange; lia|].
  simpl after_calls.
  rewrite (simulate_streaming_step _ δ
             (FIRST_DATETIME (clock_params s) + Z.of_nat n * δ)%Z).
  - simpl. split; [done|]. unfold cursor. simpl. f_equal. lia.
  - by rewrite Hp.
  - by rewrite Hp.
  - destruct n as [|n].
    + left. split; [by left|]. rewrite Hp. lia.
    + right. split; [|done].
      intros [Hn | (Hl & _)]; [congruence|]. rewrite Hp in Hl. congruence.
  - replace (FIRST_DATETIME (clock_params s) + Z.of_nat n * δ + δ)%Z
      with (FIRST_DATETIME (clock_params s) + Z.of_nat (S n) * δ)%Z by lia.
    apply Hrange. lia.
Qed.

(** C3.  With a sleep time that [time.sleep] takes, a call of the clock
    sleeps and then starts its window at the configured first time when the
    cursor is unset or when [loop] is on and the cursor has reached the
    last time, and at the cursor otherwise; it returns the window from
    there to one interval later and leaves the cursor at the end of that
    window.  From an unset cursor and with [loop] off, the calls return the
    successive windows of one interval that start at the first time,
    whatever the last time. *)
Theorem simulate_streaming_windows (s : state) (δ : Z) :
  (0 ≤ SLEEP_TIME (clock_params s) ≤ sleep_max)%Z →
  timedelta (INTERVAL (clock_params s)) = Ok δ →
  (∀ start,
     (clock_resets s ∧ start = FIRST_DATETIME (clock_params s))
     ∨ (¬ clock_resets s ∧ cursor s = Some start) →
     (0 ≤ start + δ ≤ datetime_max)%Z →
     _simulate_streaming s
     = (Ok (start, start + δ)%Z, after_call s (start + δ)%Z))
  ∧ (LOOP (clock_params s) = false → cursor s = None →
     ∀ n : nat,
       (∀ k : nat, (1 ≤ k ≤ S n)%nat →
          (0 ≤ FIRST_DATETIME (clock_params s) + Z.of_nat k * δ
           ≤ datetime_max)%Z) →
       (_simulate_streaming (after_calls n s)).1
       = Ok (FIRST_DATETIME (clock_params s) + Z.of_nat n * δ,
             FIRST_DATETIME (clock_params s) + Z.of_nat (S n) * δ)%Z).
Proof.
  intros Hsleep Hδ. split.
  - intros start. by apply simulate_streaming_step.
  - intros Hloop Hnone n Hrange.
    destruct (after_calls_cursor s δ n Hsleep Hloop Hnone Hδ) as [Hp Hc].
    { intros k Hk. apply Hrange. lia. }
    rewrite (simulate_streaming_step _ δ
               (FIRST_DATETIME (clock_params s) + Z.of_nat n * δ)%Z).
    + simpl. do 2 f_equal. lia.
    + by rewrite Hp.
    + by rewrite Hp.
    + destruct n as [|n].
      * left. split; [by left|]. rewrite Hp. lia.
      * right. split; [|done].
        intros [Hn | (Hl & _)]; [congruence|]. rewrite Hp in Hl. congruence.
    + replace (FIRST_DATETIME (clock_params s) + Z.of_nat n * δ + δ)%Z
        with (FIRST_DATETIME (clock_params s) + Z.of_nat (S n) * δ)%Z by lia.
      apply Hrange. lia.
Qed.

End clock.

(** ** The execution loop *)

Section engine.
Import Interface.

(** *** Setup *)

Lemma elem_of_concat {A} (x : A) (ls : list (list A)) :
  x ∈ concat ls ↔ ∃ l, x ∈ l ∧ l ∈ ls.
Proof.
  induction ls as [|l ls IH]; simpl.
  - split; [by intros ?%elem_of_nil | by intros (? & _ & ?%elem_of_nil)].
  - rewrite elem_of_app, IH. split.
    + intros [?|(l' & ? & ?)]; [exists l | exists l'];
        rewrite elem_of_cons; auto.
    + intros (l' & ? & [->|?]%elem_of_cons); [by left | right; by exists l'].
Qed.

Lemma append_model_lookup l models task :
  foldl append_model models l !! task =
    match models !! task, filter (λ m, TASK m = task) l with
    | None, [] => None
    | pre, found => Some (default [] pre ++ found)
    end.
Proof.
  revert models. induction l as [|m l IH]; intros models; simpl.
  { destruct (models !! task); simpl; by rewrite ?app_nil_r. }
  rewrite IH. unfold append_model. rewrite lookup_insert.
  rewrite filter_cons. destruct (decide (TASK m = task)) as [->|Hne].
  - simpl. rewrite <- app_assoc. by destruct (models !! task).
  - by destruct (models !! task), (filter _ l).
Qed.

Lemma set_models_lookup cfg task :
  foldl append_model ∅ (SUBPACKAGES cfg) !! task =
    match models_of cfg task with
    | [] => None
    | found => Some found
    end.
Proof. by rewrite append_model_lookup, lookup_empty. Qed.

Lemma set_models_import_names service_name cfg self task :
  __init__ service_name cfg = Ok self →
  task ∈ tasks →
  required_names self task =
    list_to_set (concat (input_data_names <$> models_of cfg task))
    ∖ list_to_set (concat (output_data_names <$> models_of cfg task)).
Proof.
  unfold __init__, _set_models, required_names.
  destruct (_check_cfg cfg); [|done]. case_bool_decide; [|done].
  intros [= <-] Htask. simpl. unfold set_task.
  rewrite !set_models_lookup.
  apply elem_of_cons in Htask as [->|Htask];
    [|apply list_elem_of_singleton in Htask as ->];
    destruct (models_of cfg "measurement") as [|m1 l1] eqn:H1;
    destruct (models_of cfg "analysis") as [|m2 l2] eqn:H2; simpl;
    rewrite ?lookup_insert_eq, ?lookup_insert_ne, ?lookup_empty by done;
    simpl; rewrite ?list_to_set_elements_L; set_solver.
Qed.

(** C10.  After a successful setup the names kept for the imports of a
    task are the input names of the task's models less the output names of
    the task's models; a name that some model of the task produces is never
    requested from the data store for that task. *)
Theorem import_names_are_inputs_less_outputs
    (service_name : str) (cfg : cfg_t) (self : t) (task : str) :
  __init__ service_name cfg = Ok self →
  task ∈ tasks →
  required_names self task =
    list_to_set (concat (input_data_names <$> models_of cfg task))
    ∖ list_to_set (concat (output_data_names <$> models_of cfg task))
  ∧ ∀ producer x dynamic_data,
      producer ∈ SUBPACKAGES cfg → TASK producer = task →
      x ∈ output_data_names producer →
      x ∉ data_name_of self task dynamic_data.
Proof.
  intros Hinit Htask.
  pose proof (set_models_import_names _ _ _ _ Hinit Htask) as Heq.
  split; [done|].
  intros producer x dd Hin Htask' Hout.
  unfold data_name_of. fold (required_names self task).
  rewrite elem_of_elements, elem_of_difference, Heq, elem_of_difference.
  intros [[_ Hno] _]. apply Hno.
  rewrite elem_of_list_to_set, elem_of_concat.
  exists (output_data_names producer). split; [done|].
  apply list_elem_of_fmap. exists producer. split; [done|].
  unfold models_of. by rewrite list_elem_of_filter.
Qed.

(** *** One iteration *)

Lemma init_attributes service_name cfg self :
  __init__ service_name cfg = Ok self →
  Interface.cfg self = cfg
  ∧ streaming self =
      bool_decide (DATA_PROCESSING_METHOD cfg ∈ ["stream"; "simulate_stream"])
  ∧ DATA_PROCESSING_METHOD cfg ∈ ["batch"; "stream"; "simulate_stream"].
Proof.
  unfold __init__, _check_cfg, _set_models.
  case_bool_decide as Hmode; [done|]. case_bool_decide; [|done].
  intros [= <-]. split; [|split; [|done]].
  - simpl. unfold set_task.
    by repeat (destruct (_ !! _); simpl).
  - simpl. unfold set_task.
    by repeat (destruct (_ !! _); simpl).
Qed.

Lemma import_step_run env first last task dd s :
  import_step env first last task dd s =
    (Ok (update env dd
           (import_dynamic_data env (data_name_of (self s) task dd)
              (data_system_of (self s) task) first last false)),
     {| self := self s;
        trace := trace s
                 ++ [Import (import_request_of (self s) task dd first last)];
        ticks := ticks s |}).
Proof. done. Qed.

Lemma apply_model_frame env tag dd model s r s' :
  apply_model env tag dd model s = (r, s') →
  self s' = self s ∧ trace s' = trace s.
Proof.
  unfold apply_model. run_M.
  destruct (model_call model dd) as [res|]; [|by intros [= <- <-]].
  simpl. destruct (dynamic_data_utils.arrange_result _ _ _ _);
    by intros [= <- <-].
Qed.

Lemma apply_models_frame env tag ms dd s r s' :
  for_each ms (apply_model env tag) dd s = (r, s') →
  self s' = self s ∧ trace s' = trace s.
Proof.
  revert dd s. induction ms as [|m ms IH]; intros dd s; simpl.
  { by intros [= <- <-]. }
  unfold mbind, M_bind.
  destruct (apply_model env tag dd m s) as [[dd'|e] s1] eqn:Hm;
    apply apply_model_frame in Hm as [Hs Ht].
  - intros [Hs' Ht']%IH. split; congruence.
  - intros [= <- <-]. done.
Qed.

Lemma run_task_frame env tag first last acc task s r s' :
  run_task env tag first last acc task s = (r, s') →
  self s' = self s
  ∧ trace s' = trace s
               ++ [Import (import_request_of (self s) task acc.1 first last)]
  ∧ ∀ v, r = Ok v → v.2 = data_system_of (self s) task.
Proof.
  unfold run_task. unfold mbind at 1 2, M_bind at 1 2, get_self.
  rewrite import_step_run. cbn beta iota. unfold mbind at 1, M_bind at 1.
  match goal with
  | |- context [for_each ?ms _ ?d ?st] =>
    destruct (for_each ms (apply_model env tag) d st) as [[dd'|e] s1] eqn:Hm
  end; apply apply_models_frame in Hm as [Hs Ht]; simpl in *;
    intros [= <- <-]; (split; [done|split; [done|]]); by intros v [= <-].
Qed.

Lemma same_setup_data_system a b task :
  same_setup a b → data_system_of a task = data_system_of b task.
Proof. intros (Hc & Hs & _). unfold data_system_of. by rewrite Hc, Hs. Qed.

Lemma simulate_streaming_frame s r s' :
  _simulate_streaming s = (r, s') →
  same_setup (self s') (self s)
  ∧ (trace s' = trace s ++ [Sleep (SLEEP_TIME (clock_params s))]
     ∨ trace s' = trace s).
Proof.
  unfold _simulate_streaming, clock_params. run_M.
  destruct (time_sleep _); [|intros [= <- <-]; split; [done|by right]].
  destruct (last_datetime (self s)) as [c|] eqn:Hc; simpl.
  - destruct (LOOP _ && _); simpl.
    + destruct (timedelta _); simpl; [|intros [= <- <-]; split; [done|by left]].
      destruct (datetime_add _ _); intros [= <- <-]; split; (done || by left).
    + rewrite Hc.
      destruct (timedelta _); simpl; [|intros [= <- <-]; split; [done|by left]].
      destruct (datetime_add _ _); intros [= <- <-]; split; (done || by left).
  - destruct (timedelta _); simpl; [|intros [= <- <-]; split; [done|by left]].
    destruct (datetime_add _ _); intros [= <- <-]; split; (done || by left).
Qed.

Lemma run_tasks_frame env tag first last acc s r s' :
  for_each tasks (run_task env tag first last) acc s = (r, s') →
  self s' = self s
  ∧ ∃ new,
      trace s' = trace s ++ new
      ∧ import_systems new `prefix_of`
          [data_system_of (self s) "measurement";
           data_system_of (self s) "analysis"]
      ∧ ∀ v, r = Ok v →
          import_systems new =
            [data_system_of (self s) "measurement";
             data_system_of (self s) "analysis"]
          ∧ v.2 = data_system_of (self s) "analysis".
Proof.
  unfold tasks. simpl. unfold mbind at 1, M_bind at 1.
  destruct (run_task env tag first last acc "measurement" s)
    as [[acc1|e] s1] eqn:H1; apply run_task_frame in H1 as (Hs1 & Ht1 & _).
  2:{ intros [= <- <-]. split; [done|]. eexists. split; [done|].
      split; [by eexists [_]|done]. }
  unfold mbind at 1, M_bind at 1.
  destruct (run_task env tag first last acc1 "analysis" s1)
    as [[acc2|e] s2] eqn:H2; apply run_task_frame in H2 as (Hs2 & Ht2 & Hv).
  - intros [= <- <-]. split; [congruence|]. eexists. split.
    { rewrite Ht2, Ht1, <- app_assoc. done. }
    rewrite Hs1. split; [done|]. intros v [= <-].
    split; [done|]. rewrite <- Hs1. by apply Hv.
  - intros [= <- <-]. split; [congruence|]. eexists. split.
    { rewrite Ht2, Ht1, <- app_assoc. done. }
    rewrite Hs1. split; [done|]. done.
Qed.

Lemma call_imports env dynamic_data first last s r s' :
  __call__ env dynamic_data first last s = (r, s') →
  ∃ new,
    trace s' = trace s ++ new
    ∧ import_systems new `prefix_of`
        [data_system_of (self s) "measurement";
         data_system_of (self s) "analysis"]
    ∧ ∀ v, r = Ok v →
        import_systems new =
          [data_system_of (self s) "measurement";
           data_system_of (self s) "analysis"].
Proof.
  unfold __call__. unfold mbind at 1 2, M_bind at 1 2, get_self.
  cbn beta iota.
  match goal with
  | |- context [match ?c s with _ => _ end] =>
    assert (∃ rw s1, c s = (rw, s1) ∧ same_setup (self s1) (self s)
                     ∧ ∃ pre, trace s1 = trace s ++ pre
                              ∧ import_systems pre = []) as Hwin;
    [|destruct Hwin as (rw & s1 & -> & Hsame & pre & Hpre & Hpre0)]
  end.
  { case_bool_decide; [|by eexists _, _; split; [done|]; split; [done|];
                         exists []; rewrite app_nil_r].
    case_bool_decide; [by eexists _, _; split; [done|]; split; [done|];
                         exists []; rewrite app_nil_r|].
    unfold mbind, M_bind.
    destruct (_simulate_streaming s) as [[w|e] s1] eqn:Hsim;
      apply simulate_streaming_frame in Hsim as [Hsame [Htr|Htr]];
      eexists _, _; (split; [done|]); (split; [done|]);
      [eexists; (split; [exact Htr|done])
      |exists []; by rewrite app_nil_r
      |eexists; (split; [exact Htr|done])
      |exists []; by rewrite app_nil_r]. }
  destruct rw as [window|e].
  2:{ intros [= <- <-]. exists pre. split; [done|]. rewrite Hpre0.
      split; [apply prefix_nil|done]. }
  unfold mbind at 1, M_bind at 1, now. cbn beta iota.
  unfold mbind at 1, M_bind at 1.
  match goal with
  | |- context [for_each tasks ?f ?a ?st] =>
    destruct (for_each tasks f a st) as [[acc|e] s2] eqn:Htasks
  end; apply run_tasks_frame in Htasks
    as (Hs2 & new & Ht2 & Hprefix & Hok); simpl in Hs2, Ht2, Hprefix, Hok;
    rewrite !(same_setup_data_system _ _ _ Hsame) in Hprefix, Hok.
  2:{ intros [= <- <-]. exists (pre ++ new).
      split; [by rewrite Ht2, Hpre, <- app_assoc|].
      unfold import_systems, imports in *.
      rewrite omap_app, fmap_app, Hpre0. split; [done|done]. }
  destruct (Hok acc eq_refl) as [Hboth _].
  run_M.
  case_bool_decide;
    [destruct (export_dynamic_data _ _ _ _ _);
       [destruct (streaming (self s))|]|];
    simpl; intros [= <- <-]; simpl;
    (eexists; split; [rewrite Ht2, Hpre, <- ?app_assoc; done|]);
    unfold import_systems, imports in *;
    rewrite ?omap_app, ?fmap_app; simpl;
    rewrite ?omap_app, ?fmap_app, Hpre0, Hboth; simpl; done.
Qed.

Lemma init_data_systems service_name cfg iface :
  __init__ service_name cfg = Ok iface →
  data_system_of iface "measurement" = TIME_SERIES_DATA_SYSTEM cfg
  ∧ data_system_of iface "analysis" =
      if bool_decide
           (DATA_PROCESSING_METHOD cfg ∈ ["stream"; "simulate_stream"])
      then "streaming"
      else TIME_SERIES_DATA_SYSTEM cfg.
Proof.
  intros (Hcfg & Hstreaming & _)%init_attributes.
  unfold data_system_of. split.
  - simpl. by rewrite Hcfg.
  - rewrite bool_decide_eq_false_2 by done. by rewrite Hstreaming, Hcfg.
Qed.

(** C9.  The measurement pass imports from the configured time-series data
    system in every mode.  The analysis pass imports from ["streaming"] in
    the two streaming modes and from the configured system in batch mode.
    An iteration sends its import requests in that order: both when it
    returns, a prefix of them when an exception ends it. *)
Theorem import_data_system_per_task
    (service_name : str) (cfg : cfg_t) (iface : t) :
  __init__ service_name cfg = Ok iface →
  (∀ dynamic_data first last,
     time_series_data_system
       (import_request_of iface "measurement" dynamic_data first last)
     = TIME_SERIES_DATA_SYSTEM cfg)
  ∧ (DATA_PROCESSING_METHOD cfg ∈ ["stream"; "simulate_stream"] →
       ∀ dynamic_data first last,
         time_series_data_system
           (import_request_of iface "analysis" dynamic_data first last)
         = "streaming")
  ∧ (DATA_PROCESSING_METHOD cfg = "batch" →
       ∀ dynamic_data first last,
         time_series_data_system
           (import_request_of iface "analysis" dynamic_data first last)
         = TIME_SERIES_DATA_SYSTEM cfg)
  ∧ ∀ env dynamic_data first last s r s',
      same_setup (self s) iface →
      __call__ env dynamic_data first last s = (r, s') →
      ∃ new,
        trace s' = trace s ++ new
        ∧ import_systems new `prefix_of`
            [TIME_SERIES_DATA_SYSTEM cfg;
             if bool_decide
                  (DATA_PROCESSING_METHOD cfg ∈ ["stream"; "simulate_stream"])
             then "streaming"
             else TIME_SERIES_DATA_SYSTEM cfg]
        ∧ ∀ v, r = Ok v →
            import_systems new =
              [TIME_SERIES_DATA_SYSTEM cfg;
               if bool_decide
                    (DATA_PROCESSING_METHOD cfg
                     ∈ ["stream"; "simulate_stream"])
               then "streaming"
               else TIME_SERIES_DATA_SYSTEM cfg].
Proof.
  intros [Hm Ha]%init_data_systems.
  split; [|split; [|split]].
  - intros. simpl. exact Hm.
  - intros Hstream. intros. simpl. rewrite Ha.
    by rewrite bool_decide_eq_true_2.
  - intros Hbatch. intros. simpl. rewrite Ha, Hbatch.
    by rewrite bool_decide_eq_false_2
      by (rewrite !elem_of_cons, elem_of_nil; by intros [|[|]]).
  - intros env dd first last s r s' Hsame Hcall.
    apply call_imports in Hcall as (new & Htr & Hprefix & Hok).
    rewrite !(same_setup_data_system _ _ _ Hsame), Hm, Ha in Hprefix, Hok.
    by exists new.
Qed.

(** C6.  The import step of a pass asks the data store for the names kept
    for the task less the names already in the working data, and for
    nothing else.  Provided the store returns no series that was not asked
    for and no batch metadata, and provided the merge leaves alone the
    entries whose key the merged data does not hold, every entry of the
    working data is the same after the step. *)
Theorem import_step_keeps_working_data (env : collaborators)
    (first last : option datetime) (task : str)
    (dynamic_data : DynamicData) (s : state) :
  (∀ names system a b,
     dom (time_series_data (import_dynamic_data env names system a b false))
     ⊆ list_to_set names) →
  (∀ names system a b,
     time_series_batch_metadata
       (import_dynamic_data env names system a b false) = ∅) →
  (∀ d o name,
     time_series_data o !! name = None →
     time_series_data (update env d o) !! name = time_series_data d !! name) →
  (∀ d o id,
     time_series_batch_metadata o !! id = None →
     time_series_batch_metadata (update env d o) !! id
     = time_series_batch_metadata d !! id) →
  ∃ request dynamic_data',
    import_step env first last task dynamic_data s
    = (Ok dynamic_data',
       {| self := self s; trace := trace s ++ [Import request];
          ticks := ticks s |})
    ∧ list_to_set (data_name request)
      = required_names (self s) task ∖ dom (time_series_data dynamic_data)
    ∧ (∀ name series,
         time_series_data dynamic_data !! name = Some series →
         time_series_data dynamic_data' !! name = Some series)
    ∧ (∀ id metadata,
         time_series_batch_metadata dynamic_data !! id = Some metadata →
         time_series_batch_metadata dynamic_data' !! id = Some metadata).
Proof.
  intros Hscoped Hnometa Hframe Hframe_md.
  eexists _, _. split; [apply import_step_run|].
  split; [|split].
  - simpl. unfold data_name_of, required_names.
    by rewrite list_to_set_elements_L.
  - intros name series Hname. rewrite Hframe; [done|].
    apply not_elem_of_dom. intros Hin%Hscoped.
    unfold data_name_of in Hin.
    rewrite list_to_set_elements_L, elem_of_difference in Hin.
    destruct Hin as [_ Hnot]. apply Hnot. apply elem_of_dom. by eexists.
  - intros id md Hid. rewrite Hframe_md; [done|].
    by rewrite Hnometa, lookup_empty.
Qed.

(** C4, as amended.  In [simulate_stream] mode the configuration check of
    the constructor passes, and a call given an explicit bound raises
    [ValueError] at once: it leaves the object, the clock's cursor and the
    event trace as they were, so nothing was imported. *)
Theorem explicit_bounds_rejected_by_call (env : collaborators)
    (dynamic_data : option DynamicData) (first last : option datetime)
    (s : state) :
  DATA_PROCESSING_METHOD (cfg (self s)) = "simulate_stream" →
  first ≠ None ∨ last ≠ None →
  _check_cfg (cfg (self s)) = Ok ()
  ∧ __call__ env dynamic_data first last s = (Raise ValueError, s).
Proof.
  intros Hmode Hbound. split.
  - unfold _check_cfg. rewrite Hmode. done.
  - unfold __call__. run_M. rewrite Hmode. simpl.
    by rewrite bool_decide_eq_true_2.
Qed.

End engine.

(** ** Shutdown of the interface service *)

Section shutdown.
Import Service.

Lemma run_interface_loop_exit before rest alive tr :
  Forall other_message before →
  run_interface_loop (before ++ encode "exit" :: rest) alive tr =
    (Returned,
     {| recv_queue := rest; server_alive := alive;
        trace := tr ++ (Get <$> before) ++ [Get (encode "exit"); ThreadStop] |}).
Proof.
  intros Hother. revert tr.
  induction Hother as [|data before (m & Hm & Hne) _ IH]; intros tr; simpl.
  - by rewrite <- app_assoc.
  - rewrite Hm, bool_decide_eq_false_2 by done.
    rewrite IH. by rewrite <- app_assoc.
Qed.

Lemma build_interface_builds w service_name cfg :
  interface_builds w →
  build_interface w service_name cfg = Interface.__init__ service_name cfg.
Proof.
  intros [Hloaded Hstarted]. unfold build_interface, Interface.__init__.
  rewrite Hloaded, Hstarted.
  destruct (Interface._check_cfg cfg); [|done].
  by destruct (Interface._set_models _ _).
Qed.

Lemma send_each_returns w data clients tr :
  (∀ k, k < length clients →
     sends w (tr ++ take (S k) ((λ client, Send client.1 data) <$> clients))
     = SendReturns) →
  send_each w data clients tr
  = (Returned, tr ++ ((λ client, Send client.1 data) <$> clients)).
Proof.
  revert tr. induction clients as [|client clients IH]; intros tr Hsends.
  { simpl. by rewrite app_nil_r. }
  pose proof (Hsends 0 ltac:(simpl; lia)) as Hfirst.
  rewrite fmap_cons, firstn_cons, take_0 in Hfirst.
  simpl. rewrite Hfirst.
  rewrite IH; [by rewrite <- app_assoc|].
  intros k Hk. rewrite <- app_assoc. apply (Hsends (S k)). simpl. lia.
Qed.

Lemma send_message_returns w self message tr :
  broadcast_returns w self message tr →
  _send_message w self message tr = (Returned, tr ++ broadcast self message).
Proof. apply send_each_returns. Qed.

(** C5, as amended.  Once the barrier has let an interface service start,
    the interface is built and the service has told every peer its name,
    an [exit] message makes the main thread set the stop event of the loop
    thread and then, if the receiver thread is alive, stop the receiver; it
    makes no other call: it does not join the loop thread and it sends
    nothing to its peers. *)
Theorem exit_message_stops_loop_then_receiver (w : world) (self : t)
    (s0 s : state) (finished_init : list str) (iface : Interface.t)
    (before rest : list bytes) :
  SERVICE_TYPE (cfg self) = "Interface" →
  _wait_dependencies self s0 = (Returned, finished_init, s) →
  interface_builds w →
  Interface.__init__ (service_name self) (SERVICE (cfg self)) = Ok iface →
  broadcast_returns w self (service_name self) (trace s ++ [InterfaceInit]) →
  Forall other_message before →
  recv_queue s = before ++ encode "exit" :: rest →
  ∃ s',
    __call__ w self s0 = (Returned, s')
    ∧ recv_queue s' = rest
    ∧ trace s' =
        trace s ++ launch_events self ++ (Get <$> before)
        ++ [Get (encode "exit"); ThreadStop]
        ++ (if server_alive s then [ServerStop] else []).
Proof.
  intros Htype Hwait Hbuilds Hinit Hsends Hother Hq.
  unfold __call__. rewrite Hwait, Htype. simpl.
  unfold _run_interface.
  rewrite build_interface_builds by done. rewrite Hinit, Hq.
  rewrite send_message_returns by done.
  rewrite run_interface_loop_exit by done.
  unfold exit, launch_events. simpl.
  destruct (server_alive s); simpl; eexists; (split; [done|]);
    (split; [done|]); simpl; rewrite <- ?app_assoc; simpl;
    by rewrite <- ?app_assoc.
Qed.

End shutdown.

(** ** The theorems at work on the sample configurations *)

Section samples.

Lemma send_retries_and_never_raises_witness :
  socket.send 5 (Ok ()) sample.refused_twice "svc_b"
  = socket.Returned
      [socket.EConnect false; socket.ESleep 1;
       socket.EConnect false; socket.ESleep 1;
       socket.EConnect true; socket.ESendall "svc_b" true]
  ∧ socket.send 3 (Ok ()) (λ _, socket.ConnectRaises OSError) "svc_b"
    = socket.Retrying
        [socket.EConnect false; socket.ESleep 1;
         socket.EConnect false; socket.ESleep 1;
         socket.EConnect false; socket.ESleep 1].
Proof.
  split.
  - refine (proj2 (proj2 (proj2
      (send_retries_and_never_raises "svc_b" sample.refused_twice)))
      2 _ _ 5 _).
    + intros [|[|j]] Hj; [by left | by left | lia].
    + reflexivity.
    + lia.
  - refine (proj1 (proj2 (proj2
      (send_retries_and_never_raises "svc_b"
         (λ _, socket.ConnectRaises OSError)))) _ 3).
    intros j. by left.
Defined.

Lemma wait_dependencies_returns_iff_superset_witness :
  Service._wait_dependencies (sample.service []) (sample.inbox ["svc_a"])
  = (Service.Returned, [], sample.inbox ["svc_a"])
  ∧ Service._wait_dependencies (sample.service ["svc_a"])
      (sample.inbox ["svc_a"; "exit"])
    = (Service.Returned, ["svc_a"],
       {| Service.recv_queue := ["exit"]; Service.server_alive := true;
          Service.trace := [Service.Get "svc_a"] |})
  ∧ (wait_returns (sample.service ["svc_a"; "svc_c"])
       (sample.inbox ["svc_a"; "svc_c"])
     ↔ wait_returns (sample.service ["svc_a"; "svc_c"])
         (with_queue (sample.inbox ["svc_a"; "svc_c"]) ["svc_c"; "svc_a"])).
Proof.
  split; [|split].
  - refine (proj1 (wait_dependencies_returns_iff_superset
                     (sample.service []) (sample.inbox ["svc_a"])) _).
    reflexivity.
  - refine (proj2 (proj1 (proj2 (wait_dependencies_returns_iff_superset
                     (sample.service ["svc_a"])
                     (sample.inbox ["svc_a"; "exit"]))) _ _) _).
    exists ["svc_a"]. split; [reflexivity|].
    split; [by repeat constructor|].
    split; [unfold covers; simpl; set_solver|].
    split; [|by split].
    intros [|k] Hk; [|simpl in Hk; lia]. unfold covers. simpl. set_solver.
  - refine (proj2 (proj2 (wait_dependencies_returns_iff_superset
                     (sample.service ["svc_a"; "svc_c"])
                     (sample.inbox ["svc_a"; "svc_c"]))) _ _ _).
    + simpl. apply Permutation_swap.
    + by repeat constructor.
Defined.

Lemma sample_found_upstream b :
  batch_id_found sample.upstream b ↔ b = "b1".
Proof.
  unfold batch_id_found, sample.upstream. simpl. split.
  - intros (name & series & column & Hl & Hc & Hb).
    apply lookup_singleton_Some in Hl as [_ <-]. simpl in Hc.
    apply lookup_singleton_Some in Hc as [_ <-].
    rewrite !elem_of_cons, elem_of_nil in Hb. tauto.
  - intros ->. exists "res", (sample.series_tagged "b1"), ["b1"; "b1"].
    split; [done|]. split; [done|]. by left.
Qed.

Lemma sample_found_downstream b :
  batch_id_found sample.downstream b ↔ b = "b1" ∨ b = "b2".
Proof.
  unfold batch_id_found, sample.downstream. simpl. split.
  - intros (name & series & column & Hl & Hc & Hb).
    apply lookup_insert_Some in Hl as [[_ <-]|[_ Hl]].
    + simpl in Hc. apply lookup_singleton_Some in Hc as [_ <-].
      rewrite !elem_of_cons, elem_of_nil in Hb. tauto.
    + apply lookup_singleton_Some in Hl as [_ <-]. simpl in Hc.
      apply lookup_singleton_Some in Hc as [_ <-].
      rewrite !elem_of_cons, elem_of_nil in Hb. tauto.
  - intros [-> | ->].
    + exists "res", (sample.series_tagged "b1"), ["b1"; "b1"].
      split; [done|]. split; [done|]. by left.
    + exists "res2", (sample.series_tagged "b2"), ["b2"; "b2"].
      split; [done|]. split; [done|]. by left.
Qed.

Lemma get_dependencies_is_foreign_batch_ids_witness :
  dynamic_data_utils.get_dependencies sample.downstream (sample.tag_of "b2")
  = {[ "b1" ]}
  ∧ dynamic_data_utils.get_dependencies DynamicData_empty (sample.tag_of "b2")
    = ∅.
Proof.
  split.
  - refine (proj2 (proj2 (get_dependencies_is_foreign_batch_ids
                     sample.downstream (sample.tag_of "b2"))) "b1" _ _ _).
    + apply sample_found_downstream. by left.
    + done.
    + intros b Hb. by apply sample_found_downstream.
  - refine (proj1 (proj2 (get_dependencies_is_foreign_batch_ids
                     DynamicData_empty (sample.tag_of "b2"))) _).
    intros b (name & series & column & Hl & _). simpl in Hl.
    by rewrite lookup_empty in Hl.
Defined.

Lemma get_dependencies_independent_of_tag_witness :
  dynamic_data_utils.get_dependencies sample.upstream (sample.tag_of "b2")
  = dynamic_data_utils.get_dependencies sample.upstream (sample.tag_of "b3").
Proof.
  apply get_dependencies_independent_of_tag.
  - done.
  - by intros ?%sample_found_upstream.
  - by intros ?%sample_found_upstream.
Defined.

Lemma simulate_streaming_windows_witness :
  (Interface._simulate_streaming
     (after_calls 0 (sample.start "simulate_stream"))).1
  = Ok (sample.T0, sample.T0 + 60000000)%Z
  ∧ (Interface._simulate_streaming
       (after_calls 1 (sample.start "simulate_stream"))).1
    = Ok (sample.T0 + 60000000, sample.T0 + 120000000)%Z
  ∧ (Interface._simulate_streaming
       (after_calls 2 (sample.start "simulate_stream"))).1
    = Ok (sample.T0 + 120000000, sample.T0 + 180000000)%Z.
Proof.
  assert (Hsleep : (0 ≤ Interface.SLEEP_TIME
                          (clock_params (sample.start "simulate_stream"))
                      ≤ sleep_max)%Z).
  { change (Interface.SLEEP_TIME _) with 1%Z. unfold sleep_max. lia. }
  assert (Hδ : timedelta (Interface.INTERVAL
                 (clock_params (sample.start "simulate_stream")))
               = Ok 60000000%Z) by reflexivity.
  assert (Hrange : ∀ n : nat, (n ≤ 3)%nat → ∀ k : nat, (1 ≤ k ≤ n)%nat →
            (0 ≤ Interface.FIRST_DATETIME
                   (clock_params (sample.start "simulate_stream"))
                 + Z.of_nat k * 60000000 ≤ datetime_max)%Z).
  { intros n Hn k Hk. change (Interface.FIRST_DATETIME _) with sample.T0.
    unfold sample.T0, datetime_max. lia. }
  split; [|split].
  - exact (proj2 (simulate_streaming_windows _ _ Hsleep Hδ) eq_refl eq_refl
             0 (Hrange 1 ltac:(lia))).
  - exact (proj2 (simulate_streaming_windows _ _ Hsleep Hδ) eq_refl eq_refl
             1 (Hrange 2 ltac:(lia))).
  - exact (proj2 (simulate_streaming_windows _ _ Hsleep Hδ) eq_refl eq_refl
             2 (Hrange 3 ltac:(lia))).
Defined.

(** C4 as stated fails: in [simulate_stream] mode the constructor returns
    an object, and the barrier lets the service, whose peer listens, bring
    its loop up; the error for an explicit bound comes from the call that
    is given the bound. *)
Lemma explicit_bounds_not_rejected_at_construction :
  Interface.__init__ "svc_b" (sample.interface_cfg "simulate_stream")
  = Ok (sample.interface "simulate_stream")
  ∧ Service.__call__ sample.listening (sample.service [])
      (sample.inbox ["exit"])
    = (Service.Returned,
       {| Service.recv_queue := []; Service.server_alive := true;
          Service.trace :=
            [Service.InterfaceInit; Service.Send "svc_a" "svc_b";
             Service.ThreadStart; Service.Get "exit"; Service.ThreadStop;
             Service.ServerStop] |})
  ∧ Interface.__call__ sample.env None (Some sample.T0) None
      (sample.start "simulate_stream")
    = (Raise ValueError, sample.start "simulate_stream").
Proof. split; [|split]; by vm_compute. Qed.

Lemma explicit_bounds_rejected_by_call_witness :
  Interface._check_cfg (sample.interface_cfg "simulate_stream") = Ok ()
  ∧ Interface.__call__ sample.env None None (Some sample.T0)
      (sample.start "simulate_stream")
    = (Raise ValueError, sample.start "simulate_stream").
Proof.
  refine (explicit_bounds_rejected_by_call sample.env None None
            (Some sample.T0) (sample.start "simulate_stream") _ _).
  - reflexivity.
  - by right.
Defined.

(** C5 as stated fails: after [exit] the main thread of the sample
    service, whose peer listens, stops the loop thread and the receiver,
    and that is all; the sequence with a join and a broadcast of [exit] is
    not what it does. *)
Lemma exit_sequence_has_no_join_nor_broadcast :
  ∃ s',
    Service.__call__ sample.listening (sample.service [])
      (sample.inbox ["exit"])
    = (Service.Returned, s')
    ∧ Service.trace s'
      = launch_events (sample.service [])
        ++ [Service.Get "exit"; Service.ThreadStop; Service.ServerStop]
    ∧ Service.trace s'
      ≠ (launch_events (sample.service [])
         ++ [Service.Get "exit"]
         ++ exit_sequence_with_join_and_broadcast (sample.service []))
    ∧ (Service.ThreadJoin ∉ Service.trace s')
    ∧ (Service.Send "svc_a" "exit" ∉ Service.trace s').
Proof.
  eexists. split; [by vm_compute|]. simpl.
  split; [done|]. split; [done|].
  split; rewrite !elem_of_cons, elem_of_nil; intros H;
    repeat (destruct H as [H|H]; [discriminate H|]); done.
Qed.

Lemma exit_message_stops_loop_then_receiver_witness :
  ∃ s',
    Service.__call__ sample.listening (sample.service ["svc_a"])
      (sample.inbox ["svc_a"; "hello"; "exit"; "late"])
    = (Service.Returned, s')
    ∧ Service.recv_queue s' = ["late"]
    ∧ Service.trace s'
      = [Service.Get "svc_a"] ++ launch_events (sample.service ["svc_a"])
        ++ (Service.Get <$> ["hello"])
        ++ [Service.Get (encode "exit"); Service.ThreadStop]
        ++ [Service.ServerStop].
Proof.
  refine (exit_message_stops_loop_then_receiver sample.listening
            (sample.service ["svc_a"])
            (sample.inbox ["svc_a"; "hello"; "exit"; "late"])
            {| Service.recv_queue := ["hello"; "exit"; "late"];
               Service.server_alive := true;
               Service.trace := [Service.Get "svc_a"] |}
            ["svc_a"] (sample.interface "simulate_stream")
            ["hello"] ["late"] _ _ _ _ _ _ _).
  - reflexivity.
  - by vm_compute.
  - by split.
  - by vm_compute.
  - by intros k Hk.
  - constructor; [|constructor]. exists "hello". by split.
  - reflexivity.
Defined.

Lemma sample_env_scoped names system a b :
  dom (time_series_data (import_dynamic_data sample.env names system a b false))
  ⊆ list_to_set names.
Proof. simpl. by rewrite dom_gset_to_gmap. Qed.

Lemma sample_env_frame d o name :
  time_series_data o !! name = None →
  time_series_data (update sample.env d o) !! name = time_series_data d !! name.
Proof. intros Hn. simpl. by rewrite lookup_union_r. Qed.

Lemma sample_env_frame_metadata d o id :
  time_series_batch_metadata o !! id = None →
  time_series_batch_metadata (update sample.env d o) !! id
  = time_series_batch_metadata d !! id.
Proof. intros Hn. simpl. by rewrite lookup_union_r. Qed.

Lemma import_step_keeps_working_data_witness :
  ∃ request dynamic_data',
    Interface.import_step sample.env None None "measurement"
      sample.upstream (sample.start "batch")
    = (Ok dynamic_data',
       {| Interface.self := sample.interface "batch";
          Interface.trace := [Interface.Import request];
          Interface.ticks := 0 |})
    ∧ list_to_set (Interface.data_name request)
      = required_names (sample.interface "batch") "measurement"
        ∖ dom (time_series_data sample.upstream)
    ∧ (∀ name series,
         time_series_data sample.upstream !! name = Some series →
         time_series_data dynamic_data' !! name = Some series)
    ∧ (∀ id metadata,
         time_series_batch_metadata sample.upstream !! id = Some metadata →
         time_series_batch_metadata dynamic_data' !! id = Some metadata).
Proof.
  refine (import_step_keeps_working_data sample.env None None "measurement"
            sample.upstream (sample.start "batch") _ _ _ _).
  - apply sample_env_scoped.
  - reflexivity.
  - apply sample_env_frame.
  - apply sample_env_frame_metadata.
Defined.

Lemma import_data_system_per_task_witness :
  Interface.time_series_data_system
    (Interface.import_request_of (sample.interface "stream") "measurement"
       DynamicData_empty None None) = "file"
  ∧ Interface.time_series_data_system
      (Interface.import_request_of (sample.interface "stream") "analysis"
         DynamicData_empty None None) = "streaming"
  ∧ Interface.time_series_data_system
      (Interface.import_request_of (sample.interface "batch") "analysis"
         DynamicData_empty None None) = "file"
  ∧ ∃ new,
      Interface.trace
        (Interface.__call__ sample.env None None None (sample.start "stream")).2
      = [] ++ new
      ∧ import_systems new = ["file"; "streaming"].
Proof.
  assert (Hstream : Interface.__init__ "svc_b" (sample.interface_cfg "stream")
                    = Ok (sample.interface "stream")) by (by vm_compute).
  assert (Hbatch : Interface.__init__ "svc_b" (sample.interface_cfg "batch")
                   = Ok (sample.interface "batch")) by (by vm_compute).
  split; [|split; [|split]].
  - exact (proj1 (import_data_system_per_task _ _ _ Hstream)
             DynamicData_empty None None).
  - refine (proj1 (proj2 (import_data_system_per_task _ _ _ Hstream))
              _ DynamicData_empty None None).
    by left.
  - exact (proj1 (proj2 (proj2 (import_data_system_per_task _ _ _ Hbatch)))
             eq_refl DynamicData_empty None None).
  - destruct (Interface.__call__ sample.env None None None
                (sample.start "stream")) as [r s'] eqn:Hcall.
    destruct (proj2 (proj2 (proj2 (import_data_system_per_task _ _ _ Hstream)))
                sample.env None None None (sample.start "stream") r s'
                ltac:(by repeat split) Hcall) as (new & Htr & _ & Hok).
    exists new. split; [exact Htr|].
    destruct r as [v|e]; [exact (Hok v eq_refl)|].
    exfalso. vm_compute in Hcall. discriminate Hcall.
Defined.

Lemma import_names_are_inputs_less_outputs_witness :
  required_names (sample.interface "batch") "measurement"
  = list_to_set
      (concat (Interface.input_data_names
                 <$> models_of (sample.interface_cfg "batch") "measurement"))
    ∖ list_to_set
        (concat (Interface.output_data_names
                   <$> models_of (sample.interface_cfg "batch") "measurement"))
  ∧ "strain" ∉ Interface.data_name_of (sample.interface "batch") "measurement"
                 DynamicData_empty.
Proof.
  destruct (import_names_are_inputs_less_outputs "svc_b"
              (sample.interface_cfg "batch") (sample.interface "batch")
              "measurement") as [Heq Hnot].
  - by vm_compute.
  - by left.
  - split; [exact Heq|].
    apply (Hnot sample.strain_gauge "strain" DynamicData_empty).
    + by left.
    + reflexivity.
    + by left.
Defined.

End samples.

(** * Further properties *)

(** ** The receiver thread *)

Section receiver.
Import SocketServer.

Lemma read_packets_segments packets rest data :
  Forall (λ p, p ≠ "") packets →
  read_packets ((Packet <$> packets) ++ rest) data
  = read_packets rest (data ++ packets).
Proof.
  intros Hne. revert data.
  induction Hne as [|p packets Hp _ IH]; intros data; simpl.
  - by rewrite app_nil_r.
  - rewrite bool_decide_eq_false_2 by done. rewrite IH.
    by rewrite <- app_assoc.
Qed.

(** X1.  A connection that delivers a payload in non-empty packets and is
    then closed gives one message, the payload, however the payload was cut
    into packets; what follows the close is not read. *)
Theorem recv_reassembles_payload (packets : list bytes)
    (rest : list recv_result) (queue : list bytes) :
  Forall (λ p, p ≠ "") packets →
  _recv (Accepted (Packet <$> packets)) queue
  = (Done, queue ++ [join packets])
  ∧ _recv (Accepted ((Packet <$> packets) ++ Packet "" :: rest)) queue
    = (Done, queue ++ [join packets]).
Proof.
  intros Hne. unfold _recv. split.
  - rewrite <- (app_nil_r (Packet <$> packets)).
    by rewrite read_packets_segments.
  - by rewrite read_packets_segments.
Qed.


Lemma recv_on_queue a queue :
  _recv a queue = ((_recv a []).1, queue ++ (_recv a []).2).
Proof.
  destruct a as [conn| |e]; simpl; rewrite ?app_nil_r; try done.
  by destruct (read_packets conn []) as [[| |e] data]; simpl;
    rewrite ?app_nil_r.
Qed.

Lemma recv_delivers a queue :
  (∀ e, ¬ crashes a e) →
  ∃ status, _recv a queue = (status, queue ++ option_list (delivered a))
            ∧ ∀ e, status ≠ Raised e.
Proof.
  intros Hok. rewrite recv_on_queue. unfold delivered, crashes in *.
  destruct a as [conn| |e]; simpl in *.
  - destruct (read_packets conn []) as [[| |e] data]; simpl in *.
    + by exists Done.
    + exists TimedOut. by rewrite app_nil_r.
    + by destruct (Hok e).
  - exists TimedOut. by rewrite app_nil_r.
  - by destruct (Hok e).
Qed.

Lemma serve_passes n fuel is_set accepts k queue :
  (∀ j, j < n → is_set (k + j) = false) →
  (∀ j e, j < n → ¬ crashes (accepts (k + j)) e) →
  serve (n + fuel) is_set accepts k queue
  = serve fuel is_set accepts (k + n)
      (queue ++ omap delivered (accepts <$> seq k n)).
Proof.
  revert k queue. induction n as [|n IH]; intros k queue Hrun Hok; simpl.
  { by rewrite Nat.add_0_r, app_nil_r. }
  assert (Hk : is_set k = false).
  { rewrite <- (Nat.add_0_r k). apply Hrun. lia. }
  rewrite Hk.
  destruct (recv_delivers (accepts k) queue) as (status & -> & Hstatus).
  { intros e. rewrite <- (Nat.add_0_r k). apply Hok. lia. }
  assert (Hnext : serve (n + fuel) is_set accepts (S k)
                    (queue ++ option_list (delivered (accepts k)))
                  = serve fuel is_set accepts (k + S n)
                      (queue ++ omap delivered (accepts <$> seq k (S n)))).
  { rewrite IH.
    - replace (S k + n) with (k + S n) by lia. simpl.
      destruct (delivered (accepts k)); simpl; by rewrite <- app_assoc.
    - intros j Hj. replace (S k + j) with (k + S j) by lia. apply Hrun. lia.
    - intros j e Hj. replace (S k + j) with (k + S j) by lia. apply Hok. lia. }
  destruct status as [| |e]; [done|done|]. by destruct (Hstatus e).
Qed.

(** X2.  Until the stop flag is seen the receiver puts in the queue, in
    the order of the connections, the message of every connection it read
    to the end, and nothing for a pass that timed out; it leaves its loop
    at the first test that finds the flag set. *)
Theorem receiver_queues_messages_in_order (is_set : nat → bool)
    (accepts : nat → accept_result) (queue : list bytes) (n fuel : nat) :
  (∀ k, k < n → is_set k = false) →
  is_set n = true →
  (∀ k e, k < n → ¬ crashes (accepts k) e) →
  n < fuel →
  run fuel (Ok ()) is_set accepts queue
  = Stopped (queue ++ omap delivered (first_passes accepts n)).
Proof.
  intros Hrun Hstop Hok Hfuel. unfold run, first_passes.
  replace fuel with (n + S (fuel - S n)) by lia.
  rewrite serve_passes by done. simpl. by rewrite Hstop.
Qed.

(** X3.  An exception other than a timeout ends the receiver thread: the
    messages queued before it stay, and no later connection is accepted. *)
Theorem receiver_dies_on_other_exception (is_set : nat → bool)
    (accepts : nat → accept_result) (queue : list bytes) (n fuel : nat)
    (e : exn) :
  (∀ k, (k ≤ n)%nat → is_set k = false) →
  (∀ k e', k < n → ¬ crashes (accepts k) e') →
  crashes (accepts n) e →
  n < fuel →
  run fuel (Ok ()) is_set accepts queue
  = Crashed e (queue ++ omap delivered (first_passes accepts n)).
Proof.
  intros Hrun Hok Hcrash Hfuel. unfold run, first_passes.
  replace fuel with (n + S (fuel - S n)) by lia.
  rewrite serve_passes; [|intros; apply Hrun; lia|done]. simpl.
  rewrite Hrun by lia. rewrite recv_on_queue.
  unfold crashes in Hcrash.
  destruct (_recv (accepts n) []) as [status data] eqn:Hrecv.
  simpl in Hcrash. subst status. simpl.
  destruct (accepts n) as [conn| |e']; simpl in Hrecv.
  - destruct (read_packets conn []) as [[| |e'] data'];
      simplify_eq. by rewrite app_nil_r.
  - done.
  - simplify_eq. by rewrite app_nil_r.
Qed.

End receiver.

Lemma recv_reassembles_payload_witness :
  SocketServer._recv (scenario.arrivals 0) ["first"]
  = (SocketServer.Done, ["first"; "svc_a"])
  ∧ SocketServer._recv (scenario.arrivals 2) ["first"]
    = (SocketServer.Done, ["first"; "exit"]).
Proof.
  split.
  - refine (proj1 (recv_reassembles_payload ["sv"; "c_a"] [] ["first"] _)).
    by repeat constructor.
  - refine (proj2 (recv_reassembles_payload ["exit"]
                     [SocketServer.Packet "late"] ["first"] _)).
    by repeat constructor.
Defined.

Lemma receiver_queues_messages_in_order_witness :
  SocketServer.run 5 (Ok ()) (scenario.set_after 3) scenario.arrivals
    ["first"]
  = SocketServer.Stopped ["first"; "svc_a"; "exit"].
Proof.
  refine (receiver_queues_messages_in_order (scenario.set_after 3)
            scenario.arrivals ["first"] 3 5 _ _ _ _).
  - intros k Hk. apply bool_decide_eq_false_2. lia.
  - reflexivity.
  - intros k e Hk Hcrash. destruct k as [|[|[|k]]]; [| | |lia];
      by vm_compute in Hcrash.
  - lia.
Defined.

Lemma receiver_dies_on_other_exception_witness :
  SocketServer.run 5 (Ok ()) (scenario.set_after 3)
    scenario.broken_listener ["first"]
  = SocketServer.Crashed OSError ["first"; "svc_a"].
Proof.
  refine (receiver_dies_on_other_exception (scenario.set_after 3)
            scenario.broken_listener ["first"] 1 5 OSError _ _ _ _).
  - intros k Hk. apply bool_decide_eq_false_2. lia.
  - intros k e Hk Hcrash. destruct k as [|k]; [|lia].
    by vm_compute in Hcrash.
  - reflexivity.
  - lia.
Defined.

(** ** The sender *)

Section sender.
Import socket.

Lemma send_loop_raised fuel net data k tr e tr' :
  send_loop fuel net data k tr = Raised e tr' ↔
  ∃ n, n < fuel
       ∧ (∀ j, j < n → connection_failure (net (k + j)))
       ∧ e ≠ OSError
       ∧ (net (k + n) = ConnectRaises e ∨ net (k + n) = SendallRaises e)
       ∧ tr' = tr ++ retries data net k n
                  ++ failure_events data (net (k + n)).
Proof.
  revert k tr tr'. induction fuel as [|fuel IH]; intros k tr tr'; simpl.
  { split; [done|]. intros (n & Hn & _). lia. }
  split.
  - destruct (net k) as [e0|e0|] eqn:Hk; [| |done].
    + destruct (caught e0) eqn:Hc.
      * apply caught_iff in Hc as ->.
        intros (n & Hn & Hfail & Hne & Hlast & ->)%IH. exists (S n).
        split; [lia|]. split.
        { intros [|j] Hj; [rewrite Nat.add_0_r, Hk; by left|].
          replace (k + S j) with (S k + j) by lia. apply Hfail. lia. }
        split; [done|]. replace (k + S n) with (S k + n) by lia.
        split; [done|]. simpl. rewrite Hk. simpl. by rewrite <- !app_assoc.
      * intros [= <- <-]. exists 0. rewrite Nat.add_0_r, Hk.
        split; [lia|]. split; [intros j Hj; lia|].
        split; [intros ->; by rewrite (proj2 (caught_iff OSError)) in Hc|].
        split; [by left|]. done.
    + destruct (caught e0) eqn:Hc.
      * apply caught_iff in Hc as ->.
        intros (n & Hn & Hfail & Hne & Hlast & ->)%IH. exists (S n).
        split; [lia|]. split.
        { intros [|j] Hj; [rewrite Nat.add_0_r, Hk; by right|].
          replace (k + S j) with (S k + j) by lia. apply Hfail. lia. }
        split; [done|]. replace (k + S n) with (S k + n) by lia.
        split; [done|]. simpl. rewrite Hk. simpl. by rewrite <- !app_assoc.
      * intros [= <- <-]. exists 0. rewrite Nat.add_0_r, Hk.
        split; [lia|]. split; [intros j Hj; lia|].
        split; [intros ->; by rewrite (proj2 (caught_iff OSError)) in Hc|].
        split; [by right|]. done.
  - intros (n & Hn & Hfail & Hne & Hlast & Htr). subst tr'.
    assert (Hnc : caught e = false).
    { destruct (caught e) eqn:Hc; [|done]. by apply caught_iff in Hc. }
    destruct n as [|n].
    + rewrite Nat.add_0_r in *. simpl.
      destruct Hlast as [-> | ->]; by rewrite Hnc.
    + assert (Hk : connection_failure (net k)).
      { rewrite <- (Nat.add_0_r k). apply Hfail. lia. }
      assert (Hrest : send_loop fuel net data (S k)
                        (tr ++ failure_events data (net k) ++ [ESleep 1])
                      = Raised e
                          ((tr ++ failure_events data (net k) ++ [ESleep 1])
                           ++ retries data net (S k) n
                           ++ failure_events data (net (S k + n)))).
      { apply IH. exists n. split; [lia|]. split.
        { intros j Hj. replace (S k + j) with (k + S j) by lia.
          apply Hfail. lia. }
        split; [done|]. split; [|done].
        by replace (S k + n) with (k + S n) by lia. }
      replace (S k + n) with (k + S n) in Hrest by lia.
      destruct Hk as [Hk | Hk]; simpl; rewrite !Hk; rewrite Hk in Hrest;
        simpl in *; rewrite Hrest; by rewrite <- !app_assoc.
Qed.

(** X4.  An exception leaves [send] in two cases only: the socket could
    not be created, and then no attempt is made; or an attempt raised
    something other than [OSError], every attempt before it having been a
    connection failure followed by its sleep.  Such an exception is not
    retried. *)
Theorem send_raises_iff (fuel : nat) (created : result unit) (net : network)
    (data : bytes) (e : exn) (tr : list event) :
  send fuel created net data = Raised e tr ↔
  (created = Raise e ∧ tr = [])
  ∨ (created = Ok ()
     ∧ ∃ n, n < fuel
            ∧ (∀ j, j < n → connection_failure (net j))
            ∧ e ≠ OSError
            ∧ (net n = ConnectRaises e ∨ net n = SendallRaises e)
            ∧ tr = retries data net 0 n ++ failure_events data (net n)).
Proof.
  unfold send. destruct created as [[]|e0].
  - rewrite send_loop_raised. simpl. split.
    + intros H. right. by split.
    + by intros [[? _]|[_ H]].
  - split.
    + intros [= <- <-]. by left.
    + by intros [[[= <-] ->]|[? _]].
Qed.

End sender.

Lemma send_raises_iff_witness :
  socket.send 3 (Ok ()) scenario.broken_network "exit"
  = socket.Raised TypeError
      [socket.EConnect false; socket.ESleep 1;
       socket.EConnect true; socket.ESendall "exit" false].
Proof.
  apply (proj2 (send_raises_iff 3 (Ok ()) scenario.broken_network "exit"
                  TypeError _)).
  right. split; [reflexivity|]. exists 1. split; [lia|].
  split.
  { intros j Hj. destruct j as [|j]; [|lia]. by left. }
  split; [discriminate|]. split; [by right|reflexivity].
Defined.

(** ** The service's main thread *)

Section main_thread.
Import Service.

Lemma covers_app_l fi more deps : covers fi deps → covers (fi ++ more) deps.
Proof. unfold covers. rewrite list_to_set_app_L. set_solver. Qed.

Lemma wait_loop_blocked deps q fi0 alive tr fi s' :
  wait_loop deps fi0 q alive tr = (Blocked, fi, s') ↔
  ∃ messages,
    decoded q messages ∧ fi = fi0 ++ messages
    ∧ (messages = [] ∨ ¬ covers fi deps)
    ∧ s' = {| recv_queue := []; server_alive := alive;
              trace := tr ++ (Get <$> q) |}.
Proof.
  revert fi0 tr. induction q as [|data q IH]; intros fi0 tr; simpl.
  { split.
    - intros [= <- <-]. exists []. rewrite !app_nil_r.
      split; [constructor|]. split; [done|]. split; [by left|done].
    - intros (messages & Hdec & -> & _ & ->). inversion Hdec; subst.
      by rewrite !app_nil_r. }
  destruct (decode data) as [m|e] eqn:Hdata.
  2:{ split; [done|]. intros (messages & Hdec & _).
      inversion Hdec; subst. congruence. }
  case_bool_decide as Hcov.
  - split; [done|]. intros (messages & Hdec & -> & Hnot & _).
    inversion Hdec as [|? m' ? ms Hd Hrest]; subst.
    assert (m' = m) as -> by congruence.
    destruct Hnot as [?|Hnot]; [done|]. exfalso. apply Hnot.
    rewrite (cons_middle m fi0 ms), (assoc_L (++) fi0 [m]).
    by apply covers_app_l.
  - rewrite IH. split.
    + intros (messages & Hdec & -> & Hnot & ->). exists (m :: messages).
      split; [by constructor|]. split; [by rewrite <- app_assoc|].
      split; [|by rewrite <- app_assoc].
      right. destruct Hnot as [-> | Hnot]; [by rewrite app_nil_r|done].
    + intros (messages & Hdec & -> & Hnot & ->).
      inversion Hdec as [|? m' ? ms Hd Hrest]; subst.
      assert (m' = m) as -> by congruence. exists ms.
      split; [done|]. split; [by rewrite <- app_assoc|].
      split; [|by rewrite <- app_assoc].
      destruct Hnot as [?|Hnot]; [done|]. by right.
Qed.

(** X5.  The barrier waits for ever exactly when some dependency is
    declared, every message that arrives decodes, and the messages that
    arrive never include all the dependencies; it has then taken every
    message out of the queue. *)
Theorem wait_dependencies_blocks_iff (self : t) (s : state)
    (finished_init : list str) (s' : state) :
  _wait_dependencies self s = (Blocked, finished_init, s') ↔
  DEPENDENCIES (cfg self) ≠ []
  ∧ decoded (recv_queue s) finished_init
  ∧ ¬ covers finished_init (DEPENDENCIES (cfg self))
  ∧ s' = {| recv_queue := []; server_alive := server_alive s;
            trace := trace s ++ (Get <$> recv_queue s) |}.
Proof.
  unfold _wait_dependencies. case_bool_decide as Hlen.
  - apply nil_length_inv in Hlen. split; [done|]. by intros [? _].
  - assert (Hne : DEPENDENCIES (cfg self) ≠ []).
    { intros Hnil. by rewrite Hnil in Hlen. }
    assert (Hnot : ¬ covers [] (DEPENDENCIES (cfg self))).
    { unfold covers. destruct (DEPENDENCIES (cfg self)); [done|]. set_solver. }
    rewrite wait_loop_blocked. simpl. split.
    + intros (messages & Hdec & -> & Hcov & ->).
      split; [done|]. split; [done|]. split; [|done].
      by destruct Hcov as [-> | ?].
    + intros (_ & Hdec & Hcov & ->). exists finished_init.
      split; [done|]. split; [done|]. split; [by right|done].
Qed.

Lemma run_interface_loop_blocked q alive tr :
  Forall other_message q →
  run_interface_loop q alive tr =
    (Blocked, {| recv_queue := []; server_alive := alive;
                 trace := tr ++ (Get <$> q) |}).
Proof.
  intros Hother. revert tr.
  induction Hother as [|data q (m & Hm & Hne) _ IH]; intros tr; simpl.
  - by rewrite app_nil_r.
  - rewrite Hm, bool_decide_eq_false_2 by done.
    rewrite IH. by rewrite <- app_assoc.
Qed.

(** X6.  What the barrier pulled is gone: when the interface is built, the
    service has told every peer its name and the messages left in the queue after the
    barrier are all other than [exit], the interface service waits for
    ever without stopping its loop thread or its receiver, also when an
    [exit] was among the messages the barrier pulled. *)
Theorem exit_pulled_by_barrier_is_lost (w : world) (self : t)
    (s s1 : state) (finished_init : list str) (iface : Interface.t) :
  SERVICE_TYPE (cfg self) = "Interface" →
  _wait_dependencies self s = (Returned, finished_init, s1) →
  interface_builds w →
  Interface.__init__ (service_name self) (SERVICE (cfg self)) = Ok iface →
  broadcast_returns w self (service_name self)
    (trace s1 ++ [InterfaceInit]) →
  Forall other_message (recv_queue s1) →
  __call__ w self s
  = (Blocked,
     {| recv_queue := []; server_alive := server_alive s1;
        trace := trace s1 ++ launch_events self ++ (Get <$> recv_queue s1) |}).
Proof.
  intros Htype Hwait Hbuilds Hinit Hsends Hother.
  unfold __call__. rewrite Hwait, Htype. simpl.
  unfold _run_interface.
  rewrite build_interface_builds by done. rewrite Hinit.
  rewrite send_message_returns by done.
  rewrite run_interface_loop_blocked by done.
  unfold launch_events. simpl.
  by rewrite <- !app_assoc.
Qed.

Lemma send_each_stops w data clients tr k :
  k < length clients →
  (∀ j, j < k →
     sends w (tr ++ take (S j) ((λ client, Send client.1 data) <$> clients))
     = SendReturns) →
  sends w (tr ++ take (S k) ((λ client, Send client.1 data) <$> clients))
  ≠ SendReturns →
  send_each w data clients tr
  = (match
       sends w (tr ++ take (S k) ((λ client, Send client.1 data) <$> clients))
     with
     | SendRaises e => Raised e
     | _ => Blocked
     end,
     tr ++ take (S k) ((λ client, Send client.1 data) <$> clients)).
Proof.
  revert tr k. induction clients as [|client clients IH]; intros tr k Hk;
    [simpl in Hk; lia|].
  destruct k as [|k]; intros Hbefore Hstops.
  - rewrite fmap_cons, firstn_cons, take_0 in *. simpl.
    by destruct (sends w (tr ++ [Send client.1 data])).
  - pose proof (Hbefore 0 ltac:(lia)) as Hfirst.
    rewrite fmap_cons, firstn_cons, take_0 in Hfirst.
    assert (Heq :
      tr ++ take (S (S k))
              ((λ client, Send client.1 data) <$> client :: clients)
      = (tr ++ [Send client.1 data])
        ++ take (S k) ((λ client, Send client.1 data) <$> clients))
      by (by rewrite <- app_assoc).
    rewrite Heq in Hstops |- *.
    simpl send_each. rewrite Hfirst.
    apply IH; [simpl in Hk; lia| |done].
    intros j Hj. rewrite <- app_assoc. apply (Hbefore (S j)). lia.
Qed.

(** X23.  A peer that does not answer keeps the workload down: when the
    interface is built and the [send] of the service's name to one of the
    peers does not return, those before it having returned, the interface
    service has made those calls of [send] and nothing else: it has not
    started its loop thread, has taken nothing from its queue and has not
    stopped its receiver.  It stays in that [send] for ever if the [send]
    retries for ever, and ends with its exception if it raises. *)
Theorem unanswered_send_keeps_workload_down (w : world) (self : t)
    (s s1 : state) (finished_init : list str) (iface : Interface.t)
    (k : nat) :
  SERVICE_TYPE (cfg self) = "Interface" →
  _wait_dependencies self s = (Returned, finished_init, s1) →
  interface_builds w →
  Interface.__init__ (service_name self) (SERVICE (cfg self)) = Ok iface →
  k < length (socket_clients self) →
  (∀ j, j < k →
     sends w ((trace s1 ++ [InterfaceInit])
              ++ take (S j) (broadcast self (service_name self)))
     = SendReturns) →
  sends w ((trace s1 ++ [InterfaceInit])
           ++ take (S k) (broadcast self (service_name self)))
  ≠ SendReturns →
  __call__ w self s
  = (match
       sends w ((trace s1 ++ [InterfaceInit])
                ++ take (S k) (broadcast self (service_name self)))
     with
     | SendRaises e => Raised e
     | _ => Blocked
     end,
     with_trace s1
       ((trace s1 ++ [InterfaceInit])
        ++ take (S k) (broadcast self (service_name self)))).
Proof.
  intros Htype Hwait Hbuilds Hinit Hk Hbefore Hstops.
  unfold __call__. rewrite Hwait, Htype. simpl.
  unfold _run_interface, _send_message.
  rewrite build_interface_builds by done. rewrite Hinit.
  rewrite (send_each_stops _ _ _ _ k Hk Hbefore Hstops).
  fold (broadcast self (service_name self)).
  by destruct (sends w _).
Qed.

Lemma wait_loop_trace deps q fi0 alive tr status fi s' :
  wait_loop deps fi0 q alive tr = (status, fi, s') →
  ∃ pulled,
    q = pulled ++ recv_queue s' ∧ server_alive s' = alive
    ∧ trace s' = tr ++ (Get <$> pulled).
Proof.
  revert fi0 tr. induction q as [|data q IH]; intros fi0 tr; simpl.
  { intros [= <- <- <-]. exists []. simpl. by rewrite app_nil_r. }
  destruct (decode data) as [m|e].
  - case_bool_decide.
    + intros [= <- <- <-]. by exists [data].
    + intros (pulled & -> & Hal & Htr)%IH. exists (data :: pulled).
      split; [done|]. split; [done|]. rewrite Htr. simpl.
      by rewrite <- app_assoc.
  - intros [= <- <- <-]. by exists [data].
Qed.

Lemma run_interface_loop_trace q alive tr status s' :
  run_interface_loop q alive tr = (status, s') →
  ∃ pulled new,
    q = pulled ++ recv_queue s' ∧ server_alive s' = alive
    ∧ trace s' = tr ++ new ∧ Forall plain_event new.
Proof.
  revert tr. induction q as [|data q IH]; intros tr; simpl.
  { intros [= <- <-]. exists [], []. simpl. by rewrite app_nil_r. }
  destruct (decode data) as [m|e].
  - case_bool_decide.
    + intros [= <- <-]. exists [data], [Get data; ThreadStop]. simpl.
      split; [done|]. split; [done|]. split; [by rewrite <- app_assoc|].
      by repeat constructor.
    + intros (pulled & new & -> & Hal & Htr & Hplain)%IH.
      exists (data :: pulled), (Get data :: new).
      split; [done|]. split; [done|]. split.
      * rewrite Htr. by rewrite <- app_assoc.
      * by repeat constructor.
  - intros [= <- <-]. exists [data], [Get data].
    split; [done|]. split; [done|]. split; [done|]. by repeat constructor.
Qed.

Lemma plain_events_spec new :
  Forall plain_event new → (ThreadJoin ∉ new) ∧ (ServerStop ∉ new).
Proof.
  rewrite Forall_forall. intros Hplain.
  split; intros Hin; by destruct (Hplain _ Hin).
Qed.

Lemma plain_get pulled : Forall plain_event (Get <$> pulled).
Proof. induction pulled; by repeat constructor. Qed.

Lemma send_each_trace w data clients tr status tr' :
  send_each w data clients tr = (status, tr') →
  ∃ new, tr' = tr ++ new ∧ Forall plain_event new.
Proof.
  revert tr. induction clients as [|client clients IH]; intros tr; simpl.
  { intros [= <- <-]. exists []. by rewrite app_nil_r. }
  destruct (sends w _).
  - intros (new & -> & Hplain)%IH. exists (Send client.1 data :: new).
    split; [by rewrite <- app_assoc|]. by repeat constructor.
  - intros [= <- <-]. eexists. split; [done|]. by repeat constructor.
  - intros [= <- <-]. eexists. split; [done|]. by repeat constructor.
Qed.

Lemma run_interface_trace w self s status s' :
  _run_interface w self s = (status, s') →
  ∃ pulled new,
    recv_queue s = pulled ++ recv_queue s' ∧ server_alive s' = server_alive s
    ∧ trace s' = trace s ++ new ∧ Forall plain_event new.
Proof.
  unfold _run_interface, _send_message.
  destruct (build_interface _ _ _).
  2:{ intros [= <- <-]. exists [], []. simpl. by rewrite app_nil_r. }
  destruct (send_each _ _ _ _) as [sent tr] eqn:Hsend.
  apply send_each_trace in Hsend as (sends & -> & Hsends).
  assert (Hstopped : ∀ stopped,
            (stopped, with_trace s ((trace s ++ [InterfaceInit]) ++ sends))
            = (status, s') →
            ∃ pulled new,
              recv_queue s = pulled ++ recv_queue s'
              ∧ server_alive s' = server_alive s
              ∧ trace s' = trace s ++ new ∧ Forall plain_event new).
  { intros stopped [= <- <-]. exists [], ([InterfaceInit] ++ sends). simpl.
    split; [done|]. split; [done|]. split; [by rewrite <- app_assoc|].
    constructor; [by split|done]. }
  destruct sent; [|by apply Hstopped|by apply Hstopped].
  intros (pulled & new & Hq & Hal & Htr & Hplain)%run_interface_loop_trace.
  exists pulled, ([InterfaceInit] ++ sends ++ [ThreadStart] ++ new).
  split; [done|]. split; [done|]. split.
  - rewrite Htr. by rewrite <- !app_assoc.
  - apply Forall_app. split; [by repeat constructor|].
    apply Forall_app. split; [done|].
    apply Forall_app. split; [by repeat constructor|done].
Qed.

Lemma run_dashboard_trace w self s status s' :
  _run_dashboard w self s = (status, s') →
  ∃ new,
    recv_queue s' = recv_queue s ∧ server_alive s' = server_alive s
    ∧ trace s' = trace s ++ new ∧ Forall plain_event new.
Proof.
  unfold _run_dashboard, _send_message.
  destruct (Interface._check_cfg _).
  2:{ intros [= <- <-]. exists []. by rewrite app_nil_r. }
  destruct (dashboard_built w).
  2:{ intros [= <- <-]. exists []. by rewrite app_nil_r. }
  destruct (send_each _ _ _ _) as [sent tr] eqn:Hsend.
  apply send_each_trace in Hsend as (sends & -> & Hsends).
  assert (Hinit : Forall plain_event ([DashboardInit] ++ sends)).
  { apply Forall_app. split; [by repeat constructor|done]. }
  assert (Hstopped : ∀ stopped,
            (stopped, with_trace s ((trace s ++ [DashboardInit]) ++ sends))
            = (status, s') →
            ∃ new,
              recv_queue s' = recv_queue s ∧ server_alive s' = server_alive s
              ∧ trace s' = trace s ++ new ∧ Forall plain_event new).
  { intros stopped [= <- <-]. exists ([DashboardInit] ++ sends).
    cbn [with_trace recv_queue server_alive trace].
    split; [done|]. split; [done|]. split; [by rewrite <- app_assoc|done]. }
  destruct sent; [|by apply Hstopped|by apply Hstopped]. clear Hstopped.
  assert (Hcalled : ∀ stopped,
            (stopped,
             with_trace s
               (((trace s ++ [DashboardInit]) ++ sends) ++ [DashboardCall]))
            = (status, s') →
            ∃ new,
              recv_queue s' = recv_queue s ∧ server_alive s' = server_alive s
              ∧ trace s' = trace s ++ new ∧ Forall plain_event new).
  { intros stopped [= <- <-].
    exists (([DashboardInit] ++ sends) ++ [DashboardCall]).
    cbn [with_trace recv_queue server_alive trace].
    split; [done|]. split; [done|]. split; [by rewrite <- !app_assoc|].
    apply Forall_app. split; [done|]. by repeat constructor. }
  destruct (dashboard_called w); [|by apply Hcalled|by apply Hcalled].
  destruct (send_each _ _ _ _) as [sent tr] eqn:Hsend.
  apply send_each_trace in Hsend as (exits & -> & Hexits).
  intros [= <- <-].
  exists ((([DashboardInit] ++ sends) ++ [DashboardCall]) ++ exits).
  cbn [with_trace recv_queue server_alive trace].
  split; [done|]. split; [done|]. split; [by rewrite <- !app_assoc|].
  apply Forall_app. split; [|done].
  apply Forall_app. split; [done|]. by repeat constructor.
Qed.

(** X7.  Whatever arrives and whatever the peers and the dashboard do, the
    main thread never joins the loop thread, and it stops the receiver in
    one case only: the workload returned and the receiver thread is alive.
    An exception or a wait without end leaves the receiver running.  The
    messages it took are a prefix of the queue. *)
Theorem receiver_stopped_only_on_return (w : world) (self : t)
    (s s' : state) (status : status) :
  __call__ w self s = (status, s') →
  ∃ pulled new,
    recv_queue s = pulled ++ recv_queue s'
    ∧ trace s' = trace s ++ new
    ∧ (ThreadJoin ∉ new)
    ∧ (ServerStop ∈ new ↔ status = Returned ∧ server_alive s = true).
Proof.
  unfold __call__.
  destruct (_wait_dependencies self s) as [[wstatus fi] s1] eqn:Hwait.
  assert (Hw : ∃ pulled, recv_queue s = pulled ++ recv_queue s1
                         ∧ server_alive s1 = server_alive s
                         ∧ trace s1 = trace s ++ (Get <$> pulled)).
  { unfold _wait_dependencies in Hwait. case_bool_decide.
    - injection Hwait as <- <- <-. exists []. simpl. by rewrite app_nil_r.
    - by apply wait_loop_trace in Hwait. }
  destruct Hw as (pulled & Hq & Hal & Htr).
  assert (Hstop : ∀ status', status' ≠ Returned →
            (status', s1) = (status, s') →
            ∃ pulled new,
              recv_queue s = pulled ++ recv_queue s'
              ∧ trace s' = trace s ++ new
              ∧ (ThreadJoin ∉ new)
              ∧ (ServerStop ∈ new ↔ status = Returned ∧ server_alive s = true)).
  { intros status' Hne [= <- <-]. exists pulled, (Get <$> pulled).
    split; [done|]. split; [done|].
    destruct (plain_events_spec _ (plain_get pulled)) as [Hj Hs].
    split; [done|]. split; [done|]. by intros [? _]. }
  destruct wstatus; [|by apply Hstop|by apply Hstop]. clear Hstop.
  assert (Hlaunch : ∀ lstatus s2,
            (if bool_decide (SERVICE_TYPE (cfg self) = "Interface")
             then _run_interface w self s1
             else if bool_decide (SERVICE_TYPE (cfg self) = "Dashboard")
             then _run_dashboard w self s1
             else (Raised ValueError, s1)) = (lstatus, s2) →
            ∃ pulled2 new,
              recv_queue s1 = pulled2 ++ recv_queue s2
              ∧ server_alive s2 = server_alive s1
              ∧ trace s2 = trace s1 ++ new ∧ Forall plain_event new).
  { intros lstatus s2. case_bool_decide; [|case_bool_decide].
    - apply run_interface_trace.
    - intros (new & Hq2 & Hal2 & Htr2 & Hplain)%run_dashboard_trace.
      exists [], new. simpl. by rewrite Hq2.
    - intros [= <- <-]. exists [], []. simpl. by rewrite app_nil_r. }
  match goal with
  | |- context [match ?c with _ => _ end] =>
    destruct c as [lstatus s2] eqn:Hl
  end.
  destruct (Hlaunch _ _ eq_refl) as (pulled2 & new & Hq2 & Hal2 & Htr2 & Hplain).
  assert (Hall : Forall plain_event ((Get <$> pulled) ++ new)).
  { apply Forall_app. split; [apply plain_get|done]. }
  destruct (plain_events_spec _ Hall) as [Hj Hs].
  destruct lstatus.
  - intros [= <- <-]. exists (pulled ++ pulled2). unfold exit.
    rewrite Hal2, Hal. destruct (server_alive s); simpl.
    + exists (((Get <$> pulled) ++ new) ++ [ServerStop]).
      split; [by rewrite Hq, Hq2, <- app_assoc|].
      split; [by rewrite Htr2, Htr, <- !app_assoc|].
      split.
      * rewrite elem_of_app, list_elem_of_singleton. by intros [?|?].
      * split; [done|]. intros _. rewrite elem_of_app. right. by left.
    + exists ((Get <$> pulled) ++ new).
      split; [by rewrite Hq, Hq2, <- app_assoc|].
      split; [by rewrite Htr2, Htr, <- !app_assoc|].
      split; [done|]. split; [done|]. by intros [_ ?].
  - intros [= <- <-]. exists (pulled ++ pulled2), ((Get <$> pulled) ++ new).
    split; [by rewrite Hq, Hq2, <- app_assoc|].
    split; [by rewrite Htr2, Htr, <- !app_assoc|].
    split; [done|]. split; [done|]. by intros [? _].
  - intros [= <- <-]. exists (pulled ++ pulled2), ((Get <$> pulled) ++ new).
    split; [by rewrite Hq, Hq2, <- app_assoc|].
    split; [by rewrite Htr2, Htr, <- !app_assoc|].
    split; [done|]. split; [done|]. by intros [? _].
Qed.


(** X9.  A dashboard service that passed its barrier, whose dashboard is
    built and in time closed and whose every [send] returns, sends its
    name to every other service of the port table, runs the dashboard,
    sends [exit] to the same services, and only then stops its receiver;
    it takes nothing more from its inbound queue. *)
Theorem dashboard_announces_ready_then_exit (w : world) (name : str)
    (cfg : cfg_t) (ports : list (str * Z)) (self : t) (s s1 : state)
    (finished_init : list str) :
  __init__ name cfg ports = Ok self →
  SERVICE_TYPE cfg = "Dashboard" →
  Interface._check_cfg (SERVICE cfg) = Ok () →
  dashboard_built w = Ok () →
  dashboard_called w = Returned →
  _wait_dependencies self s = (Returned, finished_init, s1) →
  broadcast_returns w self name (trace s1 ++ [DashboardInit]) →
  broadcast_returns w self "exit"
    ((trace s1 ++ [DashboardInit]) ++ broadcast self name
     ++ [DashboardCall]) →
  __call__ w self s
  = (Returned,
     {| recv_queue := recv_queue s1;
        server_alive := server_alive s1;
        trace :=
          trace s1 ++ [DashboardInit]
          ++ ((λ p, Send p.1 (encode name)) <$> filter (λ p, p.1 ≠ name) ports)
          ++ [DashboardCall]
          ++ ((λ p, Send p.1 (encode "exit"))
              <$> filter (λ p, p.1 ≠ name) ports)
          ++ (if server_alive s1 then [ServerStop] else []) |}).
Proof.
  unfold __init__. destruct (_get_socket_server name ports); [|done].
  intros [= <-] Htype Hcheck Hbuilt Hcalled Hwait Hname Hexit.
  unfold __call__. rewrite Hwait. simpl. rewrite Htype. simpl.
  unfold _run_dashboard. simpl. rewrite Hcheck, Hbuilt.
  rewrite send_message_returns by done. rewrite Hcalled.
  rewrite <- (assoc_L (++) _ _ [DashboardCall]).
  rewrite send_message_returns by done.
  unfold exit, with_trace, broadcast, _get_socket_clients. simpl.
  destruct (server_alive s1); simpl; rewrite <- ?app_assoc; simpl;
    rewrite <- ?app_assoc; simpl; by rewrite ?app_nil_r.
Qed.

End main_thread.

(** ** The loop thread *)

Section loop_thread.
Import Service.


Lemma thread_run_passes env is_set n fuel p s sn :
  (∀ k, k < n → is_set (p + k) = false) →
  passes env n s = (Ok (), sn) →
  InterfaceThread_run env is_set (n + fuel) p s
  = InterfaceThread_run env is_set fuel (p + n) sn.
Proof.
  revert p s. induction n as [|n IH]; intros p s Hrun; simpl.
  { intros [= <-]. by rewrite Nat.add_0_r. }
  assert (Hp : is_set p = false).
  { rewrite <- (Nat.add_0_r p). apply Hrun. lia. }
  rewrite Hp.
  destruct (Interface.__call__ env None None None s) as [[v|e] s1];
    [|done].
  intros Hpasses. rewrite (IH (S p) s1); [|intros k Hk|done].
  - by replace (S p + n) with (p + S n) by lia.
  - replace (S p + k) with (p + S k) by lia. apply Hrun. lia.
Qed.


(** X11.  A pass that raises ends the loop thread there: the state is the
    one the failed call left, so the interface's [exit] is not called, no
    model is told to exit and the exporter is not joined. *)
Theorem loop_thread_dies_without_exit (env : collaborators)
    (is_set : nat → bool) (n fuel : nat) (s sn s' : Interface.state)
    (e : exn) :
  (∀ k, (k ≤ n)%nat → is_set k = false) →
  passes env n s = (Ok (), sn) →
  Interface.__call__ env None None None sn = (Raise e, s') →
  n < fuel →
  InterfaceThread_run env is_set fuel 0 s = Died e n s'.
Proof.
  intros Hrun Hpasses Hcall Hfuel.
  replace fuel with (n + S (fuel - S n)) by lia.
  rewrite (thread_run_passes env is_set n _ 0 s sn);
    [|intros; apply Hrun; lia|done].
  simpl. rewrite Hrun by lia. by rewrite Hcall.
Qed.

End loop_thread.

Lemma wait_dependencies_blocks_iff_witness :
  Service._wait_dependencies (sample.service ["svc_a"])
    (sample.inbox ["hello"; "svc_c"])
  = (Service.Blocked, ["hello"; "svc_c"],
     {| Service.recv_queue := [];
        Service.server_alive := true;
        Service.trace := [Service.Get "hello"; Service.Get "svc_c"] |}).
Proof.
  apply (proj2 (wait_dependencies_blocks_iff (sample.service ["svc_a"])
                  (sample.inbox ["hello"; "svc_c"]) ["hello"; "svc_c"] _)).
  split; [discriminate|]. split.
  { by repeat constructor. }
  split; [|reflexivity].
  intros Hcovers.
  assert (Hdep : "svc_a" ∈ (list_to_set ["svc_a"] : gset string)).
  { apply elem_of_list_to_set, list_elem_of_In. by left. }
  apply (Hcovers "svc_a") in Hdep.
  apply elem_of_list_to_set, list_elem_of_In in Hdep.
  by destruct Hdep as [|[|[]]].
Defined.

Lemma exit_pulled_by_barrier_is_lost_witness :
  Service.__call__ sample.listening (sample.service ["svc_a"])
    (sample.inbox ["exit"; "svc_a"; "hello"])
  = (Service.Blocked,
     {| Service.recv_queue := [];
        Service.server_alive := true;
        Service.trace :=
          [Service.Get "exit"; Service.Get "svc_a"]
          ++ launch_events (sample.service ["svc_a"])
          ++ [Service.Get "hello"] |}).
Proof.
  refine (exit_pulled_by_barrier_is_lost sample.listening
            (sample.service ["svc_a"])
            (sample.inbox ["exit"; "svc_a"; "hello"])
            {| Service.recv_queue := ["hello"];
               Service.server_alive := true;
               Service.trace := [Service.Get "exit"; Service.Get "svc_a"] |}
            ["exit"; "svc_a"] (sample.interface "simulate_stream")
            _ _ _ _ _ _).
  - reflexivity.
  - by vm_compute.
  - by split.
  - by vm_compute.
  - by intros k Hk.
  - constructor; [|constructor]. exists "hello". by split.
Defined.

Lemma unanswered_send_keeps_workload_down_witness :
  Service.__call__ scenario.peer_down (sample.service ["svc_a"])
    (sample.inbox ["svc_a"; "exit"])
  = (Service.Blocked,
     {| Service.recv_queue := ["exit"];
        Service.server_alive := true;
        Service.trace :=
          [Service.Get "svc_a"; Service.InterfaceInit;
           Service.Send "svc_a" "svc_b"] |}).
Proof.
  refine (unanswered_send_keeps_workload_down scenario.peer_down
            (sample.service ["svc_a"]) (sample.inbox ["svc_a"; "exit"])
            {| Service.recv_queue := ["exit"];
               Service.server_alive := true;
               Service.trace := [Service.Get "svc_a"] |}
            ["svc_a"] (sample.interface "simulate_stream") 0
            _ _ _ _ _ _ _).
  - reflexivity.
  - by vm_compute.
  - by split.
  - by vm_compute.
  - by vm_compute.
  - intros j Hj. lia.
  - discriminate.
Defined.

Lemma receiver_stopped_only_on_return_witness :
  ∃ pulled new,
    ["svc_a"; "hello"; "exit"; "late"] = pulled ++ ["late"]
    ∧ [Service.Get "svc_a"] ++ launch_events (sample.service ["svc_a"])
      ++ [Service.Get "hello"; Service.Get "exit"; Service.ThreadStop;
          Service.ServerStop]
      = [] ++ new
    ∧ (Service.ThreadJoin ∉ new)
    ∧ (Service.ServerStop ∈ new
       ↔ Service.Returned = Service.Returned ∧ true = true).
Proof.
  refine (receiver_stopped_only_on_return sample.listening
            (sample.service ["svc_a"])
            (sample.inbox ["svc_a"; "hello"; "exit"; "late"])
            {| Service.recv_queue := ["late"];
               Service.server_alive := true;
               Service.trace :=
                 [Service.Get "svc_a"]
                 ++ launch_events (sample.service ["svc_a"])
                 ++ [Service.Get "hello"; Service.Get "exit";
                     Service.ThreadStop; Service.ServerStop] |}
            Service.Returned _).
  by vm_compute.
Defined.


Lemma dashboard_announces_ready_then_exit_witness :
  Service.__call__ sample.listening scenario.dashboard
    (sample.inbox ["svc_a"; "late"])
  = (Service.Returned,
     {| Service.recv_queue := ["late"];
        Service.server_alive := true;
        Service.trace :=
          [Service.Get "svc_a"; Service.DashboardInit;
           Service.Send "svc_a" "board"; Service.Send "svc_b" "board";
           Service.DashboardCall;
           Service.Send "svc_a" "exit"; Service.Send "svc_b" "exit";
           Service.ServerStop] |}).
Proof.
  refine (eq_trans
            (dashboard_announces_ready_then_exit sample.listening "board"
               scenario.dashboard_cfg scenario.ports scenario.dashboard
               (sample.inbox ["svc_a"; "late"])
               {| Service.recv_queue := ["late"];
                  Service.server_alive := true;
                  Service.trace := [Service.Get "svc_a"] |}
               ["svc_a"] _ _ _ _ _ _ _ _) _).
  - by vm_compute.
  - reflexivity.
  - by vm_compute.
  - reflexivity.
  - reflexivity.
  - by vm_compute.
  - by intros k Hk.
  - by intros k Hk.
  - by vm_compute.
Defined.


Lemma loop_thread_dies_without_exit_witness :
  ∃ s',
    Service.InterfaceThread_run sample.env (scenario.set_after 2) 5 0
      (scenario.start scenario.faulty_cfg)
    = Service.Died ModelError 0 s'
    ∧ Forall reads_only (Interface.trace s').
Proof.
  pose (s' := (Interface.__call__ sample.env None None None
                 (scenario.start scenario.faulty_cfg)).2).
  exists s'. split.
  - refine (loop_thread_dies_without_exit sample.env
              (scenario.set_after 2) 0 5
              (scenario.start scenario.faulty_cfg)
              (scenario.start scenario.faulty_cfg) s' ModelError
              _ _ _ _).
    + intros k Hk. apply bool_decide_eq_false_2. lia.
    + reflexivity.
    + by vm_compute.
    + lia.
  - vm_compute. by repeat constructor.
Defined.

(** ** Setup of the interface *)

Section setup.
Import Interface.

Lemma models_of_nonempty cfg task :
  models_of cfg task ≠ [] ↔ ∃ m, m ∈ SUBPACKAGES cfg ∧ TASK m = task.
Proof.
  unfold models_of. split.
  - destruct (filter _ _) as [|m l] eqn:Hf; [done|]. intros _.
    assert (Hin : m ∈ filter (λ m, TASK m = task) (SUBPACKAGES cfg)).
    { rewrite Hf. by left. }
    apply list_elem_of_filter in Hin as [? ?]. by exists m.
  - intros (m & Hin & Ht) Hnil.
    assert (Hm : m ∈ filter (λ m, TASK m = task) (SUBPACKAGES cfg)).
    { by apply list_elem_of_filter. }
    rewrite Hnil in Hm. by apply elem_of_nil in Hm.
Qed.

Lemma grouped_tasks cfg :
  dom (foldl append_model ∅ (SUBPACKAGES cfg)) ⊆ (list_to_set tasks : gset string)
  ↔ ∀ m, m ∈ SUBPACKAGES cfg → TASK m ∈ tasks.
Proof.
  split.
  - intros Hdom m Hin.
    apply (proj1 (elem_of_list_to_set (C:=gset string) _ _)).
    apply Hdom, elem_of_dom.
    rewrite set_models_lookup.
    destruct (models_of cfg (TASK m)) eqn:Hm; [|by eexists].
    exfalso. revert Hm. apply models_of_nonempty. by exists m.
  - intros Hall task [found Hl]%elem_of_dom.
    rewrite set_models_lookup in Hl.
    destruct (models_of cfg task) eqn:Hm; [done|].
    assert (Hne : models_of cfg task ≠ []) by (by rewrite Hm).
    apply models_of_nonempty in Hne as (m' & Hin & <-).
    apply (proj2 (elem_of_list_to_set (C:=gset string) _ _)). by apply Hall.
Qed.

Lemma init_supported service_name cfg self :
  __init__ service_name cfg = Ok self →
  ∀ m, m ∈ SUBPACKAGES cfg → TASK m ∈ tasks.
Proof.
  unfold __init__, _check_cfg, _set_models.
  case_bool_decide as Hmode; [done|].
  case_bool_decide as Htasks; [|done].
  intros _. exact (proj1 (grouped_tasks cfg) Htasks).
Qed.

(** X12.  An interface is built only from a configuration that names one
    of the three processing modes and models of the two tasks only.  The
    interface that is built keeps the name and the configuration it was
    given, streams exactly in the modes [stream] and [simulate_stream],
    and starts with an unset cursor.  A configuration with another mode is
    refused with [ValueError] by the check that comes first. *)
Theorem interface_built_only_if_supported (service_name : str)
    (cfg : cfg_t) :
  (∀ self,
     __init__ service_name cfg = Ok self →
     DATA_PROCESSING_METHOD cfg ∈ ["batch"; "stream"; "simulate_stream"]
     ∧ (∀ m, m ∈ SUBPACKAGES cfg → TASK m ∈ tasks)
     ∧ self_service_name self = service_name
     ∧ Interface.cfg self = cfg
     ∧ streaming self
       = bool_decide
           (DATA_PROCESSING_METHOD cfg ∈ ["stream"; "simulate_stream"])
     ∧ last_datetime self = None)
  ∧ (DATA_PROCESSING_METHOD cfg ∉ ["batch"; "stream"; "simulate_stream"] →
     __init__ service_name cfg = Raise ValueError).
Proof.
  split.
  - intros self Hinit.
    destruct (init_attributes _ _ _ Hinit) as (Hcfg & Hstreaming & Hmode).
    split; [done|]. split; [by apply (init_supported _ _ _ Hinit)|].
    assert (Hrest : self_service_name self = service_name
                    ∧ last_datetime self = None).
    { clear Hcfg Hstreaming Hmode. revert Hinit.
      unfold __init__, _check_cfg, _set_models.
      case_bool_decide; [done|]. case_bool_decide; [|done].
      intros [= <-]. simpl. unfold set_task.
      by repeat (destruct (_ !! _); simpl). }
    by destruct Hrest.
  - intros Hmode. unfold __init__, _check_cfg.
    by rewrite bool_decide_eq_true_2.
Qed.

Lemma init_models service_name cfg self task :
  __init__ service_name cfg = Ok self →
  models self !! task =
    if bool_decide (task ∈ tasks)
    then match models_of cfg task with [] => None | found => Some found end
    else None.
Proof.
  unfold __init__, _set_models.
  destruct (_check_cfg cfg); [|done]. case_bool_decide; [|done].
  intros [= <-]. simpl. unfold set_task. rewrite !set_models_lookup.
  case_bool_decide as Htask.
  - unfold tasks in Htask.
    apply elem_of_cons in Htask as [->|Htask];
      [|apply list_elem_of_singleton in Htask as ->];
      destruct (models_of cfg "measurement") as [|m1 l1] eqn:H1;
      destruct (models_of cfg "analysis") as [|m2 l2] eqn:H2; simpl;
      by rewrite ?lookup_insert_eq, ?lookup_insert_ne, ?lookup_empty by done.
  - assert (Hm : "measurement" ≠ task).
    { intros <-. apply Htask. by left. }
    assert (Ha : "analysis" ≠ task).
    { intros <-. apply Htask. right. by left. }
    destruct (models_of cfg "measurement") as [|m1 l1] eqn:H1;
      destruct (models_of cfg "analysis") as [|m2 l2] eqn:H2; simpl;
      by rewrite ?lookup_insert_ne, ?lookup_empty by done.
Qed.

(** X13.  After a successful setup the interface holds, under each of the
    two tasks, the configured models of that task in their configured
    order, nothing under any other key, and every configured model under
    its task. *)
Theorem setup_groups_models_by_task (service_name : str) (cfg : cfg_t)
    (self : t) :
  __init__ service_name cfg = Ok self →
  (∀ task, task ∈ tasks →
     default [] (models self !! task) = models_of cfg task)
  ∧ (∀ task, task ∉ tasks → models self !! task = None)
  ∧ (∀ m, m ∈ SUBPACKAGES cfg ↔
          ∃ task, task ∈ tasks ∧ m ∈ default [] (models self !! task)).
Proof.
  intros Hinit.
  assert (Hgroup : ∀ task, task ∈ tasks →
            default [] (models self !! task) = models_of cfg task).
  { intros task Htask. rewrite (init_models _ _ _ _ Hinit).
    rewrite bool_decide_eq_true_2 by done.
    by destruct (models_of cfg task). }
  split; [done|]. split.
  - intros task Htask. rewrite (init_models _ _ _ _ Hinit).
    by rewrite bool_decide_eq_false_2.
  - intros m. split.
    + intros Hin. exists (TASK m).
      pose proof (init_supported _ _ _ Hinit m Hin) as Htask.
      split; [done|]. rewrite Hgroup by done.
      unfold models_of. by apply list_elem_of_filter.
    + intros (task & Htask & Hm). rewrite Hgroup in Hm by done.
      unfold models_of in Hm. by apply list_elem_of_filter in Hm as [_ ?].
Qed.

Lemma init_export_names service_name cfg self :
  __init__ service_name cfg = Ok self →
  export_data_names self =
    match EXPORT_DATA_NAMES cfg with
    | None => []
    | Some names =>
      elements ((list_to_set names : gset string)
                ∩ list_to_set (concat (output_data_names
                                         <$> models_of cfg "measurement")))
      ++ elements ((list_to_set names : gset string)
                   ∩ list_to_set (concat (output_data_names
                                            <$> models_of cfg "analysis")))
    end.
Proof.
  unfold __init__, _set_models.
  destruct (_check_cfg cfg); [|done]. case_bool_decide; [|done].
  intros [= <-]. simpl. unfold set_task. rewrite !set_models_lookup.
  destruct (models_of cfg "measurement") as [|m1 l1] eqn:H1;
    destruct (models_of cfg "analysis") as [|m2 l2] eqn:H2; simpl;
    destruct (EXPORT_DATA_NAMES cfg) as [names|]; simpl; try done;
    rewrite ?intersection_empty_r_L, ?elements_empty, ?app_nil_r; done.
Qed.

(** X14.  After a successful setup a name is exported exactly when the
    configuration lists it in [EXPORT_DATA_NAMES] and some configured model
    declares it as an output; with [EXPORT_DATA_NAMES] null nothing is
    exported. *)
Theorem export_names_are_listed_outputs (service_name : str) (cfg : cfg_t)
    (self : t) (x : str) :
  __init__ service_name cfg = Ok self →
  x ∈ export_data_names self ↔
  ∃ names m,
    EXPORT_DATA_NAMES cfg = Some names ∧ x ∈ names
    ∧ m ∈ SUBPACKAGES cfg ∧ x ∈ output_data_names m.
Proof.
  intros Hinit. rewrite (init_export_names _ _ _ Hinit).
  destruct (EXPORT_DATA_NAMES cfg) as [names|].
  2:{ split; [by intros ?%elem_of_nil|by intros (? & ? & ? & _)]. }
  rewrite elem_of_app, !elem_of_elements, !elem_of_intersection,
    !elem_of_list_to_set, !elem_of_concat.
  split.
  - intros [[Hx (l & Hl & (m & -> & Hm)%list_elem_of_fmap)]
           |[Hx (l & Hl & (m & -> & Hm)%list_elem_of_fmap)]];
      exists names, m; (split; [done|]); (split; [done|]);
      (split; [|done]); unfold models_of in Hm;
      by apply list_elem_of_filter in Hm as [_ ?].
  - intros (names' & m & [= <-] & Hx & Hm & Hout).
    pose proof (init_supported _ _ _ Hinit m Hm) as Htask.
    apply elem_of_cons in Htask as [Htask|Htask];
      [left|right; apply list_elem_of_singleton in Htask];
      (split; [done|]); exists (output_data_names m); (split; [done|]);
      apply list_elem_of_fmap; exists m; (split; [done|]);
      unfold models_of; by apply list_elem_of_filter.
Qed.

End setup.

Lemma interface_built_only_if_supported_witness :
  Interface.streaming (sample.interface "batch") = false
  ∧ Interface.last_datetime (sample.interface "batch") = None.
Proof.
  assert (Hinit : Interface.__init__ "svc_b" (sample.interface_cfg "batch")
                  = Ok (sample.interface "batch")) by by vm_compute.
  destruct (proj1 (interface_built_only_if_supported _ _) _ Hinit)
    as (_ & _ & _ & _ & Hstreaming & Hcursor).
  split; [|exact Hcursor].
  rewrite Hstreaming. apply bool_decide_eq_false_2. simpl.
  intros Hin. apply list_elem_of_In in Hin.
  by destruct Hin as [|[|[]]].
Defined.

Lemma setup_groups_models_by_task_witness :
  default [] (Interface.models (sample.interface "batch") !! "measurement")
  = [sample.strain_gauge; sample.rosette]
  ∧ Interface.models (sample.interface "batch") !! "visualization" = None.
Proof.
  assert (Hinit : Interface.__init__ "svc_b" (sample.interface_cfg "batch")
                  = Ok (sample.interface "batch")) by by vm_compute.
  destruct (setup_groups_models_by_task _ _ _ Hinit)
    as (Hknown & Hother & _).
  split.
  - rewrite Hknown; [reflexivity|]. apply list_elem_of_In. by left.
  - apply Hother. intros Hin. apply list_elem_of_In in Hin.
    by destruct Hin as [|[|[]]].
Defined.

Lemma export_names_are_listed_outputs_witness :
  "analyzed"
  ∈ Interface.export_data_names
      (Interface.self (scenario.start scenario.streaming_cfg))
  ∧ "raw"
    ∉ Interface.export_data_names
        (Interface.self (scenario.start scenario.streaming_cfg)).
Proof.
  assert (Hinit : Interface.__init__ "svc_b" scenario.streaming_cfg
                  = Ok (Interface.self
                          (scenario.start scenario.streaming_cfg)))
    by by vm_compute.
  split.
  - apply (proj2 (export_names_are_listed_outputs _ _ _ "analyzed" Hinit)).
    exists ["analyzed"; "raw"], sample.solver.
    split; [reflexivity|].
    split; [apply list_elem_of_In; by left|].
    split; apply list_elem_of_In; simpl; tauto.
  - intros Hin.
    apply (proj1 (export_names_are_listed_outputs _ _ _ "raw" Hinit)) in Hin
      as (names & m & _ & _ & Hm & Hout).
    apply list_elem_of_In in Hm. simpl in Hm.
    destruct Hm as [<-|[<-|[<-|[]]]];
      apply list_elem_of_In in Hout; simpl in Hout;
      by destruct Hout as [|[]].
Defined.

(** ** One iteration of the interface *)

Section iteration.
Import Interface.

Lemma run_tasks_returned env tag first last acc s v s' :
  for_each tasks (run_task env tag first last) acc s = (Ok v, s') →
  self s' = self s
  ∧ v.2 = data_system_of (self s) "analysis"
  ∧ ∃ dd1,
      trace s' = trace s
        ++ [Import (import_request_of (self s) "measurement" acc.1 first last);
            Import (import_request_of (self s) "analysis" dd1 first last)].
Proof.
  unfold tasks. simpl. unfold mbind at 1, M_bind at 1.
  destruct (run_task env tag first last acc "measurement" s)
    as [[acc1|e] s1] eqn:H1; [|done].
  apply run_task_frame in H1 as (Hs1 & Ht1 & _).
  unfold mbind at 1, M_bind at 1.
  destruct (run_task env tag first last acc1 "analysis" s1)
    as [[acc2|e] s2] eqn:H2; [|done].
  apply run_task_frame in H2 as (Hs2 & Ht2 & Hv).
  intros [= <- <-]. split; [congruence|]. split.
  - rewrite <- Hs1. by apply Hv.
  - exists acc1.1. rewrite Ht2, Ht1, Hs1, <- app_assoc. done.
Qed.

Lemma simulate_streaming_ticks s r s' :
  _simulate_streaming s = (r, s') → ticks s' = ticks s.
Proof.
  unfold _simulate_streaming. run_M.
  destruct (time_sleep _); [|by intros [= <- <-]].
  destruct (last_datetime (self s)) as [c|] eqn:Hc; simpl.
  - destruct (LOOP _ && _); simpl.
    + destruct (timedelta _); simpl; [|by intros [= <- <-]].
      destruct (datetime_add _ _); by intros [= <- <-].
    + rewrite Hc.
      destruct (timedelta _); simpl; [|by intros [= <- <-]].
      destruct (datetime_add _ _); by intros [= <- <-].
  - destruct (timedelta _); simpl; [|by intros [= <- <-]].
    destruct (datetime_add _ _); by intros [= <- <-].
Qed.

(** X15.  An iteration that returns has done the following and no more.
    Outside [simulate_stream] mode it left the object as it was and passed
    the caller's bounds on; in [simulate_stream] mode it took its bounds
    from one call of the clock.  It asked the store twice, for the
    measurement pass on the caller's data and then for the analysis pass,
    both with those bounds.  It exported only if the time-series system is
    [influx], to the data system of the analysis pass, and put the batch on
    the export queue only if, besides, the interface is streaming.  What it
    returns is the working data merged with one lineage record, that of a
    fresh tag with the dependencies computed from the working data. *)
Theorem iteration_effects (env : collaborators)
    (dynamic_data : option DynamicData) (first last : option datetime)
    (s s' : state) (v : DynamicData) :
  __call__ env dynamic_data first last s = (Ok v, s') →
  ∃ (s1 : state) (w1 w2 : option datetime) (dd1 dd2 : DynamicData),
    ((DATA_PROCESSING_METHOD (cfg (self s)) ≠ "simulate_stream"
      ∧ s1 = s ∧ w1 = first ∧ w2 = last)
     ∨ (DATA_PROCESSING_METHOD (cfg (self s)) = "simulate_stream"
        ∧ first = None ∧ last = None
        ∧ ∃ a b, _simulate_streaming s = (Ok (a, b), s1)
                 ∧ w1 = Some a ∧ w2 = Some b))
    ∧ self s' = self s1
    ∧ trace s' =
        trace s1
        ++ [Import (import_request_of (self s) "measurement"
                      (default DynamicData_empty dynamic_data) w1 w2);
            Import (import_request_of (self s) "analysis" dd1 w1 w2)]
        ++ (if bool_decide (TIME_SERIES_DATA_SYSTEM (cfg (self s)) = "influx")
            then
              Export (export_data_names (self s))
                (TABLE_DATA_SYSTEM (cfg (self s)))
                (data_system_of (self s) "analysis")
              :: (if streaming (self s)
                  then [QueuePut (export_data_names (self s))]
                  else [])
            else [])
    ∧ let tag :=
        dynamic_data_utils.generate_tag env (self_service_name (self s))
          (wall_clock env (ticks s)) in
      v = update env dd2
            (dynamic_data_utils.generate_time_series_batch_metadata tag
               (dynamic_data_utils.get_dependencies dd2 tag)).
Proof.
  unfold __call__. unfold mbind at 1 2, M_bind at 1 2, get_self.
  cbn beta iota.
  match goal with
  | |- context [match ?c s with _ => _ end] =>
    assert (∃ rw s1, c s = (rw, s1)
              ∧ same_setup (self s1) (self s) ∧ ticks s1 = ticks s
              ∧ ∀ w, rw = Ok w →
                  (DATA_PROCESSING_METHOD (cfg (self s)) ≠ "simulate_stream"
                   ∧ s1 = s ∧ w.1 = first ∧ w.2 = last)
                  ∨ (DATA_PROCESSING_METHOD (cfg (self s)) = "simulate_stream"
                     ∧ first = None ∧ last = None
                     ∧ ∃ a b, _simulate_streaming s = (Ok (a, b), s1)
                              ∧ w.1 = Some a ∧ w.2 = Some b)) as Hwin;
    [|destruct Hwin as (rw & s1 & -> & Hsame & Hticks & Hw)]
  end.
  { case_bool_decide as Hmode.
    2:{ eexists _, _. split; [done|]. split; [done|]. split; [done|].
        intros w [= <-]. by left. }
    case_bool_decide as Hbound.
    { eexists _, _. split; [done|]. split; [done|]. split; [done|]. done. }
    unfold mbind, M_bind.
    destruct (_simulate_streaming s) as [[[a b]|e] s1] eqn:Hsim.
    - pose proof (simulate_streaming_frame _ _ _ Hsim) as [Hsame _].
      pose proof (simulate_streaming_ticks _ _ _ Hsim) as Hticks.
      eexists _, _. split; [done|]. split; [done|]. split; [done|].
      intros w [= <-]. right. split; [done|].
      destruct first, last; try (exfalso; apply Hbound; auto; fail).
      split; [done|]. split; [done|]. by exists a, b.
    - pose proof (simulate_streaming_frame _ _ _ Hsim) as [Hsame _].
      pose proof (simulate_streaming_ticks _ _ _ Hsim) as Hticks.
      eexists _, _. split; [done|]. split; [done|]. split; [done|]. done. }
  destruct rw as [w|e]; [|done].
  specialize (Hw w eq_refl).
  unfold mbind at 1, M_bind at 1, now. cbn beta iota.
  unfold mbind at 1, M_bind at 1.
  match goal with
  | |- context [for_each tasks ?f ?a ?st] =>
    destruct (for_each tasks f a st) as [[acc|e] s2] eqn:Htasks
  end; [|done].
  apply run_tasks_returned in Htasks as (Hs2 & Hsys & dd1 & Ht2).
  simpl in Hs2, Hsys, Ht2.
  destruct Hsame as (Hcfg & Hstreaming & Hmodels & Himports & Hexports).
  assert (Hreq : ∀ task dd a b,
            import_request_of (self s1) task dd a b
            = import_request_of (self s) task dd a b).
  { intros. unfold import_request_of, data_name_of, data_system_of.
    by rewrite Hcfg, Hstreaming, Himports. }
  assert (Hds : data_system_of (self s1) "analysis"
                = data_system_of (self s) "analysis").
  { unfold data_system_of. by rewrite Hcfg, Hstreaming. }
  rewrite !Hreq in Ht2. rewrite Hds in Hsys.
  run_M. rewrite Hticks.
  case_bool_decide as Hinflux.
  - rewrite bool_decide_eq_true_2.
    2:{ by apply list_elem_of_singleton in Hinflux. }
    destruct (export_dynamic_data _ _ _ _ _); [|done].
    destruct (streaming (self s)); simpl; intros [= <- <-]; simpl;
      exists s1, w.1, w.2, dd1, acc.1;
      (split; [done|]); (split; [done|]);
      (split; [rewrite Ht2, Hsys, <- !app_assoc; done|]); done.
  - rewrite bool_decide_eq_false_2.
    2:{ by rewrite <- list_elem_of_singleton. }
    simpl. intros [= <- <-]. simpl.
    exists s1, w.1, w.2, dd1, acc.1.
    split; [done|]. split; [done|].
    split; [by rewrite Ht2|]. done.
Qed.


(** X16.  An iteration that an exception ends has put nothing on the
    export queue, and it has called the export only if the export itself
    raised the exception, as the last thing the iteration did; whatever
    else it did was a sleep of the clock or a request to the store. *)
Theorem failed_iteration_queues_nothing (env : collaborators)
    (dynamic_data : option DynamicData) (first last : option datetime)
    (s s' : state) (e : exn) :
  __call__ env dynamic_data first last s = (Raise e, s') →
  ∃ new,
    trace s' = trace s ++ new
    ∧ (Forall reads_only new
       ∨ ∃ before dd,
           new = before
                 ++ [Export (export_data_names (self s))
                       (TABLE_DATA_SYSTEM (cfg (self s)))
                       (data_system_of (self s) "analysis")]
           ∧ Forall reads_only before
           ∧ export_dynamic_data env dd (export_data_names (self s))
               (TABLE_DATA_SYSTEM (cfg (self s)))
               (data_system_of (self s) "analysis")
             = Raise e).
Proof.
  unfold __call__. unfold mbind at 1 2, M_bind at 1 2, get_self.
  cbn beta iota.
  match goal with
  | |- context [match ?c s with _ => _ end] =>
    assert (∃ rw s1, c s = (rw, s1) ∧ same_setup (self s1) (self s)
              ∧ ∃ pre, trace s1 = trace s ++ pre ∧ Forall reads_only pre)
      as Hwin;
    [|destruct Hwin as (rw & s1 & -> & Hsame & pre & Hpre & Hreads)]
  end.
  { case_bool_decide; [|by eexists _, _; split; [done|]; split; [done|];
                          exists []; rewrite app_nil_r].
    case_bool_decide; [by eexists _, _; split; [done|]; split; [done|];
                         exists []; rewrite app_nil_r|].
    unfold mbind, M_bind.
    destruct (_simulate_streaming s) as [[w|e0] s1] eqn:Hsim;
      apply simulate_streaming_frame in Hsim as [Hsame [Htr|Htr]];
      eexists _, _; (split; [done|]); (split; [done|]);
      [eexists; split; [exact Htr|by repeat constructor]
      |exists []; by rewrite app_nil_r
      |eexists; split; [exact Htr|by repeat constructor]
      |exists []; by rewrite app_nil_r]. }
  destruct rw as [window|e0].
  2:{ intros [= <- <-]. exists pre. split; [done|by left]. }
  unfold mbind at 1, M_bind at 1, now. cbn beta iota.
  unfold mbind at 1, M_bind at 1.
  match goal with
  | |- context [for_each tasks ?f ?a ?st] =>
    destruct (for_each tasks f a st) as [[acc|e0] s2] eqn:Htasks
  end.
  { apply run_tasks_returned in Htasks as (Hs2 & Hsys & dd1 & Ht2).
    simpl in Hs2, Hsys, Ht2.
    rewrite (same_setup_data_system _ _ _ Hsame) in Hsys.
    run_M. case_bool_decide; [|done].
    match goal with
    | |- context [export_dynamic_data env ?dd ?names ?table ?system] =>
      destruct (export_dynamic_data env dd names table system) eqn:Hexport
    end; [by destruct (streaming (self s))|].
    simpl. intros [= <- <-]. simpl. eexists. split.
    { rewrite Ht2, Hpre, <- !app_assoc. done. }
    right. eexists (pre ++ [_; _]), _. rewrite Hsys in *.
    split; [by rewrite <- !app_assoc|]. split; [|exact Hexport].
    apply Forall_app. split; [done|]. by repeat constructor. }
  intros [= <- <-].
  revert Htasks. unfold tasks. simpl. unfold mbind at 1, M_bind at 1.
  match goal with
  | |- context [run_task ?en ?tg ?f ?l ?a "measurement" ?st] =>
    destruct (run_task en tg f l a "measurement" st)
      as [[acc1|e1] s3] eqn:H1
  end; apply run_task_frame in H1 as (_ & Ht1 & _); simpl in Ht1.
  2:{ intros [= <- <-]. eexists. split.
      - rewrite Ht1, Hpre, <- app_assoc. done.
      - left. apply Forall_app. split; [done|]. by repeat constructor. }
  unfold mbind at 1, M_bind at 1.
  match goal with
  | |- context [run_task ?en ?tg ?f ?l ?a "analysis" ?st] =>
    destruct (run_task en tg f l a "analysis" st)
      as [[acc2|e2] s4] eqn:H2
  end; apply run_task_frame in H2 as (_ & Ht2 & _); [done|].
  intros [= <- <-]. eexists. split.
  - rewrite Ht2, Ht1, Hpre, <- !app_assoc. done.
  - left. apply Forall_app. split; [done|]. by repeat constructor.
Qed.

End iteration.

Lemma iteration_effects_witness :
  ∃ v s' dd1,
    Interface.__call__ sample.env None None None
      (scenario.start scenario.streaming_cfg)
    = (Ok v, s')
    ∧ Interface.trace s'
      = [Interface.Import
           (Interface.import_request_of
              (Interface.self (scenario.start scenario.streaming_cfg))
              "measurement" DynamicData_empty None None);
         Interface.Import
           (Interface.import_request_of
              (Interface.self (scenario.start scenario.streaming_cfg))
              "analysis" dd1 None None);
         Interface.Export ["analyzed"] "file" "streaming";
         Interface.QueuePut ["analyzed"]].
Proof.
  pose (r := Interface.__call__ sample.env None None None
               (scenario.start scenario.streaming_cfg)).
  pose (v := match r.1 with Ok v => v | Raise _ => DynamicData_empty end).
  assert (Hcall : Interface.__call__ sample.env None None None
                    (scenario.start scenario.streaming_cfg)
                  = (Ok v, r.2)) by by vm_compute.
  destruct (iteration_effects _ _ _ _ _ _ _ Hcall)
    as (s1 & w1 & w2 & dd1 & dd2 & Hclock & _ & Htrace & _).
  destruct Hclock as [(_ & -> & -> & ->)|(Hmethod & _)];
    [|by vm_compute in Hmethod].
  exists v, r.2, dd1. split; [exact Hcall|]. exact Htrace.
Defined.

Lemma failed_iteration_queues_nothing_witness :
  ∃ s',
    Interface.__call__ scenario.full_store None None None
      (scenario.start scenario.streaming_cfg)
    = (Raise OSError, s')
    ∧ ∀ names, Interface.QueuePut names ∉ Interface.trace s'.
Proof.
  pose (s' := (Interface.__call__ scenario.full_store None None None
                 (scenario.start scenario.streaming_cfg)).2).
  assert (Hcall : Interface.__call__ scenario.full_store None None None
                    (scenario.start scenario.streaming_cfg)
                  = (Raise OSError, s')) by by vm_compute.
  destruct (failed_iteration_queues_nothing _ _ _ _ _ _ _ Hcall)
    as (new & Htrace & Hnew).
  exists s'. split; [exact Hcall|]. intros names Hin.
  rewrite Htrace in Hin. apply elem_of_app in Hin as [Hin|Hin].
  { by apply elem_of_nil in Hin. }
  destruct Hnew as [Hreads|(before & dd & -> & Hreads & _)].
  - rewrite Forall_forall in Hreads. exact (Hreads _ Hin).
  - apply elem_of_app in Hin as [Hin|Hin].
    + rewrite Forall_forall in Hreads. exact (Hreads _ Hin).
    + apply list_elem_of_singleton in Hin. discriminate Hin.
Defined.

(** ** The streaming clock in loop mode *)

Section clock_loop.
Import Interface.

Lemma after_calls_add a b s :
  after_calls (a + b) s = after_calls a (after_calls b s).
Proof. induction a as [|a IH]; simpl; [done|]. by rewrite IH. Qed.

(** One lap of the clock from a state in which it resets. *)
Lemma clock_lap s0 δ (m : nat) :
  (0 ≤ SLEEP_TIME (clock_params s0) ≤ sleep_max)%Z →
  LOOP (clock_params s0) = true →
  clock_resets s0 →
  timedelta (INTERVAL (clock_params s0)) = Ok δ →
  (0 < δ)%Z →
  (∀ k : nat, (1 ≤ k < m)%nat →
     (FIRST_DATETIME (clock_params s0) + Z.of_nat k * δ
      < LAST_DATETIME (clock_params s0))%Z) →
  (0 ≤ FIRST_DATETIME (clock_params s0))%Z →
  (FIRST_DATETIME (clock_params s0) + Z.of_nat m * δ ≤ datetime_max)%Z →
  ∀ r : nat, r < m →
    clock_params (after_calls (S r) s0) = clock_params s0
    ∧ cursor (after_calls (S r) s0)
      = Some (FIRST_DATETIME (clock_params s0) + Z.of_nat (S r) * δ)%Z
    ∧ (_simulate_streaming (after_calls r s0)).1
      = Ok (FIRST_DATETIME (clock_params s0) + Z.of_nat r * δ,
            FIRST_DATETIME (clock_params s0) + Z.of_nat (S r) * δ)%Z.
Proof.
  intros Hsleep Hloop Hreset Hδ Hpos Hbefore Hfirst Hmax.
  assert (Hin : ∀ k : nat, (k ≤ m)%nat →
            (0 ≤ FIRST_DATETIME (clock_params s0) + Z.of_nat k * δ
             ≤ datetime_max)%Z).
  { intros k Hk.
    assert (Z.of_nat k * δ ≤ Z.of_nat m * δ)%Z
      by (apply Z.mul_le_mono_nonneg_r; lia).
    assert (0 ≤ Z.of_nat k * δ)%Z by (apply Z.mul_nonneg_nonneg; lia).
    lia. }
  induction r as [|r IH]; intros Hr.
  - simpl after_calls.
    rewrite (simulate_streaming_step s0 δ (FIRST_DATETIME (clock_params s0)));
      [|done|done|by left|specialize (Hin 1%nat); lia].
    simpl. split; [done|]. split.
    + unfold cursor. simpl. f_equal. lia.
    + do 2 f_equal; lia.
  - destruct IH as (Hp & Hc & _); [lia|].
    change (after_calls (S (S r)) s0)
      with (_simulate_streaming (after_calls (S r) s0)).2.
    rewrite (simulate_streaming_step (after_calls (S r) s0) δ
               (FIRST_DATETIME (clock_params s0) + Z.of_nat (S r) * δ)%Z).
    + simpl. split; [done|]. split.
      * unfold cursor. simpl. f_equal. lia.
      * do 2 f_equal. lia.
    + by rewrite Hp.
    + by rewrite Hp.
    + right. split; [|done].
      intros [Hn | (_ & c & Hc' & Hlast)]; [congruence|].
      rewrite Hc in Hc'. injection Hc' as <-. rewrite Hp in Hlast.
      specialize (Hbefore (S r)). lia.
    + specialize (Hin (S (S r))). lia.
Qed.

(** X17.  With a sleep time that [time.sleep] takes, [loop] on, a positive
    interval and the last time reached for the first time after [m]
    intervals, the clock is periodic with period [m]: call number
    [q * m + r] returns the window that starts [r] intervals after the
    first time.  The last window of a lap may reach past the last time. *)
Theorem clock_loops_with_period (s : state) (δ : Z) (m : nat) :
  (0 ≤ SLEEP_TIME (clock_params s) ≤ sleep_max)%Z →
  LOOP (clock_params s) = true →
  cursor s = None →
  timedelta (INTERVAL (clock_params s)) = Ok δ →
  (0 < δ)%Z →
  (∀ k : nat, (1 ≤ k < m)%nat →
     (FIRST_DATETIME (clock_params s) + Z.of_nat k * δ
      < LAST_DATETIME (clock_params s))%Z) →
  (LAST_DATETIME (clock_params s)
   ≤ FIRST_DATETIME (clock_params s) + Z.of_nat m * δ)%Z →
  (0 ≤ FIRST_DATETIME (clock_params s))%Z →
  (FIRST_DATETIME (clock_params s) + Z.of_nat m * δ ≤ datetime_max)%Z →
  ∀ q r : nat, r < m →
    (_simulate_streaming (after_calls (q * m + r) s)).1
    = Ok (FIRST_DATETIME (clock_params s) + Z.of_nat r * δ,
          FIRST_DATETIME (clock_params s) + Z.of_nat (S r) * δ)%Z.
Proof.
  intros Hsleep Hloop Hnone Hδ Hpos Hbefore Hlast Hfirst Hmax q r Hr.
  assert (Hlaps : clock_params (after_calls (q * m) s) = clock_params s
                  ∧ clock_resets (after_calls (q * m) s)).
  { induction q as [|q [Hp Hres]]; simpl.
    { split; [done|by left]. }
    rewrite after_calls_add.
    destruct m as [|m']; [lia|].
    destruct (clock_lap (after_calls (q * S m') s) δ (S m')) with (r := m')
      as (Hp' & Hc' & _); rewrite ?Hp; try done; [lia|].
    split; [by rewrite Hp'|]. right. rewrite Hp', Hp. split; [done|].
    eexists. split; [exact Hc'|]. by rewrite Hp. }
  destruct Hlaps as [Hp Hres].
  rewrite Nat.add_comm, after_calls_add.
  destruct (clock_lap (after_calls (q * m) s) δ m) with (r := r)
    as (_ & _ & Hwin); rewrite ?Hp; try done.
  by rewrite Hp in Hwin.
Qed.


(** X18.  A call of the clock fails in three ways.  A negative sleep time
    makes it raise [ValueError], and one beyond what [time.sleep] can hold
    [OverflowError], before anything has happened: the cursor and the trace
    are as they were.  With a sleep time that [time.sleep] takes, an
    interval too large for a [timedelta], or a window that ends outside the
    range of [datetime], makes it raise [OverflowError] after its sleep;
    the cursor is then where the window would have started, so a reset
    that was due has taken place and nothing else has changed. *)
Theorem clock_failures (s : state) (start : datetime) :
  ((SLEEP_TIME (clock_params s) < 0)%Z →
   (- sleep_max ≤ SLEEP_TIME (clock_params s))%Z →
   _simulate_streaming s = (Raise ValueError, s))
  ∧ (¬ (- sleep_max ≤ SLEEP_TIME (clock_params s) ≤ sleep_max)%Z →
     _simulate_streaming s = (Raise OverflowError, s))
  ∧ ((0 ≤ SLEEP_TIME (clock_params s) ≤ sleep_max)%Z →
     (clock_resets s ∧ start = FIRST_DATETIME (clock_params s))
     ∨ (¬ clock_resets s ∧ cursor s = Some start) →
     timedelta (INTERVAL (clock_params s)) = Raise OverflowError
     ∨ (∃ δ, timedelta (INTERVAL (clock_params s)) = Ok δ
             ∧ ¬ (0 ≤ start + δ ≤ datetime_max)%Z) →
     _simulate_streaming s
     = (Raise OverflowError,
        {| self := set_last_datetime (self s) (Some start);
           trace := trace s ++ [Sleep (SLEEP_TIME (clock_params s))];
           ticks := ticks s |})).
Proof.
  split; [|split].
  { intros Hneg Hmin. unfold _simulate_streaming, clock_params in *. run_M.
    unfold time_sleep.
    rewrite bool_decide_eq_true_2 by (unfold sleep_max in *; lia).
    by rewrite bool_decide_eq_true_2. }
  { intros Hout. unfold _simulate_streaming, clock_params in *. run_M.
    unfold time_sleep. by rewrite bool_decide_eq_false_2. }
  intros Hsleep%time_sleep_Ok Hstart Hover.
  unfold clock_resets, cursor, clock_params in *.
  unfold _simulate_streaming. run_M. rewrite Hsleep.
  destruct s as [obj tr n]; simpl in *.
  assert (Hobj : ∀ c, last_datetime obj = Some c →
                      set_last_datetime obj (Some c) = obj).
  { intros c Hc. destruct obj; simpl in *. by subst. }
  assert (Hend : ∀ obj',
    match timedelta (INTERVAL (SIMULATE_STREAM_PARAMS (cfg obj))) with
    | Ok δ =>
      match datetime_add start δ with
      | Ok last =>
        (Ok (start, last),
         {| self := set_last_datetime obj' (Some last);
            trace := tr ++ [Sleep (SLEEP_TIME (SIMULATE_STREAM_PARAMS
                                                 (cfg obj)))];
            ticks := n |})
      | Raise e =>
        (Raise e,
         {| self := obj';
            trace := tr ++ [Sleep (SLEEP_TIME (SIMULATE_STREAM_PARAMS
                                                 (cfg obj)))];
            ticks := n |})
      end
    | Raise e =>
      (Raise e,
       {| self := obj';
          trace := tr ++ [Sleep (SLEEP_TIME (SIMULATE_STREAM_PARAMS
                                               (cfg obj)))];
          ticks := n |})
    end
    = (Raise OverflowError,
       {| self := obj';
          trace := tr ++ [Sleep (SLEEP_TIME (SIMULATE_STREAM_PARAMS
                                               (cfg obj)))];
          ticks := n |})).
  { intros obj'. destruct Hover as [-> | (δ & -> & Hout)]; [done|].
    unfold datetime_add. by rewrite bool_decide_eq_false_2. }
  destruct (last_datetime obj) as [c|] eqn:Hc; simpl.
  - destruct (LOOP _) eqn:Hloop; simpl.
    + case_bool_decide as Hlast; simpl.
      * destruct Hstart as [[_ ->] | [Hno _]].
        2:{ exfalso. apply Hno. right. eauto. }
        destruct (timedelta _) as [δ|e]; simpl;
          [destruct (datetime_add _ δ) eqn:Hadd; simpl|];
          specialize (Hend (set_last_datetime obj
                              (Some (FIRST_DATETIME
                                       (SIMULATE_STREAM_PARAMS (cfg obj))))));
          simpl in Hend; rewrite ?Hadd in Hend; done.
      * destruct Hstart as [[[?|(_ & c' & [= <-] & ?)] _] | [_ [= <-]]];
          [done|lia|].
        rewrite Hc. rewrite (Hobj c eq_refl).
        destruct (timedelta _) as [δ|e]; simpl;
          [destruct (datetime_add _ δ) eqn:Hadd; simpl|];
          specialize (Hend obj); simpl in Hend; rewrite ?Hadd in Hend; done.
    + destruct Hstart as [[[?|(? & _)] _] | [_ [= <-]]]; [done|done|].
      rewrite Hc. rewrite (Hobj c eq_refl).
      destruct (timedelta _) as [δ|e]; simpl;
        [destruct (datetime_add _ δ) eqn:Hadd; simpl|];
        specialize (Hend obj); simpl in Hend; rewrite ?Hadd in Hend; done.
  - destruct Hstart as [[_ ->] | [Hno _]].
    2:{ exfalso. apply Hno. by left. }
    destruct (timedelta _) as [δ|e]; simpl;
      [destruct (datetime_add _ δ) eqn:Hadd; simpl|];
      specialize (Hend (set_last_datetime obj
                          (Some (FIRST_DATETIME
                                   (SIMULATE_STREAM_PARAMS (cfg obj))))));
      simpl in Hend; rewrite ?Hadd in Hend; done.
Qed.

End clock_loop.

Lemma clock_loops_with_period_witness :
  (Interface._simulate_streaming
     (after_calls 7
        (scenario.start (scenario.clock_cfg scenario.looping_clock)))).1
  = Ok (sample.T0 + 60000000, sample.T0 + 120000000)%Z.
Proof.
  refine (clock_loops_with_period
            (scenario.start (scenario.clock_cfg scenario.looping_clock))
            60000000 3 _ _ _ _ _ _ _ _ _ 2 1 _).
  - change (Interface.SLEEP_TIME _) with 1%Z. unfold sleep_max. lia.
  - reflexivity.
  - by vm_compute.
  - reflexivity.
  - lia.
  - intros k Hk. change (Interface.FIRST_DATETIME _) with sample.T0.
    change (Interface.LAST_DATETIME _) with (sample.T0 + 150000000)%Z.
    lia.
  - change (Interface.FIRST_DATETIME _) with sample.T0.
    change (Interface.LAST_DATETIME _) with (sample.T0 + 150000000)%Z.
    lia.
  - change (Interface.FIRST_DATETIME _) with sample.T0.
    unfold sample.T0. lia.
  - change (Interface.FIRST_DATETIME _) with sample.T0.
    unfold sample.T0, datetime_max. lia.
  - lia.
Defined.

Lemma clock_failures_witness :
  Interface._simulate_streaming
    (scenario.start (scenario.clock_cfg scenario.rushed_clock))
  = (Raise ValueError,
     scenario.start (scenario.clock_cfg scenario.rushed_clock))
  ∧ Interface._simulate_streaming
      (scenario.start (scenario.clock_cfg scenario.late_clock))
    = (Raise OverflowError,
       {| Interface.self :=
            Interface.set_last_datetime
              (Interface.self
                 (scenario.start (scenario.clock_cfg scenario.late_clock)))
              (Some (datetime_max - 10)%Z);
          Interface.trace := [Interface.Sleep 1];
          Interface.ticks := 0 |}).
Proof.
  split.
  - refine (proj1 (clock_failures
                     (scenario.start
                        (scenario.clock_cfg scenario.rushed_clock))
                     0%Z) _ _).
    + change (Interface.SLEEP_TIME _) with (-1)%Z. lia.
    + change (Interface.SLEEP_TIME _) with (-1)%Z. unfold sleep_max. lia.
  - refine (proj2 (proj2 (clock_failures
                            (scenario.start
                               (scenario.clock_cfg scenario.late_clock))
                            (datetime_max - 10)%Z)) _ _ _).
    + change (Interface.SLEEP_TIME _) with 1%Z. unfold sleep_max. lia.
    + left. split; [left; by vm_compute|reflexivity].
    + right. exists 60000000%Z. split; [reflexivity|]. lia.
Defined.

(** ** Shutdown of the interface object *)

Section interface_exit.
Import Interface.




End interface_exit.


(** ** Tags and lineage *)

Section tags.
Import dynamic_data_utils.

Lemma occurs_app c s t : occurs c (s +:+ t) ↔ occurs c s ∨ occurs c t.
Proof. induction s as [|c' s IH]; simpl; [tauto|]. rewrite IH. tauto. Qed.

Lemma append_separator_inj (c : ascii) s1 t1 s2 t2 :
  ¬ occurs c t1 → ¬ occurs c t2 →
  s1 +:+ String c t1 = s2 +:+ String c t2 →
  s1 = s2 ∧ t1 = t2.
Proof.
  intros H1 H2. revert s2.
  induction s1 as [|a s1 IH]; intros [|b s2]; simpl.
  - by intros [= ->].
  - intros [= <- ->]. exfalso. apply H1.
    apply occurs_app. right. simpl. by left.
  - intros [= -> <-]. exfalso. apply H2.
    apply occurs_app. right. simpl. by left.
  - intros [= -> Heq]. destruct (IH _ Heq) as [-> ->]. done.
Qed.

(** X20.  Two tags whose dates are written without an underscore, and
    differently when the dates differ, have the same batch id only if they
    come from the same service at the same time. *)
Theorem batch_id_determines_service_and_time (env : collaborators)
    (name1 name2 : str) (now1 now2 : datetime) :
  ¬ occurs "_"%char (datetime_str env now1) →
  ¬ occurs "_"%char (datetime_str env now2) →
  (datetime_str env now1 = datetime_str env now2 → now1 = now2) →
  batch_id (generate_tag env name1 now1)
  = batch_id (generate_tag env name2 now2) →
  name1 = name2 ∧ now1 = now2.
Proof.
  intros Hno1 Hno2 Hinj Heq. simpl in Heq.
  apply append_separator_inj in Heq as [-> Hd]; [|done|done].
  split; [done|]. by apply Hinj.
Qed.

Lemma found_union a b x :
  a ##ₘ b →
  batch_id_found (series_only (a ∪ b)) x
  ↔ batch_id_found (series_only a) x ∨ batch_id_found (series_only b) x.
Proof.
  intros Hdisj. unfold batch_id_found. simpl. split.
  - intros (name & series & column & Hl & Hc & Hx).
    apply (lookup_union_Some _ _ _ _ Hdisj) in Hl as [Hl|Hl];
      [left|right]; by exists name, series, column.
  - intros [(name & series & column & Hl & Hc & Hx)
           |(name & series & column & Hl & Hc & Hx)];
      exists name, series, column; (split; [|done]);
      apply (lookup_union_Some _ _ _ _ Hdisj); auto.
Qed.

(** X21.  The dependencies of working data put together from two sets of
    series under different names are the dependencies of the one and those
    of the other; so series that carry only the batch's own id add nothing
    to its dependencies. *)
Theorem get_dependencies_of_union (a b : gmap string TimeSeriesData)
    (tag : Tag) :
  a ##ₘ b →
  get_dependencies (series_only (a ∪ b)) tag
  = get_dependencies (series_only a) tag ∪ get_dependencies (series_only b) tag
  ∧ ((∀ x, batch_id_found (series_only b) x → x = batch_id tag) →
     get_dependencies (series_only (a ∪ b)) tag
     = get_dependencies (series_only a) tag).
Proof.
  intros Hdisj.
  assert (Hunion : get_dependencies (series_only (a ∪ b)) tag
                   = get_dependencies (series_only a) tag
                     ∪ get_dependencies (series_only b) tag).
  { apply set_eq. intros x.
    rewrite elem_of_union, !elem_of_get_dependencies, found_union by done.
    tauto. }
  split; [done|]. intros Hown. rewrite Hunion.
  assert (Hb : get_dependencies (series_only b) tag = ∅).
  { apply set_eq. intros x.
    rewrite elem_of_get_dependencies, elem_of_empty.
    split; [intros [Hne Hx]; by apply Hne, Hown|done]. }
  rewrite Hb. by rewrite (right_id_L ∅ (∪)).
Qed.

End tags.

Lemma batch_id_determines_service_and_time_witness :
  batch_id (dynamic_data_utils.generate_tag scenario.env "svc_b" sample.T0)
  ≠ batch_id
      (dynamic_data_utils.generate_tag scenario.env "svc_b"
         (sample.T0 + 1)%Z).
Proof.
  intros Heq.
  destruct (batch_id_determines_service_and_time scenario.env
              "svc_b" "svc_b" sample.T0 (sample.T0 + 1)%Z) as [_ Hnow].
  - vm_compute. intuition discriminate.
  - vm_compute. intuition discriminate.
  - intros Hstr. by vm_compute in Hstr.
  - exact Heq.
  - unfold sample.T0 in Hnow. lia.
Defined.

Lemma get_dependencies_of_union_witness :
  dynamic_data_utils.get_dependencies
    (series_only
       ({[ "res" := sample.series_tagged "b1" ]}
        ∪ {[ "res2" := sample.series_tagged "b2" ]}))
    (sample.tag_of "b2")
  = dynamic_data_utils.get_dependencies
      (series_only {[ "res" := sample.series_tagged "b1" ]})
      (sample.tag_of "b2").
Proof.
  refine (proj2 (get_dependencies_of_union
                   {[ "res" := sample.series_tagged "b1" ]}
                   {[ "res2" := sample.series_tagged "b2" ]}
                   (sample.tag_of "b2") _) _).
  - by apply map_disjoint_singleton_l, lookup_singleton_ne.
  - intros x (name & series & column & Hseries & Hcolumn & Hin).
    simpl in Hseries. apply lookup_singleton_Some in Hseries as [_ <-].
    simpl in Hcolumn. apply lookup_singleton_Some in Hcolumn as [_ <-].
    apply list_elem_of_In in Hin. simpl in Hin.
    by destruct Hin as [<-|[<-|[]]].
Defined.

(** ** The arrangement of a model's result *)

Section arrange.
Import dynamic_data_utils.
Context (env : collaborators) (ns : datetime).

Lemma arrange_item_keys acc item acc' name :
  arrange_item env ns acc item = Ok acc' →
  is_Some (acc'.2 !! name) ↔
  is_Some (acc.2 !! name) ∨ ∃ df, item = (name, Some df).
Proof.
  destruct acc as [tag series], item as [n [df|]]; simpl.
  - destruct (tag_frame env tag _) as [tag'|]; [|done].
    intros [= <-]. simpl. rewrite lookup_insert_is_Some. split.
    + intros [->|[_ ?]]; [right; by exists df|by left].
    + intros [?|[df' [= -> ->]]]; [|by left].
      destruct (decide (n = name)); [by left|by right].
  - intros [= <-]. simpl. split; [by left|]. by intros [?|[df' [=]]].
Qed.

Lemma arrange_item_untouched acc item acc' name :
  arrange_item env ns acc item = Ok acc' →
  name ≠ item.1 → acc'.2 !! name = acc.2 !! name.
Proof.
  destruct acc as [tag series], item as [n [df|]]; simpl.
  - destruct (tag_frame env tag _) as [tag'|]; [|done].
    intros [= <-] Hne. simpl. by rewrite lookup_insert_ne.
  - by intros [= <-].
Qed.

Lemma arrange_item_fields acc name df acc' :
  arrange_item env ns acc (name, Some df) = Ok acc' →
  fields <$> acc'.2 !! name = Some (arrange_frame env ns df).
Proof.
  destruct acc as [tag series]; simpl.
  destruct (tag_frame env tag _) as [tag'|]; [|done].
  intros [= <-]. simpl. by rewrite lookup_insert_eq.
Qed.

Lemma arrange_items_keys acc l acc' name :
  arrange_items env ns acc l = Ok acc' →
  is_Some (acc'.2 !! name) ↔
  is_Some (acc.2 !! name) ∨ ∃ df, (name, Some df) ∈ l.
Proof.
  revert acc. induction l as [|item l IH]; intros acc; simpl.
  { intros [= <-]. split; [by left|]. by intros [?|[df []%elem_of_nil]]. }
  destruct (arrange_item env ns acc item) as [acc1|] eqn:Hitem; [|done].
  intros Hrest. rewrite (IH _ Hrest).
  rewrite (arrange_item_keys _ _ _ name Hitem). split.
  - intros [[?|[df ->]]|[df ?]]; [by left|right|right].
    + exists df. by left.
    + exists df. by right.
  - intros [?|[df [<-|?]%elem_of_cons]].
    + left. by left.
    + left. right. by exists df.
    + right. by exists df.
Qed.

Lemma arrange_items_untouched acc l acc' name :
  arrange_items env ns acc l = Ok acc' →
  name ∉ l.*1 → acc'.2 !! name = acc.2 !! name.
Proof.
  revert acc. induction l as [|item l IH]; intros acc; simpl.
  { by intros [= <-]. }
  destruct (arrange_item env ns acc item) as [acc1|] eqn:Hitem; [|done].
  intros Hrest [Hne Hnot]%not_elem_of_cons.
  rewrite (IH _ Hrest Hnot). by apply (arrange_item_untouched _ item).
Qed.

Lemma arrange_items_fields acc l acc' name df :
  arrange_items env ns acc l = Ok acc' →
  NoDup l.*1 → (name, Some df) ∈ l →
  fields <$> acc'.2 !! name = Some (arrange_frame env ns df).
Proof.
  revert acc. induction l as [|item l IH]; intros acc; simpl.
  { by intros _ _ []%elem_of_nil. }
  destruct (arrange_item env ns acc item) as [acc1|] eqn:Hitem; [|done].
  intros Hrest [Hfresh Hnodup]%NoDup_cons [<-|Hin]%elem_of_cons.
  - rewrite (arrange_items_untouched _ _ _ name Hrest) by done.
    by apply (arrange_item_fields acc).
  - by apply (IH acc1).
Qed.

Lemma arrange_skips_none acc l :
  Forall (λ item : str * option DataFrame, item.2 = None) l →
  arrange_items env ns acc l = Ok acc.
Proof.
  intros Hnone. revert acc.
  induction Hnone as [|[name df] l Hdf _ IH]; intros acc; simpl; [done|].
  simpl in Hdf. subst df. destruct acc as [tag series]. simpl.
  by rewrite IH.
Qed.

(** X22.  When the arrangement of a model's result returns, it holds one
    series for every name the model gave a frame for and none for the
    names it gave [None] for; the fields of each series are its frame as
    re-indexed; it holds no batch metadata.  A result that gives no frame
    at all is arranged, without a call to pandas, to empty working data. *)
Theorem arrange_result_keeps_given_frames
    (res : list (str * option DataFrame)) (tag : Tag) :
  NoDup res.*1 →
  (∀ dynamic_data,
     arrange_result env res tag ns = Ok dynamic_data →
     time_series_batch_metadata dynamic_data = ∅
     ∧ (∀ name,
          is_Some (time_series_data dynamic_data !! name)
          ↔ ∃ df, (name, Some df) ∈ res)
     ∧ (∀ name df,
          (name, Some df) ∈ res →
          fields <$> time_series_data dynamic_data !! name
          = Some (arrange_frame env ns df)))
  ∧ (Forall (λ item : str * option DataFrame, item.2 = None) res →
     arrange_result env res tag ns = Ok DynamicData_empty).
Proof.
  intros Hnodup. split.
  - intros dynamic_data. unfold arrange_result.
    destruct (arrange_items env ns (inl tag, ∅) res) as [acc|] eqn:Hitems;
      [|done].
    intros [= <-]. simpl. split; [done|]. split.
    + intros name. rewrite (arrange_items_keys _ _ _ name Hitems). simpl.
      rewrite lookup_empty. split; [|by right].
      by intros [[? [=]]|?].
    + intros name df Hin. by apply (arrange_items_fields _ _ _ _ _ Hitems).
  - intros Hnone. unfold arrange_result.
    by rewrite arrange_skips_none.
Qed.

End arrange.

Lemma arrange_result_keeps_given_frames_witness :
  ∃ dynamic_data,
    dynamic_data_utils.arrange_result sample.env scenario.returned
      (sample.tag_of "b1") sample.T0
    = Ok dynamic_data
    ∧ time_series_batch_metadata dynamic_data = ∅
    ∧ time_series_data dynamic_data !! "skipped" = None.
Proof.
  pose (r := dynamic_data_utils.arrange_result sample.env scenario.returned
               (sample.tag_of "b1") sample.T0).
  pose (dd := match r with Ok dd => dd | Raise _ => DynamicData_empty end).
  assert (Hr : dynamic_data_utils.arrange_result sample.env
                 scenario.returned (sample.tag_of "b1") sample.T0
               = Ok dd) by by vm_compute.
  destruct (arrange_result_keeps_given_frames sample.env sample.T0
              scenario.returned (sample.tag_of "b1")) as [Hok _].
  { apply (bool_decide_unpack _). by vm_compute. }
  destruct (Hok dd Hr) as (Hmeta & Hnames & _).
  exists dd. split; [exact Hr|]. split; [exact Hmeta|].
  apply eq_None_not_Some. intros Hsome.
  apply Hnames in Hsome as [df Hin].
  apply list_elem_of_In in Hin. simpl in Hin.
  by destruct Hin as [|[|[|[]]]].
Defined.

(** ** The port table *)

Section ports.
Import port_table.

Lemma split_nonempty sep s : split sep s ≠ [].
Proof.
  induction s as [|c s IH]; simpl; [done|].
  case_decide; [done|]. by destruct (split sep s).
Qed.

Lemma split_no_separator sep s : ¬ occurs sep s → split sep s = [s].
Proof.
  induction s as [|c s IH]; simpl; [done|]. intros Hno.
  rewrite decide_False by (intros ->; apply Hno; by left).
  rewrite IH by (intros ?; apply Hno; by right). done.
Qed.

Lemma split_app sep s t :
  ¬ occurs sep s →
  split sep (s +:+ String sep t) = s :: split sep t.
Proof.
  induction s as [|c s IH]; simpl; intros Hno.
  - by rewrite decide_True.
  - rewrite decide_False by (intros ->; apply Hno; by left).
    rewrite IH by (intros ?; apply Hno; by right). done.
Qed.

Lemma split_join sep items :
  items ≠ [] →
  Forall (λ item, ¬ occurs sep item) items →
  split sep (join sep items) = items.
Proof.
  intros Hne Hno. induction Hno as [|item items Hitem Hitems IH]; [done|].
  destruct items as [|item' items].
  - simpl. by apply split_no_separator.
  - change (join sep (item :: item' :: items))
      with (item +:+ String sep (join sep (item' :: items))).
    rewrite split_app by done. by rewrite IH.
Qed.

Lemma dict_set_fresh d key value :
  key ∉ d.*1 → dict_set d key value = d ++ [(key, value)].
Proof.
  induction d as [|[k v] d IH]; simpl; [done|].
  rewrite not_elem_of_cons. intros [Hne Hnot].
  rewrite decide_False by done. by rewrite IH.
Qed.

Lemma parse_entries_formatted py ports done_ :
  Forall (λ p, int_of_str py (str_of_int py p.2) = Some p.2
               ∧ ¬ occurs ":" (str_of_int py p.2)
               ∧ ¬ occurs ":" p.1) ports →
  NoDup (done_ ++ ports).*1 →
  parse_entries py
    ((λ p, p.1 +:+ String ":" (str_of_int py p.2)) <$> ports) done_
  = inr (done_ ++ ports).
Proof.
  intros Hports. revert done_.
  induction Hports as [|[name port] ports (Hint & Hstr & Hname) _ IH];
    intros done_ Hnodup; simpl.
  { by rewrite app_nil_r. }
  unfold parse_entry. simpl in *.
  rewrite split_app by done.
  rewrite split_no_separator by done. rewrite Hint.
  rewrite dict_set_fresh.
  - rewrite IH; rewrite <- app_assoc; done.
  - rewrite fmap_app in Hnodup. apply NoDup_app in Hnodup as (_ & Hnot & _).
    intros Hin. apply (Hnot name Hin). simpl. by left.
Qed.

(** X24.  The service reads back the table the builder wrote: for a table
    that is not empty, with distinct service names holding neither [:] nor
    [;] and ports that [int] reads back from their text, the [PORT] string
    written for it parses to the same table in the same order.  The string
    written for an empty table is empty, and reading it raises
    [IndexError]. *)
Theorem port_table_round_trip (py : builtins) (ports : list (str * Z)) :
  Forall (λ p, int_of_str py (str_of_int py p.2) = Some p.2
               ∧ ¬ occurs ":" (str_of_int py p.2)
               ∧ ¬ occurs ";" (str_of_int py p.2)
               ∧ ¬ occurs ":" p.1 ∧ ¬ occurs ";" p.1) ports →
  NoDup ports.*1 →
  (ports ≠ [] → parse_ports py (format_ports py ports) = inr ports)
  ∧ parse_ports py (format_ports py []) = inl IndexError.
Proof.
  intros Hports Hnodup. split; [|done].
  intros Hne. unfold parse_ports, format_ports.
  rewrite split_join.
  - rewrite (parse_entries_formatted py ports []); try done.
    eapply Forall_impl; [exact Hports|]. by intros p (? & ? & _ & ? & _).
  - by destruct ports.
  - apply Forall_fmap. eapply Forall_impl; [exact Hports|].
    intros [name port] (_ & _ & Hstr & _ & Hname). simpl in *.
    rewrite occurs_app. by intros [?|[[=]|?]].
Qed.

End ports.

Lemma port_table_round_trip_witness :
  port_table.format_ports scenario.py scenario.ports
  = "svc_a:50001;svc_b:50002;board:50003"
  ∧ port_table.parse_ports scenario.py "svc_a:50001;svc_b:50002;board:50003"
    = inr scenario.ports.
Proof.
  split; [reflexivity|].
  refine (proj1 (port_table_round_trip scenario.py scenario.ports _ _) _).
  - repeat constructor; simpl; intuition discriminate.
  - apply (bool_decide_unpack _). by vm_compute.
  - discriminate.
Defined.
